(** * AURA browser automation agent: a shallow embedding of
      [services/automation.py] and the properties of its control loop.

    Conventions of the model.
    - A Python [str] and a JavaScript string are byte strings ([string]);
      stripping, truncation and the case mapping of tag names act on the
      ASCII range and are exact on ASCII text. Python's [str.lower()], whose
      Unicode mapping sends characters from outside the ASCII range into it,
      is a function of the host.
    - Values decoded from JSON are [pyval]; a Python [dict] with string keys
      is a [gmap string pyval].
    - A call that can raise returns an [outcome]; the browser, the two model
      providers and the DOM are inputs of the model (records of what they
      answer), never computed by it.
    - [json.loads], [str.lower()] and [str()] on arbitrary values are
      library functions of the interpreter: they are fields of [Host], and
      every result below holds for any implementation of them.
    - The dismissal of popups and the keep-alive phase, which surround the
      loop, are modelled on their own; the launch of the browser is not part
      of the model, and logging is omitted throughout. *)

From Stdlib Require Import ZArith QArith String Ascii List Lia Bool.
From stdpp Require Import base gmap strings list pretty.

Set Warnings "-register-all".

Local Open Scope Z_scope.

(** ** Strings *)

Module Str.

(** The double quote character, as a one-character string. *)
Definition dq : string := String (ascii_of_nat 34) EmptyString.

(** [quoted s] is [s] between double quotes. *)
Definition quoted (s : string) : string := dq +:+ s +:+ dq.

Definition nl : string := String (ascii_of_nat 10) EmptyString.

Definition is_upper (c : ascii) : bool :=
  let n := nat_of_ascii c in (Nat.leb 65 n && Nat.leb n 90)%bool.

Definition is_lower (c : ascii) : bool :=
  let n := nat_of_ascii c in (Nat.leb 97 n && Nat.leb n 122)%bool.

Definition lower_char (c : ascii) : ascii :=
  if is_upper c then ascii_of_nat (nat_of_ascii c + 32) else c.

Definition upper_char (c : ascii) : ascii :=
  if is_lower c then ascii_of_nat (nat_of_ascii c - 32) else c.

Fixpoint map (f : ascii -> ascii) (s : string) : string :=
  match s with
  | EmptyString => EmptyString
  | String c s' => String (f c) (map f s')
  end.

(** The case mapping of the ASCII range: [toLowerCase()] and
    [toUpperCase()] of the page script on tag names, and what [str.lower()]
    and [str.upper()] do to ASCII text. *)
Definition lower : string -> string := map lower_char.
Definition upper : string -> string := map upper_char.

(** All characters are in the ASCII range. *)
Fixpoint is_ascii (s : string) : bool :=
  match s with
  | EmptyString => true
  | String c s' => (Nat.ltb (nat_of_ascii c) 128 && is_ascii s')%bool
  end.

(** [p] is a prefix of [s] ([s.startswith(p)]). *)
Fixpoint startswith (p s : string) : bool :=
  match p, s with
  | EmptyString, _ => true
  | String a p', String b s' => if Ascii.eqb a b then startswith p' s' else false
  | String _ _, EmptyString => false
  end.

(** Python's [kw in s] on strings: [kw] occurs in [s] as a substring. *)
Fixpoint contains (kw s : string) : bool :=
  if startswith kw s then true
  else match s with
       | EmptyString => false
       | String _ s' => contains kw s'
       end.

(** The declarative reading of [contains]. *)
Definition occurs_in (kw s : string) : Prop :=
  exists pre post, s = pre +:+ kw +:+ post.

(** [sep.join(parts)]. *)
Fixpoint join (sep : string) (parts : list string) : string :=
  match parts with
  | [] => EmptyString
  | [p] => p
  | p :: rest => p +:+ sep +:+ join sep rest
  end.

(** [s[:n]] and [s.substring(0, n)]. *)
Fixpoint take (n : nat) (s : string) : string :=
  match n, s with
  | O, _ => EmptyString
  | _, EmptyString => EmptyString
  | S n', String c s' => String c (take n' s')
  end.

Fixpoint drop_while (f : ascii -> bool) (s : string) : string :=
  match s with
  | EmptyString => EmptyString
  | String c s' => if f c then drop_while f s' else s
  end.

Definition strip_with (f : ascii -> bool) (s : string) : string :=
  String.rev (drop_while f (String.rev (drop_while f s))).

(** White space of Python's [str.strip()] in the ASCII range. *)
Definition py_space (c : ascii) : bool :=
  let n := nat_of_ascii c in
  (Nat.leb 9 n && Nat.leb n 13 || Nat.leb 28 n && Nat.leb n 32)%bool.

(** White space of JavaScript's [trim()] in the ASCII range. *)
Definition js_space (c : ascii) : bool :=
  let n := nat_of_ascii c in
  (Nat.leb 9 n && Nat.leb n 13 || Nat.eqb n 32)%bool.

Definition py_strip : string -> string := strip_with py_space.
Definition js_trim : string -> string := strip_with js_space.

(** Truthiness of a string: non-empty. *)
Definition nonempty (s : string) : bool :=
  match s with EmptyString => false | _ => true end.

End Str.

(** ** Python values and outcomes *)

(** A Python [float] as decoded by [json.loads], which accepts [NaN] and the
    infinities next to the finite values. *)
Inductive pyfloat :=
  | FNan
  | FInf (negative : bool)
  | FFinite (q : Q).

(** The values [json.loads] can return. *)
Inductive pyval :=
  | PNone
  | PBool (b : bool)
  | PInt (z : Z)
  | PFloat (f : pyfloat)
  | PStr (s : string)
  | PList (l : list pyval)
  | PDict (d : gmap string pyval).

(** The exceptions the modelled code can meet. [PageError] stands for any
    exception raised by a Playwright call, [RequestError] for any raised by
    [requests.post], [DecodeError] for [json.JSONDecodeError]; [ValueError]
    and [RecursionError] are what [json.loads] raises besides it (an
    integer literal beyond the digit limit of [int], a nesting beyond the
    recursion limit). *)
Inductive pyexn :=
  | TypeError
  | AttributeError
  | KeyError
  | IndexError
  | DecodeError
  | ValueError
  | RecursionError
  | RequestError
  | PageError.

Inductive outcome (A : Type) :=
  | Returned (a : A)
  | Raised (e : pyexn).
Arguments Returned {A} a.
Arguments Raised {A} e.

(** What the program takes from its host: the interpreter functions
    [json.loads], which returns the decoded value or raises
    ([JSONDecodeError] for a text that is no JSON, [ValueError] or
    [RecursionError] for a text beyond the limits of the interpreter),
    [str.lower()], and [str()] as used by an f-string; and the configured
    [GROQ_API_KEY] (empty when unset). *)
Class Host := {
  json_loads : string -> outcome pyval;
  str_lower : string -> string;
  py_str : pyval -> string;
  GROQ_API_KEY : string;
}.

(** Sequencing of calls that can raise: [x ← m; k] runs [k] on the value
    [m] returns and propagates what [m] raises. *)
Global Instance outcome_ret : MRet outcome := fun A a => Returned a.
Global Instance outcome_bind : MBind outcome := fun A B k m =>
  match m with
  | Returned a => k a
  | Raised e => Raised e
  end.
Global Instance outcome_fmap : FMap outcome := fun A B f m =>
  match m with
  | Returned a => Returned (f a)
  | Raised e => Raised e
  end.

(** [try: m  except Exception: handler] (also the bare [except:]). *)
Definition otry {A} (m : outcome A) (handler : outcome A) : outcome A :=
  match m with
  | Returned a => Returned a
  | Raised _ => handler
  end.

(** [try: m  except json.JSONDecodeError: handler]: any other exception
    goes through. *)
Definition otry_decode {A} (m : outcome A) (handler : outcome A) : outcome A :=
  match m with
  | Raised DecodeError => handler
  | other => other
  end.

Module Py.

(** [d.get(key, default)]; [AttributeError] when [d] is not a dict. *)
Definition get (v : pyval) (key : string) (dflt : pyval) : outcome pyval :=
  match v with
  | PDict d => Returned (default dflt (d !! key))
  | _ => Raised AttributeError
  end.

(** [v[key]] for a string key. *)
Definition getitem (v : pyval) (key : string) : outcome pyval :=
  match v with
  | PDict d => match d !! key with
               | Some x => Returned x
               | None => Raised KeyError
               end
  | _ => Raised TypeError
  end.

(** [v[0]]. A dict decoded from JSON has string keys only. *)
Definition getitem0 (v : pyval) : outcome pyval :=
  match v with
  | PList (x :: _) => Returned x
  | PList [] => Raised IndexError
  | PStr (String c _) => Returned (PStr (String c EmptyString))
  | PStr EmptyString => Raised IndexError
  | PDict _ => Raised KeyError
  | _ => Raised TypeError
  end.

(** [v.strip()]: only a [str] has the method. *)
Definition strip (v : pyval) : outcome string :=
  match v with
  | PStr s => Returned (Str.py_strip s)
  | _ => Raised AttributeError
  end.

(** [v == s] for a string literal [s]. *)
Definition eq_str (v : pyval) (s : string) : bool :=
  match v with
  | PStr s' => bool_decide (s' = s)
  | _ => false
  end.

Definition float_lt_int (f : pyfloat) (n : Z) : bool :=
  match f with
  | FNan => false
  | FInf negative => negative
  | FFinite q => negb (Qle_bool (inject_Z n) q)
  end.

Definition float_ge_int (f : pyfloat) (n : Z) : bool :=
  match f with
  | FNan => false
  | FInf negative => negb negative
  | FFinite q => Qle_bool (inject_Z n) q
  end.

(** [v < n] for an int [n]; [TypeError] for an operand that is no number. *)
Definition lt_int (v : pyval) (n : Z) : outcome bool :=
  match v with
  | PInt z => Returned (z <? n)
  | PBool b => Returned (Z.b2z b <? n)
  | PFloat f => Returned (float_lt_int f n)
  | _ => Raised TypeError
  end.

(** [v >= n] for an int [n]. *)
Definition ge_int (v : pyval) (n : Z) : outcome bool :=
  match v with
  | PInt z => Returned (n <=? z)
  | PBool b => Returned (n <=? Z.b2z b)
  | PFloat f => Returned (float_ge_int f n)
  | _ => Raised TypeError
  end.

(** [l[v]]: an int (or bool) indexes, counting from the end when negative;
    any other value is a [TypeError]. *)
Definition index {A} (l : list A) (v : pyval) : outcome A :=
  let at_ (z : Z) :=
    let pos := if z <? 0 then z + Z.of_nat (length l) else z in
    if pos <? 0 then Raised IndexError
    else match l !! Z.to_nat pos with
         | Some x => Returned x
         | None => Raised IndexError
         end in
  match v with
  | PInt z => at_ z
  | PBool b => at_ (Z.b2z b)
  | _ => Raised TypeError
  end.

End Py.

(** ** Configuration and site routing *)

(** [MAX_LLM_STEPS]: the number of LLM-guided steps of one session. *)
Definition MAX_LLM_STEPS : nat := 20.

Record site := { site_url : string; site_name : string }.

(** [SITE_MAP]: the website of each intent. *)
Definition SITE_MAP : gmap string site :=
  list_to_map [
    ("taxi_booking", {| site_url := "https://m.uber.com/go/pickup"; site_name := "Uber" |});
    ("bus_booking", {| site_url := "https://www.redbus.in/"; site_name := "RedBus" |});
    ("hotel_booking", {| site_url := "https://www.booking.com/"; site_name := "Booking.com" |});
    ("flight_booking", {| site_url := "https://www.google.com/travel/flights"; site_name := "Google Flights" |});
    ("restaurant_booking", {| site_url := "https://www.zomato.com/"; site_name := "Zomato" |});
    ("tour_booking", {| site_url := "https://www.google.com/maps"; site_name := "Google Maps" |})
  ].

(** The default of [SITE_MAP.get(intent, ...)]: a search for the destination. *)
Definition fallback_site (destination : string) : site :=
  {| site_url := "https://www.google.com/search?q=" +:+ destination +:+ "+booking";
     site_name := "Google" |}.

(** The first statement of [_automate_with_llm]: [SITE_MAP.get(intent, fallback)]. *)
Definition site_for (intent destination : string) : site :=
  default (fallback_site destination) (SITE_MAP !! intent).

(** [_build_goal]. *)
Definition _build_goal (intent destination pickup : string) : string :=
  let goals : gmap string string :=
    list_to_map [
      ("taxi_booking",
       "Book a cab from '" +:+ pickup +:+ "' to '" +:+ destination
         +:+ "'. Enter pickup, destination, select ride, proceed to payment.");
      ("bus_booking",
       "Book a bus from '" +:+ pickup +:+ "' to '" +:+ destination
         +:+ "'. Enter origin, destination, select date, search, select bus, proceed to payment.");
      ("hotel_booking",
       "Book a hotel in '" +:+ destination
         +:+ "'. Enter city, dates, search, pick hotel, proceed to payment.");
      ("flight_booking",
       "Search flights from '" +:+ pickup +:+ "' to '" +:+ destination
         +:+ "'. Enter origin, destination, search, select flight, proceed to booking.");
      ("restaurant_booking",
       "Find '" +:+ destination +:+ "' restaurant, add items to cart, proceed to checkout.");
      ("tour_booking", "Search for tours in '" +:+ destination +:+ "'.")
    ] in
  default ("Complete a booking for '" +:+ destination +:+ "' from '" +:+ pickup +:+ "'.")
          (goals !! intent).

(** ** Payment page heuristic *)

Definition payment_keywords : list string :=
  [ "payment"; "checkout"; "pay now"; "card details"; "billing";
    "credit card"; "debit card"; "upi"; "razorpay"; "stripe";
    "paytm"; "phonepe"; "confirm booking"; "proceed to pay" ].

(** [_is_payment_page]. *)
Definition _is_payment_page `{Host} (url title : string) : bool :=
  let combined := str_lower (url +:+ " " +:+ title) in
  existsb (fun kw => Str.contains kw combined) payment_keywords.

(** ** DOM element extraction *)

(** What the property [value] of an element can hold: a value of any of
    the types of the language. Standard form controls hold a string, a list
    item, a meter or a progress bar a number; on any other element (a link,
    an element with a role) the property is undefined unless a script of
    the page has set it, to whatever value. An object is described by what
    the script can tell of it: [JsStringObject] is a String object, which
    has the method [substring] of strings; [JsObject] is any other object
    (an array, a plain object, a function), taken to have no method
    [substring] of its own. *)
Inductive js_value :=
  | JsUndefined
  | JsNull
  | JsBoolean (b : bool)
  | JsNumber (q : Q)
  | JsNaN
  | JsInfinity (negative : bool)
  | JsBigInt (z : Z)
  | JsString (s : string)
  | JsSymbol
  | JsStringObject (s : string)
  | JsObject.

(** A DOM element as the page script sees it: [getAttribute] answers [None]
    for a missing attribute, [textContent] may be null. *)
Record dom_element := {
  tagName : string;
  attr_id : option string;
  attr_placeholder : option string;
  attr_aria_label : option string;
  attr_name : option string;
  attr_type : option string;
  attr_role : option string;
  textContent : option string;
  value_prop : js_value;
  rect_width : Q;
  rect_height : Q;
  style_display : string;
  style_visibility : string;
  style_opacity : string;
}.

(** The document at the time of the scan: what [querySelectorAll] answers. *)
Record document := { querySelectorAll : string -> list dom_element }.

(** One entry of the list handed to the LLM and to the executor. *)
Record page_element := {
  el_index : nat;
  el_tag : string;
  el_type : string;
  el_role : string;
  el_id : string;
  el_name : string;
  el_placeholder : string;
  el_ariaLabel : string;
  el_text : string;
  el_value : string;
  el_desc : string;
  el_label : string;
}.

Module Extract.

Definition selectors : list string :=
  [ "input:not([type=" +:+ Str.quoted "hidden" +:+ "])"; "button"; "a[href]"; "select";
    "textarea"; "[role=" +:+ Str.quoted "button" +:+ "]"; "[role=" +:+ Str.quoted "link" +:+ "]";
    "[role=" +:+ Str.quoted "option" +:+ "]";
    "[role=" +:+ Str.quoted "combobox" +:+ "]"; "[role=" +:+ Str.quoted "listbox" +:+ "]";
    "[role=" +:+ Str.quoted "tab" +:+ "]";
    "[contenteditable=" +:+ Str.quoted "true" +:+ "]" ].

(** The cap on the number of collected elements. *)
Definition cap : nat := 35.

(** [a || b] on strings. *)
Definition or_else (a b : string) : string := if Str.nonempty a then a else b.

(** [el.getAttribute(x) || ''] and [el.textContent || '']. *)
Definition attr (a : option string) : string := default EmptyString a.

(** [rect.width === 0 || rect.height === 0]. *)
Definition zero_area (el : dom_element) : bool :=
  (Qeq_bool (rect_width el) 0 || Qeq_bool (rect_height el) 0)%bool.

(** The computed style hides the element. *)
Definition hidden (el : dom_element) : bool :=
  (bool_decide (style_display el = "none")
   || bool_decide (style_visibility el = "hidden")
   || bool_decide (style_opacity el = "0"))%bool.

Definition tag_of (el : dom_element) : string := Str.lower (tagName el).
Definition text_of (el : dom_element) : string :=
  Str.take 50 (Str.js_trim (attr (textContent el))).

(** The de-duplication key [`${tag}|${id}|${text}|${placeholder}`]. *)
Definition key_of (el : dom_element) : string :=
  tag_of el +:+ "|" +:+ attr (attr_id el) +:+ "|" +:+ text_of el
    +:+ "|" +:+ attr (attr_placeholder el).

(** The truth value of [v], which decides [v || '']. *)
Definition js_truthy (v : js_value) : bool :=
  match v with
  | JsUndefined | JsNull | JsNaN => false
  | JsBoolean b => b
  | JsNumber q => negb (Qeq_bool q 0)
  | JsInfinity _ => true
  | JsBigInt z => negb (z =? 0)
  | JsString s => Str.nonempty s
  | JsSymbol | JsStringObject _ | JsObject => true
  end.

(** The characters of a value that has the method [substring]; [None] for
    a value on which [v.substring] is no function. *)
Definition js_chars (v : js_value) : option string :=
  match v with
  | JsString s | JsStringObject s => Some s
  | _ => None
  end.

(** [el.value || ''], as the string whose [substring(0, 30)] is pushed;
    [None] for a truthy value without the method, on which the script
    throws. *)
Definition value_of (el : dom_element) : option string :=
  if js_truthy (value_prop el) then js_chars (value_prop el) else Some EmptyString.

(** The object pushed for [el] at position [i], [value] being the string
    [el.value || '']. *)
Definition describe (i : nat) (el : dom_element) (value : string) : page_element :=
  let tag := tag_of el in
  let id := attr (attr_id el) in
  let text := text_of el in
  let placeholder := attr (attr_placeholder el) in
  let ariaLabel := attr (attr_aria_label el) in
  let name := attr (attr_name el) in
  let type := attr (attr_type el) in
  let role := attr (attr_role el) in
  let desc := Str.upper tag +:+ (if Str.nonempty type then "[" +:+ type +:+ "]" else EmptyString) in
  let label := or_else ariaLabel (or_else placeholder (or_else text (or_else name id))) in
  {| el_index := i; el_tag := tag; el_type := type; el_role := role; el_id := id;
     el_name := name; el_placeholder := placeholder; el_ariaLabel := ariaLabel;
     el_text := Str.take 50 text; el_value := Str.take 30 value;
     el_desc := desc; el_label := Str.take 60 label |}.

(** The variables of the page script: [results] and [seen]. *)
Record scan_state := { results : list page_element; seen : gset string }.

(** How the body of the inner loop ends for one candidate. *)
Inductive status :=
  | Next (st : scan_state)
  | Break (st : scan_state)
  | Throw.

(** The body of the inner loop. *)
Definition visit (el : dom_element) (st : scan_state) : status :=
  if zero_area el then Next st
  else if hidden el then Next st
  else
    let key := key_of el in
    if bool_decide (key ∈ seen st) then Next st
    else
      match value_of el with
      | None => Throw
      | Some value =>
          let st' := {| results := results st ++ [describe (length (results st)) el value];
                        seen := {[ key ]} ∪ seen st |} in
          if Nat.leb cap (length (results st')) then Break st' else Next st'
      end.

(** [for (const el of document.querySelectorAll(selector))]. *)
Fixpoint scan_elements (els : list dom_element) (st : scan_state) : status :=
  match els with
  | [] => Next st
  | el :: rest =>
      match visit el st with
      | Next st' => scan_elements rest st'
      | stop => stop
      end
  end.

(** [for (const selector of selectors)], with the second
    [if (results.length >= 35) break] after the inner loop. *)
Fixpoint scan_selectors (doc : document) (sels : list string) (st : scan_state)
  : option (list page_element) :=
  match sels with
  | [] => Some (results st)
  | sel :: rest =>
      match scan_elements (querySelectorAll doc sel) st with
      | Throw => None
      | Next st' | Break st' =>
          if Nat.leb cap (length (results st')) then Some (results st')
          else scan_selectors doc rest st'
      end
  end.

(** The script passed to [page.evaluate]; [None] when it throws. *)
Definition page_script (doc : document) : option (list page_element) :=
  scan_selectors doc selectors {| results := []; seen := ∅ |}.

(** One line of the textual description. *)
Definition line_of (el : page_element) : string :=
  "[" +:+ pretty (el_index el) +:+ "] " +:+ el_desc el
    +:+ (if Str.nonempty (el_label el) then " " +:+ Str.quoted (el_label el) else EmptyString)
    +:+ (if Str.nonempty (el_value el)
         then " (value: " +:+ Str.quoted (el_value el) +:+ ")" else EmptyString).

(** [e] describes a candidate of [doc], matched by one of the selectors,
    whose bounding box has a non-zero width and a non-zero height and
    whose style does not hide it. *)
Definition from_visible_box (doc : document) (e : page_element) : Prop :=
  exists sel cand value,
    sel ∈ selectors /\ cand ∈ querySelectorAll doc sel
    /\ ~ (rect_width cand == 0)%Q /\ ~ (rect_height cand == 0)%Q
    /\ hidden cand = false
    /\ e = describe (el_index e) cand value.

(** What holds of the script's state between two candidates. *)
Definition scanning (doc : document) (bound : nat) (st : scan_state) : Prop :=
  (length (results st) <= bound)%nat /\ Forall (from_visible_box doc) (results st).

End Extract.

(** [_get_page_elements]. The page is [None] when [page.evaluate] itself
    raises (closed or navigating page); an exception of either kind yields
    the empty list and the empty text. *)
Definition _get_page_elements (page : option document) : list page_element * string :=
  match page ≫= Extract.page_script with
  | Some elements => (elements, Str.join Str.nl (Extract.line_of <$> elements))
  | None => ([], EmptyString)
  end.

(** ** The LLM call: Groq first, Ollama as fallback *)

(** What [requests.post] gives: a response, or an exception (connection
    error, timeout). *)
Inductive http_result :=
  | RequestFailed
  | Response (status_code : Z) (body : string).

(** The reply returned when no provider answers. *)
Definition unavailable_reply : string :=
  "{" +:+ Str.quoted "action" +:+ ": " +:+ Str.quoted "wait" +:+ ", "
      +:+ Str.quoted "reason" +:+ ": " +:+ Str.quoted "LLM unavailable" +:+ "}".

(** The action that reply spells. *)
Definition unavailable_action : pyval :=
  PDict (list_to_map [("action", PStr "wait"); ("reason", PStr "LLM unavailable")]).

(** A provider fails: the request raises (network error, timeout) or the
    status of the response is not 200. *)
Definition provider_failed (r : http_result) : Prop :=
  r = RequestFailed \/ exists status body, r = Response status body /\ status <> 200.

Section Engine.
Context `{Host}.

(** [json.loads(s)] and [resp.json()] as calls that can raise. *)
Definition loads (body : string) : outcome pyval := json_loads body.

(** The body of the first [try]: the content of a Groq answer. *)
Definition groq_answer (r : http_result) : outcome (option string) :=
  match r with
  | RequestFailed => Raised RequestError
  | Response status body =>
      if status =? 200 then
        j ← loads body;
        choices ← Py.getitem j "choices";
        first ← Py.getitem0 choices;
        message ← Py.getitem first "message";
        content ← Py.getitem message "content";
        stripped ← Py.strip content;
        Returned (Some stripped)
      else Returned None
  end.

(** The body of the second [try]: the response field of an Ollama answer. *)
Definition ollama_answer (r : http_result) : outcome (option string) :=
  match r with
  | RequestFailed => Raised RequestError
  | Response status body =>
      if status =? 200 then
        j ← loads body;
        response ← Py.get j "response" (PStr EmptyString);
        stripped ← Py.strip response;
        Returned (Some stripped)
      else Returned None
  end.

(** [_call_llm]: [groq] and [ollama] are the two endpoints. *)
Definition _call_llm (groq ollama : string -> http_result) (prompt : string)
  : outcome string :=
  let from_groq :=
    if Str.nonempty GROQ_API_KEY
    then otry (groq_answer (groq prompt)) (Returned None)
    else Returned None in
  g ← from_groq;
  match g with
  | Some content => Returned content
  | None =>
      o ← otry (ollama_answer (ollama prompt)) (Returned None);
      match o with
      | Some response => Returned response
      | None => Returned unavailable_reply
      end
  end.

End Engine.

(** ** Decision engine *)

Module Regex.

Definition close : ascii := "}"%char.
Definition open : ascii := "{"%char.

(** [[^}]*\}] at the head of [s]: the text up to and including the first
    closing brace. *)
Fixpoint until_close (s : string) : option string :=
  match s with
  | EmptyString => None
  | String c s' =>
      if Ascii.eqb c close then Some (String close EmptyString)
      else String c <$> until_close s'
  end.

(** [\{[^}]+\}] anchored at the head of [s]. *)
Definition match_here (s : string) : option string :=
  match s with
  | String o (String c rest) =>
      if (Ascii.eqb o open && negb (Ascii.eqb c close))%bool
      then (fun m => String o (String c m)) <$> until_close rest
      else None
  | _ => None
  end.

(** [re.search(r'\{[^}]+\}', s)]: the leftmost match, [match.group(0)]. *)
Fixpoint search (s : string) : option string :=
  match match_here s with
  | Some m => Some m
  | None =>
      match s with
      | EmptyString => None
      | String _ s' => search s'
      end
  end.

(** A text of the shape the pattern describes: an opening brace, one or
    more characters other than a closing brace, a closing brace. *)
Definition brace_group (m : string) : Prop :=
  exists body, m = String open (body +:+ String close EmptyString)
    /\ body <> EmptyString
    /\ ~ Str.occurs_in (String close EmptyString) body.

(** [m] is the first such group of [r]: none starts further left. *)
Definition first_brace_group (r m : string) : Prop :=
  exists pre post, r = pre +:+ m +:+ post /\ brace_group m
    /\ forall pre' m' post', r = pre' +:+ m' +:+ post' -> brace_group m' ->
         (String.length pre <= String.length pre')%nat.

End Regex.

(** The action returned when the reply cannot be parsed. *)
Definition parse_error_action : pyval :=
  PDict (list_to_map [("action", PStr "wait"); ("reason", PStr "Parse error")]).

Section Decision.
Context `{Host}.

(** The parsing part of [_ask_llm_action] (the [try] after the call). *)
Definition parse_reply (response : string) : outcome pyval :=
  otry_decode (loads response)
    (let extracted :=
       match Regex.search response with
       | Some group0 => otry (Some <$> loads group0) (Returned None)
       | None => Returned None
       end in
     e ← extracted;
     match e with
     | Some action => Returned action
     | None => Returned parse_error_action
     end).

End Decision.

Module Prompt.

(** [history[-5:]]. *)
Definition last5 (history : list string) : list string :=
  drop (length history - 5)%nat history.

Definition history_text (history : list string) : string :=
  match history with
  | [] => "None yet"
  | _ => Str.join Str.nl (last5 history)
  end.

(** ["k":"v"] and an object of such fields, as the prompt spells them. *)
Definition kv (k v : string) : string := Str.quoted k +:+ ":" +:+ Str.quoted v.
Definition obj (fields : list string) : string := "{" +:+ Str.join "," fields +:+ "}".
Definition element_num : string := Str.quoted "element" +:+ ":<num>".

(** The f-string of [_ask_llm_action]. *)
Definition render (elements_text goal page_url page_title : string)
    (history : list string) : string :=
  Str.join Str.nl [
    "You are a browser automation agent. Goal: " +:+ goal;
    EmptyString;
    "Page: " +:+ page_title +:+ " (" +:+ page_url +:+ ")";
    "Previous actions: " +:+ history_text history;
    EmptyString;
    "Interactive elements:";
    elements_text;
    EmptyString;
    "Reply with ONLY a JSON object for the NEXT action:";
    "- Click: " +:+ obj [kv "action" "click"; element_num; kv "reason" "why"];
    "- Type: " +:+ obj [kv "action" "type"; element_num; kv "text" "value"; kv "reason" "why"];
    "- Press Enter: " +:+ obj [kv "action" "press_enter"; kv "reason" "why"];
    "- Scroll: " +:+ obj [kv "action" "scroll"; kv "reason" "why"];
    "- Done (at payment): " +:+ obj [kv "action" "done"; kv "reason" "At payment page"];
    "- Wait: " +:+ obj [kv "action" "wait"; kv "reason" "why"];
    EmptyString;
    "Rules: Fill origin/destination inputs first, then search. If the pickup/origin is "
      +:+ Str.quoted "my current location" +:+ ", look for a "
      +:+ Str.quoted "Current location" +:+ " button or type "
      +:+ Str.quoted "Current location"
      +:+ " to let the site use geolocation. If you see payment/checkout/card fields, respond done. Pick ONE action."
  ].

End Prompt.

Section Ask.
Context `{Host}.

(** [_ask_llm_action]. *)
Definition _ask_llm_action (groq ollama : string -> http_result)
    (elements_text goal page_url page_title : string) (history : list string)
  : outcome pyval :=
  let prompt := Prompt.render elements_text goal page_url page_title history in
  response ← _call_llm groq ollama prompt;
  parse_reply response.

End Ask.

(** ** Action executor *)

Module Exec.

(** How [_build_locator] addresses an element. *)
Inductive locator :=
  | Css (selector : string)
  | ByLabel (text : string)
  | ByPlaceholder (text : string)
  | ByText (text : string).

(** The Playwright calls of the executor. *)
Inductive page_op :=
  | MouseWheel (dx dy : Z)
  | KeyboardPress (key : string)
  | WaitForVisible (loc : locator)
  | Click (loc : locator)
  | Fill (loc : locator) (text : string)
  | KeyboardType (text : pyval).

(** What the executor does to the outside, in order. *)
Inductive effect :=
  | Sleep (milliseconds : nat)
  | Op (op : page_op).

(** The browser as the executor meets it: which calls return ([true]) and
    which raise ([false]). *)
Definition browser := page_op -> bool.

(** A computation of the executor: it reads the browser, extends the list
    of effects and returns or raises. *)
Definition M (A : Type) : Type := browser -> list effect -> outcome A * list effect.

Definition ret {A} (a : A) : M A := fun _ tr => (Returned a, tr).
Definition lift {A} (m : outcome A) : M A := fun _ tr => (m, tr).

Definition bind {A B} (m : M A) (k : A -> M B) : M B := fun b tr =>
  match m b tr with
  | (Returned a, tr') => k a b tr'
  | (Raised e, tr') => (Raised e, tr')
  end.

(** [try: m  except ...: handler]; what [m] did before raising stays done. *)
Definition try_except {A} (m : M A) (handler : M A) : M A := fun b tr =>
  match m b tr with
  | (Returned a, tr') => (Returned a, tr')
  | (Raised _, tr') => handler b tr'
  end.

Definition sleep (ms : nat) : M unit := fun _ tr => (Returned tt, tr ++ [Sleep ms]).

(** A Playwright call: attempted, then it returns or raises. *)
Definition perform (op : page_op) : M unit := fun b tr =>
  (if b op then Returned tt else Raised PageError, tr ++ [Op op]).

Local Notation "x ⇐ m ;; k" := (bind m (fun x => k))
  (at level 100, m at next level, k at level 200, right associativity).
Local Notation "m ;; k" := (bind m (fun _ => k))
  (at level 100, k at level 200, right associativity).

(** The strategies of [_build_locator], in the order they are appended. *)
Definition strategies (el_info : page_element) : list locator :=
  (if Str.nonempty (el_id el_info) then [Css ("#" +:+ el_id el_info)] else [])
  ++ (if Str.nonempty (el_ariaLabel el_info) then [ByLabel (el_ariaLabel el_info)] else [])
  ++ (if Str.nonempty (el_placeholder el_info)
      then [ByPlaceholder (el_placeholder el_info)] else [])
  ++ (if (Str.nonempty (el_text el_info)
          && (bool_decide (el_tag el_info = "button") || bool_decide (el_tag el_info = "a")))%bool
      then [ByText (el_text el_info)] else [])
  ++ (if Str.nonempty (el_name el_info)
      then [Css (el_tag el_info +:+ "[name=" +:+ Str.quoted (el_name el_info) +:+ "]")]
      else []).

(** The loop of [_build_locator]: the first strategy whose locator becomes
    visible, else the fallback. *)
Fixpoint first_visible (candidates : list locator) (fallback : locator) : M locator :=
  match candidates with
  | [] => ret fallback
  | loc :: rest =>
      try_except (perform (WaitForVisible loc) ;; ret loc) (first_visible rest fallback)
  end.

(** [_build_locator]. *)
Definition _build_locator (el_info : page_element) : M locator :=
  first_visible (strategies el_info) (Css (el_tag el_info)).

(** The handler of the executor: a Tab key, itself guarded. *)
Definition recovery : M unit :=
  try_except (perform (KeyboardPress "Tab") ;; sleep 500) (ret tt).

(** [_execute_action]: [Returned false] is the stop signal. *)
Definition _execute_action (action : pyval) (elements : list page_element) : M bool :=
  action_type ⇐ lift (Py.get action "action" (PStr "wait")) ;;
  if Py.eq_str action_type "done" then ret false
  else if Py.eq_str action_type "wait" then (sleep 2000 ;; ret true)
  else if Py.eq_str action_type "scroll" then
    (perform (MouseWheel 0 400) ;; sleep 1000 ;; ret true)
  else if Py.eq_str action_type "press_enter" then
    (perform (KeyboardPress "Enter") ;; sleep 2000 ;; ret true)
  else
    idx ⇐ lift (Py.get action "element" (PInt (-1))) ;;
    negative ⇐ lift (Py.lt_int idx 0) ;;
    invalid ⇐ (if negative : bool then ret true
               else lift (Py.ge_int idx (Z.of_nat (length elements)))) ;;
    if invalid : bool then (sleep 1000 ;; ret true)
    else
      el_info ⇐ lift (Py.index elements idx) ;;
      try_except
        (locator ⇐ _build_locator el_info ;;
         if Py.eq_str action_type "click" then
           (perform (Click locator) ;; sleep 2000)
         else if Py.eq_str action_type "type" then
           (text ⇐ lift (Py.get action "text" (PStr EmptyString)) ;;
            perform (Click locator) ;; sleep 300 ;;
            perform (Fill locator EmptyString) ;; sleep 200 ;;
            perform (KeyboardType text) ;; sleep 2000)
         else ret tt)
        recovery ;;
      ret true.

(** A computation that returns whatever the browser does. *)
Definition returns {A} (m : M A) : Prop :=
  forall b tr, exists a tr', m b tr = (Returned a, tr').

(** The action kinds the executor handles before it looks at an element. *)
Definition simple_kind (v : pyval) : bool :=
  (Py.eq_str v "done" || Py.eq_str v "wait" || Py.eq_str v "scroll"
   || Py.eq_str v "press_enter")%bool.

(** The kind of an action: [action.get("action", "wait")]. *)
Definition kind_of (d : gmap string pyval) : pyval :=
  default (PStr "wait") (d !! "action").

(** The element of an action: [action.get("element", -1)]. *)
Definition element_of (d : gmap string pyval) : pyval :=
  default (PInt (-1)) (d !! "element").

End Exec.

(** An action whose ["action"] field is the string [kind]. *)
Definition is_action (kind : string) (a : pyval) : Prop :=
  exists d, a = PDict d /\ d !! "action" = Some (PStr kind).

(** ** The control loop *)

(** What the outside answers during one iteration of the loop. *)
Record world := {
  w_page : option document;               (* the DOM; [None]: [page.evaluate] raises *)
  w_location : option (string * string);  (* [page.url], [page.title()]; [None]: one raises *)
  w_groq : string -> http_result;
  w_ollama : string -> http_result;
  w_browser : Exec.browser;
}.

(** The variables of the loop that live across iterations. *)
Record session := { history : list string; waits : nat }.

(** Why the loop ended: the four exits of the loop, and an exception
    reaching the handler around it. *)
Inductive reason :=
  | done_signal
  | payment_detected
  | step_budget_exhausted
  | repeated_wait_abort
  | automation_error (e : pyexn).

(** How one iteration ends: the next iteration follows, or the loop is left. *)
Inductive flow :=
  | Continue (s : session)
  | Stop (r : reason) (s : session).

Record run := { ended : reason; visited : list nat; final : session }.

(** The number of iterations entered. *)
Definition iterations (r : run) : nat := length (visited r).

Section Loop.
Context `{Host}.

(** The line appended to [history]. *)
Definition history_line (step : nat) (llm_action : pyval) : outcome string :=
  a ← Py.get llm_action "action" (PStr "?");
  r ← Py.get llm_action "reason" (PStr "?");
  Returned ("Step " +:+ pretty (step + 1)%nat +:+ ": " +:+ py_str a +:+ " - " +:+ py_str r).

(** The second half of the body, from the line appended to [history] to
    the update of [waits]. *)
Definition act (w : world) (step : nat) (s : session) (elements : list page_element)
    (llm_action : pyval) : flow :=
  match history_line step llm_action with
  | Raised e => Stop (automation_error e) s
  | Returned line =>
      let s1 := {| history := history s ++ [line]; waits := waits s |} in
      match fst (Exec._execute_action llm_action elements (w_browser w) []) with
      | Raised e => Stop (automation_error e) s1
      | Returned false => Stop done_signal s1
      | Returned true =>
          match Py.get llm_action "action" PNone with
          | Raised e => Stop (automation_error e) s1
          | Returned a =>
              if Py.eq_str a "wait" then
                let s2 := {| history := history s1; waits := S (waits s1) |} in
                if Nat.leb 3 (waits s2) then Stop repeated_wait_abort s2
                else Continue s2
              else Continue {| history := history s1; waits := 0 |}
          end
      end
  end.

(** The body of [for step in range(MAX_LLM_STEPS)]. *)
Definition loop_body (goal : string) (w : world) (step : nat) (s : session) : flow :=
  let '(elements, elements_text) := _get_page_elements (w_page w) in
  if negb (Str.nonempty elements_text) then Continue s
  else
    let '(url, title) := default ("unknown", "unknown") (w_location w) in
    if _is_payment_page url title then Stop payment_detected s
    else
      match _ask_llm_action (w_groq w) (w_ollama w) elements_text goal url title (history s) with
      | Raised e => Stop (automation_error e) s
      | Returned llm_action => act w step s elements llm_action
      end.

(** The [for] loop over the remaining values of [step]; [seen] are the
    values already used. *)
Fixpoint run_steps (goal : string) (worlds : nat -> world) (steps seen : list nat)
    (s : session) : run :=
  match steps with
  | [] => {| ended := step_budget_exhausted; visited := seen; final := s |}
  | step :: rest =>
      match loop_body goal (worlds step) step s with
      | Continue s' => run_steps goal worlds rest (seen ++ [step]) s'
      | Stop r s' => {| ended := r; visited := seen ++ [step]; final := s' |}
      end
  end.

Definition initial : session := {| history := []; waits := 0 |}.

(** The loop of [_automate_with_llm]; [worlds step] is what the outside
    answers during the iteration with that value of [step]. *)
Definition control_loop (goal : string) (worlds : nat -> world) : run :=
  run_steps goal worlds (seq 0 MAX_LLM_STEPS) [] initial.

(** [_automate_with_llm] from the site lookup to the end of the loop;
    [goto_ok] tells whether [page.goto] returns. *)
Definition _automate_with_llm (intent destination pickup : string) (goto_ok : bool)
    (worlds : nat -> world) : site * run :=
  let site := site_for intent destination in
  let goal := _build_goal intent destination pickup in
  (site,
   if goto_ok then control_loop goal worlds
   else {| ended := automation_error PageError; visited := []; final := initial |}).

(** The session at the head of iteration [k], when the loop gets there. *)
Fixpoint state_at (goal : string) (worlds : nat -> world) (k : nat) : option session :=
  match k with
  | O => Some initial
  | S k' =>
      match state_at goal worlds k' with
      | Some s =>
          match loop_body goal (worlds k') k' s with
          | Continue s' => Some s'
          | Stop _ _ => None
          end
      | None => None
      end
  end.

(** Nothing was extracted: the iteration is skipped. *)
Definition skipped (w : world) : Prop := snd (_get_page_elements (w_page w)) = EmptyString.

(** The page read in this iteration is taken for a payment page. *)
Definition payment_seen (w : world) : Prop :=
  snd (_get_page_elements (w_page w)) <> EmptyString /\
  let '(url, title) := default ("unknown", "unknown") (w_location w) in
  _is_payment_page url title = true.

(** The action the decision engine returns in iteration [k], when the loop
    gets there and asks. *)
Definition decision_at (goal : string) (worlds : nat -> world) (k : nat) : option pyval :=
  match state_at goal worlds k with
  | None => None
  | Some s =>
      let w := worlds k in
      let '(elements, elements_text) := _get_page_elements (w_page w) in
      if negb (Str.nonempty elements_text) then None
      else
        let '(url, title) := default ("unknown", "unknown") (w_location w) in
        if _is_payment_page url title then None
        else
          match _ask_llm_action (w_groq w) (w_ollama w) elements_text goal url title (history s) with
          | Returned a => Some a
          | Raised _ => None
          end
  end.

(** What the decision engine answers in iteration [k], when the loop gets
    there and asks: an action, or the exception it raises. *)
Definition asked_at (goal : string) (worlds : nat -> world) (k : nat)
  : option (outcome pyval) :=
  match state_at goal worlds k with
  | None => None
  | Some s =>
      let w := worlds k in
      let '(elements, elements_text) := _get_page_elements (w_page w) in
      if negb (Str.nonempty elements_text) then None
      else
        let '(url, title) := default ("unknown", "unknown") (w_location w) in
        if _is_payment_page url title then None
        else Some (_ask_llm_action (w_groq w) (w_ollama w) elements_text goal url title
                     (history s))
  end.

(** The loop decides a "wait" in iteration [k]. *)
Definition wait_at (goal : string) (worlds : nat -> world) (k : nat) : Prop :=
  exists a, decision_at goal worlds k = Some a /\ is_action "wait" a.

(** What the executor answers for [action] in iteration [k]. *)
Definition executed_at (worlds : nat -> world) (k : nat) (action : pyval) : outcome bool :=
  let w := worlds k in
  fst (Exec._execute_action action (fst (_get_page_elements (w_page w))) (w_browser w) []).

End Loop.


(** ** A host to run the model on concrete replies *)

(** A decoder for the JSON texts met in the examples: objects, arrays,
    strings with the one-letter escapes, integers, the three literals and
    the non-finite numbers [json.loads] accepts. An integer literal of more
    than 4300 digits raises [ValueError], as the conversion to [int] does
    with the default limit of the interpreter. Texts with a fraction, an
    exponent or a [\u] escape are outside it, and so is the recursion
    limit: nesting of any depth is decoded. The results of this file are
    stated for every [Host]; this one serves to evaluate them. *)
Module Ref.

Definition is_ws (c : ascii) : bool :=
  let n := nat_of_ascii c in
  (Nat.eqb n 32 || Nat.eqb n 9 || Nat.eqb n 10 || Nat.eqb n 13)%bool.

Definition skip_ws : string -> string := Str.drop_while is_ws.

Definition digit (c : ascii) : option Z :=
  let n := nat_of_ascii c in
  if (Nat.leb 48 n && Nat.leb n 57)%bool then Some (Z.of_nat (n - 48)) else None.

Fixpoint digits (acc : Z) (s : string) : Z * string :=
  match s with
  | String c s' =>
      match digit c with
      | Some d => digits (10 * acc + d) s'
      | None => (acc, s)
      end
  | EmptyString => (acc, s)
  end.

(** [0] or a digit sequence without a leading zero; no fraction or
    exponent may follow. *)
Definition natural (s : string) : option (Z * string) :=
  match s with
  | String c s' =>
      match digit c with
      | Some d =>
          let '(n, rest) := if d =? 0 then (0, s') else digits d s' in
          match rest with
          | String c' _ =>
              if (Ascii.eqb c' "." || Ascii.eqb c' "e" || Ascii.eqb c' "E")%bool
              then None else Some (n, rest)
          | EmptyString => Some (n, rest)
          end
      | None => None
      end
  | EmptyString => None
  end.

Definition escape (c : ascii) : option ascii :=
  if Ascii.eqb c (ascii_of_nat 34) then Some (ascii_of_nat 34)
  else if Ascii.eqb c "\" then Some "\"%char
  else if Ascii.eqb c "/" then Some "/"%char
  else if Ascii.eqb c "b" then Some (ascii_of_nat 8)
  else if Ascii.eqb c "f" then Some (ascii_of_nat 12)
  else if Ascii.eqb c "n" then Some (ascii_of_nat 10)
  else if Ascii.eqb c "r" then Some (ascii_of_nat 13)
  else if Ascii.eqb c "t" then Some (ascii_of_nat 9)
  else None.

(** The characters of a string literal after its opening quote. *)
Fixpoint chars (s : string) : option (string * string) :=
  match s with
  | EmptyString => None
  | String c s' =>
      if Ascii.eqb c (ascii_of_nat 34) then Some (EmptyString, s')
      else if Ascii.eqb c "\" then
        match s' with
        | String e s'' =>
            match escape e, chars s'' with
            | Some x, Some (body, rest) => Some (String x body, rest)
            | _, _ => None
            end
        | EmptyString => None
        end
      else if Nat.ltb (nat_of_ascii c) 32 then None
      else
        match chars s' with
        | Some (body, rest) => Some (String c body, rest)
        | None => None
        end
  end.

Definition literal (word : string) (v : pyval) (s : string) : option (pyval * string) :=
  if Str.startswith word s then Some (v, String.substring (String.length word) (String.length s) s)
  else None.

(** The default of [sys.set_int_max_str_digits]. *)
Definition int_max_str_digits : nat := 4300.

(** An integer literal at the head of [s], [ValueError] when it has more
    digits than [int] converts; [None] when [s] does not start with one. *)
Definition integer (s : string) : option (outcome (Z * string)) :=
  match natural s with
  | Some (n, rest) =>
      Some (if Nat.ltb int_max_str_digits (String.length s - String.length rest)
            then Raised ValueError else Returned (n, rest))
  | None => None
  end.

Fixpoint value (fuel : nat) (s : string) : outcome (pyval * string) :=
  match fuel with
  | O => Raised DecodeError
  | S fuel' =>
      let elements := fix elements (n : nat) (acc : list pyval) (s : string)
          : outcome (pyval * string) :=
        match n with
        | O => Raised DecodeError
        | S n' =>
            match value fuel' (skip_ws s) with
            | Returned (v, rest) =>
                match skip_ws rest with
                | String c rest' =>
                    if Ascii.eqb c "," then elements n' (acc ++ [v]) rest'
                    else if Ascii.eqb c "]" then Returned (PList (acc ++ [v]), rest')
                    else Raised DecodeError
                | EmptyString => Raised DecodeError
                end
            | Raised e => Raised e
            end
        end in
      let members := fix members (n : nat) (acc : gmap string pyval) (s : string)
          : outcome (pyval * string) :=
        match n with
        | O => Raised DecodeError
        | S n' =>
            match skip_ws s with
            | String q s1 =>
                if Ascii.eqb q (ascii_of_nat 34) then
                  match chars s1 with
                  | Some (key, s2) =>
                      match skip_ws s2 with
                      | String colon s3 =>
                          if Ascii.eqb colon ":" then
                            match value fuel' (skip_ws s3) with
                            | Returned (v, rest) =>
                                match skip_ws rest with
                                | String c rest' =>
                                    if Ascii.eqb c "," then members n' (<[key := v]> acc) rest'
                                    else if Ascii.eqb c "}"
                                         then Returned (PDict (<[key := v]> acc), rest')
                                    else Raised DecodeError
                                | EmptyString => Raised DecodeError
                                end
                            | Raised e => Raised e
                            end
                          else Raised DecodeError
                      | EmptyString => Raised DecodeError
                      end
                  | None => Raised DecodeError
                  end
                else Raised DecodeError
            | EmptyString => Raised DecodeError
            end
        end in
      match s with
      | EmptyString => Raised DecodeError
      | String c s' =>
          if Ascii.eqb c "{" then
            match skip_ws s' with
            | String c' s'' =>
                if Ascii.eqb c' "}" then Returned (PDict ∅, s'') else members fuel' ∅ s'
            | EmptyString => Raised DecodeError
            end
          else if Ascii.eqb c "[" then
            match skip_ws s' with
            | String c' s'' =>
                if Ascii.eqb c' "]" then Returned (PList [], s'') else elements fuel' [] s'
            | EmptyString => Raised DecodeError
            end
          else if Ascii.eqb c (ascii_of_nat 34) then
            match chars s' with
            | Some (body, rest) => Returned (PStr body, rest)
            | None => Raised DecodeError
            end
          else if Ascii.eqb c "-" then
            match literal "Infinity" (PFloat (FInf true)) s' with
            | Some r => Returned r
            | None =>
                match integer s' with
                | Some (Returned (n, rest)) => Returned (PInt (- n), rest)
                | Some (Raised e) => Raised e
                | None => Raised DecodeError
                end
            end
          else
            match integer s with
            | Some (Returned (n, rest)) => Returned (PInt n, rest)
            | Some (Raised e) => Raised e
            | None =>
                match literal "null" PNone s, literal "true" (PBool true) s,
                      literal "false" (PBool false) s, literal "NaN" (PFloat FNan) s,
                      literal "Infinity" (PFloat (FInf false)) s with
                | Some r, _, _, _, _ | _, Some r, _, _, _ | _, _, Some r, _, _
                | _, _, _, Some r, _ | _, _, _, _, Some r => Returned r
                | _, _, _, _, _ => Raised DecodeError
                end
            end
      end
  end.

(** [json.loads]: one value, white space around it and nothing else. *)
Definition decode (s : string) : outcome pyval :=
  match value (S (String.length s)) (skip_ws s) with
  | Returned (v, rest) =>
      match skip_ws rest with
      | EmptyString => Returned v
      | _ => Raised DecodeError
      end
  | Raised e => Raised e
  end.

(** [str()] of the values whose text does not depend on a float or a
    container. *)
Definition show (v : pyval) : string :=
  match v with
  | PNone => "None"
  | PBool true => "True"
  | PBool false => "False"
  | PInt z => pretty z
  | PStr s => s
  | PFloat FNan => "nan"
  | PFloat (FInf true) => "-inf"
  | PFloat (FInf false) => "inf"
  | PFloat (FFinite _) => "<float>"
  | PList _ => "<list>"
  | PDict _ => "<dict>"
  end.

(** The reference host, with and without a Groq key. Its [str.lower()] is
    the ASCII mapping, which is what the interpreter's does to ASCII
    text. *)
Definition host (key : string) : Host :=
  {| json_loads := decode; str_lower := Str.lower; py_str := show; GROQ_API_KEY := key |}.

End Ref.

(** ** Concrete pages and providers *)

Module Demo.

(** A visible search button. *)
Definition button : dom_element :=
  {| tagName := "BUTTON"; attr_id := Some "go"; attr_placeholder := None;
     attr_aria_label := None; attr_name := None; attr_type := Some "submit";
     attr_role := None; textContent := Some " Search "; value_prop := JsString EmptyString;
     rect_width := inject_Z 80; rect_height := inject_Z 24;
     style_display := "block"; style_visibility := "visible"; style_opacity := "1" |}.

(** A document whose only interactive element is [button]. *)
Definition doc : document :=
  {| querySelectorAll sel := if bool_decide (sel = "button") then [button] else [] |}.

(** [s] as the inside of a JSON string literal. *)
Fixpoint escape (s : string) : string :=
  match s with
  | EmptyString => EmptyString
  | String c s' =>
      if (Ascii.eqb c (ascii_of_nat 34) || Ascii.eqb c "\")%bool
      then String "\" (String c (escape s'))
      else String c (escape s')
  end.

(** An endpoint that is down, and an Ollama endpoint answering [reply]. *)
Definition down : string -> http_result := fun _ => RequestFailed.
Definition ollama_says (reply : string) : string -> http_result := fun _ =>
  Response 200 ("{" +:+ Str.quoted "response" +:+ ":" +:+ Str.quoted (escape reply) +:+ "}").

(** The reply for an action without an element. *)
Definition says (kind : string) : string :=
  Prompt.obj [Prompt.kv "action" kind; Prompt.kv "reason" "demo"].

(** One iteration on [doc] at the given location; every browser call
    returns. *)
Definition at_page (url title : string) (ollama : string -> http_result) : world :=
  {| w_page := Some doc; w_location := Some (url, title);
     w_groq := down; w_ollama := ollama; w_browser := fun _ => true |}.

Definition home (ollama : string -> http_result) : world :=
  at_page "https://www.booking.com/" "Booking.com" ollama.

(** Both providers down at every step. *)
Definition offline : nat -> world := fun _ => home down.

(** The provider answers the given kinds of action in turn, then [last]. *)
Definition script (kinds : list string) (last : string) : nat -> world := fun step =>
  home (ollama_says (says (default last (kinds !! step)))).

(** A browser whose every call raises (its window was closed). *)
Definition closed : Exec.browser := fun _ => false.

(** The same iteration when the browser window is closed after the page
    was read (while the engine is asked). *)
Definition window_closed (w : world) : world :=
  {| w_page := w_page w; w_location := w_location w; w_groq := w_groq w;
     w_ollama := w_ollama w; w_browser := closed |}.

(** The sessions after a "wait" and after the "scroll" that follows it. *)
Definition after_wait : session :=
  {| history := ["Step 1: wait - demo"]; waits := 1 |}.
Definition after_scroll : session :=
  {| history := ["Step 1: wait - demo"; "Step 2: scroll - demo"]; waits := 0 |}.


(** A Groq endpoint answering an HTTP error. *)
Definition overloaded : string -> http_result := fun _ => Response 503 "Service Unavailable".

End Demo.

(** ** Around the loop: popups and keep-alive *)

(** The key under which the page script remembers an element it pushed,
    read back from the pushed object. *)
Definition element_key (e : page_element) : string :=
  el_tag e +:+ "|" +:+ el_id e +:+ "|" +:+ el_text e +:+ "|" +:+ el_placeholder e.

Module Popups.

(** The selectors [_dismiss_popups] goes through. *)
Definition selectors : list string :=
  [ "button:has-text(" +:+ Str.quoted "Accept" +:+ ")";
    "button:has-text(" +:+ Str.quoted "Accept all" +:+ ")";
    "button:has-text(" +:+ Str.quoted "Got it" +:+ ")";
    "button:has-text(" +:+ Str.quoted "OK" +:+ ")";
    "button:has-text(" +:+ Str.quoted "Close" +:+ ")";
    "button:has-text(" +:+ Str.quoted "No thanks" +:+ ")";
    "i.icon-close";
    "[aria-label=" +:+ Str.quoted "Close" +:+ "]";
    "[aria-label=" +:+ Str.quoted "Dismiss" +:+ "]" ].

(** The calls [_dismiss_popups] makes. *)
Inductive call :=
  | IsVisible (selector : string)
  | Click (selector : string)
  | Sleep (milliseconds : nat).

(** The page as [_dismiss_popups] meets it: what [is_visible] answers for
    the first element of a selector at the time it is asked (each selector
    is asked once), and whether the click that follows returns. *)
Record page := {
  is_visible : string -> outcome bool;
  click : string -> outcome unit;
}.

(** A computation: it extends the list of calls and returns or raises. *)
Definition M (A : Type) : Type := list call -> outcome A * list call.

Definition ret {A} (a : A) : M A := fun tr => (Returned a, tr).

Definition bind {A B} (m : M A) (k : A -> M B) : M B := fun tr =>
  match m tr with
  | (Returned a, tr') => k a tr'
  | (Raised e, tr') => (Raised e, tr')
  end.

(** A call and what it answers. *)
Definition emit {A} (c : call) (answer : outcome A) : M A := fun tr => (answer, tr ++ [c]).

(** [try: m  except: pass]. *)
Definition guarded (m : M unit) : M unit := fun tr =>
  match m tr with
  | (Returned a, tr') => (Returned a, tr')
  | (Raised _, tr') => (Returned tt, tr')
  end.

(** The body of the loop for one selector. *)
Definition attempt (p : page) (selector : string) : M unit :=
  guarded
    (bind (emit (IsVisible selector) (is_visible p selector)) (fun shown =>
       if shown : bool
       then bind (emit (Click selector) (click p selector)) (fun _ =>
              emit (Sleep 300) (Returned tt))
       else ret tt)).

Fixpoint each (p : page) (sels : list string) : M unit :=
  match sels with
  | [] => ret tt
  | selector :: rest => bind (attempt p selector) (fun _ => each p rest)
  end.

(** [_dismiss_popups]. *)
Definition _dismiss_popups (p : page) : M unit := each p selectors.

(** The selectors probed by a list of calls, in order. *)
Definition probes (tr : list call) : list string :=
  omap (fun c => match c with IsVisible selector => Some selector | _ => None end) tr.

End Popups.

Module KeepAlive.

(** The calls [_keep_alive] makes on the page and the browser. *)
Inductive call :=
  | Title
  | Sleep (milliseconds : nat)
  | Close.

(** What the outside answers: [within n] is the [n]-th evaluation of
    [time.time() - start < BROWSER_KEEP_ALIVE], [title_ok n] tells whether
    the [n]-th [page.title()] returns, [close_ok] whether [browser.close()]
    does. *)
Record env := {
  within : nat -> bool;
  title_ok : nat -> bool;
  close_ok : bool;
}.

(** The [while] loop from its [n]-th round on; [None] when [fuel] rounds do
    not end it. *)
Fixpoint watch (e : env) (fuel n : nat) (tr : list call) : option (list call) :=
  match fuel with
  | O => None
  | S fuel' =>
      if within e n then
        if title_ok e n then watch e fuel' (S n) (tr ++ [Title; Sleep 2000])
        else Some (tr ++ [Title])
      else Some tr
  end.

(** [_keep_alive]: the loop, then [browser.close()] in the [finally], whose
    exception is swallowed. *)
Definition _keep_alive (e : env) (fuel : nat) : option (outcome unit * list call) :=
  tr ← watch e fuel 0 []; Some (Returned tt, tr ++ [Close]).

(** [n] full rounds of the loop. *)
Fixpoint rounds (n : nat) : list call :=
  match n with
  | O => []
  | S n' => Title :: Sleep 2000 :: rounds n'
  end.

End KeepAlive.

(** ** The callers: intent detection and the trigger of the text route *)

(** [str.replace(old, new)] for a non-empty [old]: the occurrences are
    replaced from the left and do not overlap. [skip] counts the characters
    of an occurrence still to pass. *)
Fixpoint replace_go (old new : string) (skip : nat) (s : string) : string :=
  match s with
  | EmptyString => EmptyString
  | String c s' =>
      match skip with
      | S skip' => replace_go old new skip' s'
      | O =>
          if Str.startswith old s
          then new +:+ replace_go old new (String.length old - 1) s'
          else String c (replace_go old new 0 s')
      end
  end.

Definition str_replace (old new s : string) : string := replace_go old new 0 s.

Module Intent.

(** One entry of [INTENT_RULES] in [services/intent.py]. *)
Record rule := { intent : string; keywords : list string; label : string }.

Definition INTENT_RULES : list rule :=
  [ {| intent := "taxi_booking";
       keywords := ["taxi"; "cab"; "ride"; "uber"; "car"; "pickup"; "drop"];
       label := "Taxi Booking" |};
    {| intent := "tour_booking";
       keywords := ["tour"; "sightseeing"; "city tour"; "travel"; "explore"; "trip"];
       label := "Tour Booking" |};
    {| intent := "restaurant_booking";
       keywords := ["restaurant"; "food"; "dinner"; "lunch"; "breakfast"; "table"; "eat";
                    "dining"; "cuisine"];
       label := "Restaurant Booking" |};
    {| intent := "hotel_booking";
       keywords := ["hotel"; "room"; "stay"; "check-in"; "accommodation"; "suite"; "lodge";
                    "resort"; "inn"];
       label := "Hotel Booking" |};
    {| intent := "spa_booking";
       keywords := ["spa"; "massage"; "wellness"; "relaxation"; "sauna"];
       label := "Spa Booking" |} ].

(** A matched intent: the dict with its ["intent"] and its ["label"]. *)
Record matched := { m_intent : string; m_label : string }.

(** The inner loop: it leaves at the first keyword found in the text. *)
Fixpoint any_keyword (text_lower : string) (kws : list string) : bool :=
  match kws with
  | [] => false
  | kw :: rest => if Str.contains kw text_lower then true else any_keyword text_lower rest
  end.

(** The outer loop over the rules. *)
Fixpoint scan_rules (text_lower : string) (rules : list rule) (found : list matched)
  : list matched :=
  match rules with
  | [] => found
  | r :: rest =>
      scan_rules text_lower rest
        (if any_keyword text_lower (keywords r)
         then found ++ [{| m_intent := intent r; m_label := label r |}]
         else found)
  end.

(** [detect_intent] of [services/intent.py]. *)
Definition detect_intent `{Host} (text : string) : list matched :=
  match scan_rules (str_lower text) INTENT_RULES [] with
  | [] => [{| m_intent := "general_help"; m_label := "General Help" |}]
  | found => found
  end.

(** The entry a matching rule contributes, and the fallback entry. *)
Definition entry (r : rule) : matched := {| m_intent := intent r; m_label := label r |}.
Definition general_help : matched :=
  {| m_intent := "general_help"; m_label := "General Help" |}.

End Intent.

Module Route.

(** Truth value of a Python value. *)
Definition truthy (v : pyval) : bool :=
  match v with
  | PNone => false
  | PBool b => b
  | PInt z => negb (z =? 0)
  | PFloat FNan => true
  | PFloat (FInf _) => true
  | PFloat (FFinite q) => negb (Qeq_bool q 0)
  | PStr s => Str.nonempty s
  | PList l => match l with [] => false | _ => true end
  | PDict d => negb (bool_decide (d = ∅))
  end.

(** [a or b], [b] being evaluated only when [a] is false. *)
Definition por (a : pyval) (b : outcome pyval) : outcome pyval :=
  if truthy a then Returned a else b.

(** [v.replace(" Tour", "")]: only a [str] has the method. *)
Definition without_tour (v : pyval) : outcome pyval :=
  match v with
  | PStr s => Returned (PStr (str_replace " Tour" EmptyString s))
  | _ => Raised AttributeError
  end.

(** The destination the text route of [app.py] reads from the details of a
    response. *)
Definition destination_of (details : pyval) : outcome pyval :=
  d1 ← Py.get details "destination" PNone;
  por d1 (d2 ← Py.get details "restaurant" PNone;
  por d2 (d3 ← Py.get details "hotel" PNone;
  por d3 (t ← Py.get details "tour_name" (PStr EmptyString);
          d4 ← without_tour t;
          por d4 (Returned (PStr EmptyString))))).

(** One round of the loop of step 8: the arguments [trigger_automation] is
    called with, if it is called. *)
Definition automation_target (resp : pyval) : outcome (option (pyval * pyval)) :=
  intent_tag ← Py.get resp "intent" (PStr EmptyString);
  details ← Py.get resp "details" (PDict ∅);
  destination ← destination_of details;
  if (truthy destination
      && negb (Py.eq_str intent_tag "general_help" || Py.eq_str intent_tag "hotel_booking"))%bool
  then Returned (Some (intent_tag, destination))
  else Returned None.

End Route.

(** [DEFAULT_PICKUP], and [pickup or DEFAULT_PICKUP] of [trigger_automation]
    ([None] when the caller gives no pickup). *)
Definition DEFAULT_PICKUP : string := "my current location".

Definition pickup_or_default (pickup : option string) : string :=
  match pickup with
  | Some p => if Str.nonempty p then p else DEFAULT_PICKUP
  | None => DEFAULT_PICKUP
  end.

(** ** What the loop records *)

Section Recorded.
Context `{Host}.

(** The loop appends a line to its history in iteration [k]: it gets
    there, asks the engine, and the answer is a dict. *)
Definition recorded_at (goal : string) (worlds : nat -> world) (k : nat) : bool :=
  match decision_at goal worlds k with
  | Some (PDict _) => true
  | _ => false
  end.

End Recorded.

(** ** More concrete pages, providers and replies *)

Module Samples.



(** The body of a Groq answer whose message content is [content]. *)
Definition groq_body (content : string) : string :=
  "{" +:+ Str.quoted "choices" +:+ ":[{" +:+ Str.quoted "message" +:+ ":{"
      +:+ Str.quoted "content" +:+ ":" +:+ Str.quoted (Demo.escape content) +:+ "}}]}".

Definition groq_says (content : string) : string -> http_result := fun _ =>
  Response 200 (groq_body content).

(** An Ollama answer that is a JSON object without a ["response"] field. *)
Definition ollama_done_only : string -> http_result := fun _ =>
  Response 200 ("{" +:+ Str.quoted "done" +:+ ":true}").

(** An element with an id and a name. *)
Definition city_input : page_element :=
  {| el_index := 0; el_tag := "input"; el_type := "text"; el_role := EmptyString;
     el_id := "dest"; el_name := "destination"; el_placeholder := EmptyString;
     el_ariaLabel := EmptyString; el_text := EmptyString; el_value := EmptyString;
     el_desc := "INPUT[text]"; el_label := "destination" |}.

(** A browser in which clicking the element found by id raises, and nothing
    else does. *)
Definition click_fails : Exec.browser := fun op =>
  match op with
  | Exec.Click _ => false
  | _ => true
  end.



(** The provider answers the JSON number 7 at every step. *)
Definition answers_number : nat -> world := fun _ =>
  Demo.home (Demo.ollama_says "7").

End Samples.

(** * Properties *)

(** ** Strings *)

Lemma app_cons (a : ascii) (s t : string) : String a s +:+ t = String a (s +:+ t).
Proof. reflexivity. Qed.

Lemma app_empty_l (t : string) : EmptyString +:+ t = t.
Proof. reflexivity. Qed.

Lemma app_empty_r (s : string) : s +:+ EmptyString = s.
Proof. induction s as [|a s IH]; [reflexivity|]. by rewrite app_cons, IH. Qed.

Lemma app_assoc_str (s t u : string) : (s +:+ t) +:+ u = s +:+ t +:+ u.
Proof. induction s as [|a s IH]; [reflexivity|]. by rewrite !app_cons, IH. Qed.

Lemma startswith_spec (p s : string) :
  Str.startswith p s = true <-> exists post, s = p +:+ post.
Proof.
  revert s. induction p as [|a p IH]; intros s; simpl.
  - split; [intros _; by exists s | done].
  - destruct s as [|b s].
    + split; [done | intros [post Hpost]; rewrite app_cons in Hpost; done].
    + destruct (Ascii.eqb_spec a b) as [->|Hne].
      * rewrite IH. split; intros [post Hpost]; exists post.
        -- by rewrite app_cons, Hpost.
        -- rewrite app_cons in Hpost. by injection Hpost.
      * split; [done | intros [post Hpost]]. rewrite app_cons in Hpost.
        injection Hpost as Hab _. by symmetry in Hab.
Qed.

Lemma contains_spec (kw s : string) :
  Str.contains kw s = true <-> Str.occurs_in kw s.
Proof.
  split.
  - induction s as [|c s IH]; simpl.
    + destruct (Str.startswith kw EmptyString) eqn:Hp; [|done].
      intros _. apply startswith_spec in Hp as [post Hpost].
      exists EmptyString, post. by rewrite app_empty_l.
    + destruct (Str.startswith kw (String c s)) eqn:Hp.
      * intros _. apply startswith_spec in Hp as [post Hpost].
        exists EmptyString, post. by rewrite app_empty_l.
      * intros [pre [post Hs]]%IH. exists (String c pre), post.
        by rewrite app_cons, Hs.
  - intros [pre [post Hs]]. revert s Hs.
    induction pre as [|c pre IH]; intros s Hs.
    + rewrite app_empty_l in Hs.
      assert (Str.startswith kw s = true) as Hp by (apply startswith_spec; eauto).
      destruct s; simpl in *; by rewrite Hp.
    + rewrite app_cons in Hs. subst s. simpl.
      destruct (Str.startswith kw _); [done|]. by apply IH.
Qed.

(** ** Site router *)

Lemma occurs_head (x post : string) : Str.occurs_in x (x +:+ post).
Proof. by exists EmptyString, post. Qed.

Lemma occurs_app_r (x s t : string) : Str.occurs_in x t -> Str.occurs_in x (s +:+ t).
Proof.
  intros (pre & post & ->). exists (s +:+ pre), post. by rewrite app_assoc_str.
Qed.

Lemma occurs_trans (x y z : string) :
  Str.occurs_in x y -> Str.occurs_in y z -> Str.occurs_in x z.
Proof.
  intros (pre & post & ->) (pre' & post' & ->).
  exists (pre' +:+ pre), (post +:+ post'). by rewrite !app_assoc_str.
Qed.

Lemma occurs_refl (x : string) : Str.occurs_in x x.
Proof. exists EmptyString, EmptyString. by rewrite app_empty_l, app_empty_r. Qed.

(** Every part of a joined text occurs in it. *)
Lemma join_occurs (sep : string) (parts : list string) (x : string) :
  x ∈ parts -> Str.occurs_in x (Str.join sep parts).
Proof.
  induction parts as [|p rest IH]; [by intros ?%elem_of_nil|].
  intros Hx. destruct rest as [|q rest].
  - apply list_elem_of_singleton in Hx as ->. apply occurs_refl.
  - change (Str.join sep (p :: q :: rest)) with (p +:+ sep +:+ Str.join sep (q :: rest)).
    apply elem_of_cons in Hx as [->|Hx]; [apply occurs_head|].
    do 2 apply occurs_app_r. by apply IH.
Qed.

Lemma site_map_miss (intent : string) :
  intent ∉ ["taxi_booking"; "bus_booking"; "hotel_booking"; "flight_booking";
            "restaurant_booking"; "tour_booking"] ->
  SITE_MAP !! intent = None.
Proof. intros Hmiss. unfold SITE_MAP. by apply not_elem_of_list_to_map_1. Qed.

(** C9. The site router answers the fixed (url, name) pair of each of the
    six keys of [SITE_MAP]; for every other category it answers the Google
    search for the destination, whose URL contains the destination string.
    [site_for] is a total function: it has no failing case. *)
Theorem site_router_total (intent destination : string) :
  site_for "taxi_booking" destination
    = {| site_url := "https://m.uber.com/go/pickup"; site_name := "Uber" |}
  /\ site_for "bus_booking" destination
    = {| site_url := "https://www.redbus.in/"; site_name := "RedBus" |}
  /\ site_for "hotel_booking" destination
    = {| site_url := "https://www.booking.com/"; site_name := "Booking.com" |}
  /\ site_for "flight_booking" destination
    = {| site_url := "https://www.google.com/travel/flights"; site_name := "Google Flights" |}
  /\ site_for "restaurant_booking" destination
    = {| site_url := "https://www.zomato.com/"; site_name := "Zomato" |}
  /\ site_for "tour_booking" destination
    = {| site_url := "https://www.google.com/maps"; site_name := "Google Maps" |}
  /\ (intent ∉ ["taxi_booking"; "bus_booking"; "hotel_booking"; "flight_booking";
                "restaurant_booking"; "tour_booking"] ->
      site_for intent destination
        = {| site_url := "https://www.google.com/search?q=" +:+ destination +:+ "+booking";
             site_name := "Google" |}
      /\ Str.occurs_in destination (site_url (site_for intent destination))
      /\ Str.contains destination (site_url (site_for intent destination)) = true).
Proof.
  repeat split; try reflexivity.
  - unfold site_for. by rewrite site_map_miss.
  - unfold site_for. rewrite site_map_miss by done.
    by exists "https://www.google.com/search?q=", "+booking".
  - apply contains_spec. unfold site_for. rewrite site_map_miss by done.
    by exists "https://www.google.com/search?q=", "+booking".
Qed.

Lemma site_router_total_witness :
  site_for "cruise_booking" "Goa"
    = {| site_url := "https://www.google.com/search?q=Goa+booking"; site_name := "Google" |}.
Proof.
  destruct (site_router_total "cruise_booking" "Goa") as (_ & _ & _ & _ & _ & _ & Hfallback).
  apply Hfallback. intros Hin.
  repeat (apply elem_of_cons in Hin as [Hin|Hin]; [discriminate|]).
  by apply elem_of_nil in Hin.
Defined.

(** ** Extraction *)

Lemma join_nonempty (sep first : string) (rest : list string) :
  first <> EmptyString -> Str.join sep (first :: rest) <> EmptyString.
Proof.
  intros Hne. destruct first as [|c first]; [done|].
  destruct rest; simpl; [done|]. by rewrite app_cons.
Qed.

Lemma line_of_nonempty (e : page_element) : Extract.line_of e <> EmptyString.
Proof. unfold Extract.line_of. by rewrite app_cons. Qed.

(** The text is empty exactly when no element was extracted. *)
Lemma elements_text_empty (page : option document) :
  snd (_get_page_elements page) = EmptyString <-> fst (_get_page_elements page) = [].
Proof.
  unfold _get_page_elements. destruct (page ≫= Extract.page_script) as [[|e els]|]; simpl.
  - done.
  - split; [|done]. intros Htext. exfalso. revert Htext.
    apply (join_nonempty Str.nl (Extract.line_of e) (Extract.line_of <$> els)).
    apply line_of_nonempty.
  - done.
Qed.

Lemma nonempty_false (s : string) : Str.nonempty s = false <-> s = EmptyString.
Proof. by destruct s. Qed.

(** ** What the decision engine answers *)

Section EngineFacts.
Context `{Host}.

Lemma otry_returns {A} (m : outcome A) (a : A) : exists r, otry m (Returned a) = Returned r.
Proof. destruct m; simpl; eauto. Qed.

Lemma call_llm_returns (groq ollama : string -> http_result) (prompt : string) :
  exists reply, _call_llm groq ollama prompt = Returned reply.
Proof.
  unfold _call_llm.
  assert (exists g, (if Str.nonempty GROQ_API_KEY
                     then otry (groq_answer (groq prompt)) (Returned None)
                     else Returned None) = Returned g) as [g ->].
  { destruct (Str.nonempty GROQ_API_KEY); [apply otry_returns | eauto]. }
  simpl. destruct g as [content|]; [eauto|].
  destruct (otry_returns (ollama_answer (ollama prompt)) None) as [o ->].
  simpl. destruct o; eauto.
Qed.

(** The handler of the first [try] returns whatever [json.loads] does on
    the brace group. *)
Lemma parse_fallback_returns (response : string) :
  exists action,
    (e ← match Regex.search response with
         | Some group0 => otry (Some <$> loads group0) (Returned None)
         | None => Returned None
         end;
     match e with
     | Some action => Returned action
     | None => Returned parse_error_action
     end) = Returned action.
Proof.
  destruct (Regex.search response) as [group0|]; simpl; [|eauto].
  unfold loads. destruct (json_loads group0) as [v|e]; simpl; eauto.
Qed.

(** The parser returns, or lets through what [json.loads] raises on the
    whole reply when that is no [JSONDecodeError]. *)
Lemma parse_reply_outcome (response : string) :
  (exists action, parse_reply response = Returned action)
  \/ (exists e, e <> DecodeError /\ json_loads response = Raised e
                /\ parse_reply response = Raised e).
Proof.
  unfold parse_reply, loads. destruct (json_loads response) as [v|e] eqn:Hr; simpl; [eauto|].
  destruct e; try (right; eexists; split; [|split; [reflexivity|reflexivity]]; discriminate).
  left. apply parse_fallback_returns.
Qed.


(** The engine returns an action, or raises what [json.loads] raised on
    the whole reply. *)
Lemma ask_llm_action_outcome groq ollama elements_text goal page_url page_title history :
  (exists action,
      _ask_llm_action groq ollama elements_text goal page_url page_title history
      = Returned action)
  \/ (exists reply e,
        _call_llm groq ollama (Prompt.render elements_text goal page_url page_title history)
        = Returned reply
        /\ e <> DecodeError /\ json_loads reply = Raised e
        /\ _ask_llm_action groq ollama elements_text goal page_url page_title history
           = Raised e).
Proof.
  unfold _ask_llm_action.
  destruct (call_llm_returns groq ollama
              (Prompt.render elements_text goal page_url page_title history)) as [reply ->].
  simpl. destruct (parse_reply_outcome reply) as [|(e & Hne & Hr & Hp)]; [by left|].
  right. exists reply, e. done.
Qed.

End EngineFacts.

(** ** Action executor *)

Section ExecFacts.
Import Exec.

Lemma returns_try_except {A} (m handler : M A) :
  returns handler -> returns (try_except m handler).
Proof.
  intros Hh b tr. unfold try_except.
  destruct (m b tr) as [[a|e] tr']; [eauto | apply Hh].
Qed.

Lemma returns_ret {A} (a : A) : returns (ret a).
Proof. intros b tr. unfold ret. eauto. Qed.

Lemma recovery_returns : returns recovery.
Proof. apply returns_try_except, returns_ret. Qed.

Lemma eq_str_iff (v : pyval) (s : string) : Py.eq_str v s = true <-> v = PStr s.
Proof.
  destruct v; simpl; try (split; [done | discriminate]).
  rewrite bool_decide_eq_true. split; [by intros -> | by intros [= ->]].
Qed.

Lemma execute_done d elements b tr :
  kind_of d = PStr "done" ->
  _execute_action (PDict d) elements b tr = (Returned false, tr).
Proof.
  intros Hk. unfold _execute_action, bind, lift. simpl.
  fold (kind_of d). by rewrite Hk.
Qed.

Lemma execute_wait d elements b tr :
  kind_of d = PStr "wait" ->
  _execute_action (PDict d) elements b tr = (Returned true, tr ++ [Sleep 2000]).
Proof.
  intros Hk. unfold _execute_action, bind, lift. simpl.
  fold (kind_of d). by rewrite Hk.
Qed.

Lemma execute_scroll d elements b tr :
  kind_of d = PStr "scroll" ->
  _execute_action (PDict d) elements b tr
  = if b (MouseWheel 0 400)
    then (Returned true, (tr ++ [Op (MouseWheel 0 400)]) ++ [Sleep 1000])
    else (Raised PageError, tr ++ [Op (MouseWheel 0 400)]).
Proof.
  intros Hk. unfold _execute_action, bind, lift. simpl.
  fold (kind_of d). rewrite Hk. simpl. unfold perform.
  by destruct (b (MouseWheel 0 400)).
Qed.

Lemma execute_press_enter d elements b tr :
  kind_of d = PStr "press_enter" ->
  _execute_action (PDict d) elements b tr
  = if b (KeyboardPress "Enter")
    then (Returned true, (tr ++ [Op (KeyboardPress "Enter")]) ++ [Sleep 2000])
    else (Raised PageError, tr ++ [Op (KeyboardPress "Enter")]).
Proof.
  intros Hk. unfold _execute_action, bind, lift. simpl.
  fold (kind_of d). rewrite Hk. simpl. unfold perform.
  by destruct (b (KeyboardPress "Enter")).
Qed.

(** Any other kind with an integer element out of range: one sleep, no
    call to the page, and the continue signal. *)
Lemma execute_out_of_range d elements b tr (idx : Z) :
  simple_kind (kind_of d) = false ->
  element_of d = PInt idx ->
  idx < 0 \/ Z.of_nat (length elements) <= idx ->
  _execute_action (PDict d) elements b tr = (Returned true, tr ++ [Sleep 1000]).
Proof.
  intros Hk He Hrange. unfold simple_kind in Hk.
  apply orb_false_elim in Hk as [Hk Hk4]. apply orb_false_elim in Hk as [Hk Hk3].
  apply orb_false_elim in Hk as [Hk1 Hk2].
  unfold _execute_action, bind, lift. simpl. fold (kind_of d) (element_of d).
  rewrite Hk1, Hk2, Hk3, Hk4, He. simpl.
  destruct (idx <? 0) eqn:Hneg; simpl; [done|].
  apply Z.ltb_ge in Hneg.
  assert ((Z.of_nat (length elements) <=? idx) = true) as -> by lia.
  done.
Qed.

(** Any other kind with an integer element in range: whatever the page
    does, the executor returns the continue signal. *)
Lemma execute_in_range d elements b tr (idx : Z) :
  simple_kind (kind_of d) = false ->
  element_of d = PInt idx ->
  0 <= idx < Z.of_nat (length elements) ->
  exists tr', _execute_action (PDict d) elements b tr = (Returned true, tr').
Proof.
  intros Hk He Hrange. unfold simple_kind in Hk.
  apply orb_false_elim in Hk as [Hk Hk4]. apply orb_false_elim in Hk as [Hk Hk3].
  apply orb_false_elim in Hk as [Hk1 Hk2].
  unfold _execute_action, bind, lift. simpl. fold (kind_of d) (element_of d).
  rewrite Hk1, Hk2, Hk3, Hk4, He. simpl.
  assert ((idx <? 0) = false) as -> by lia. simpl.
  assert ((Z.of_nat (length elements) <=? idx) = false) as -> by lia.
  destruct (elements !! Z.to_nat idx) as [el_info|] eqn:Hel.
  2:{ apply lookup_ge_None in Hel. lia. }
  assert ((idx <? 0) = false) as -> by lia.
  match goal with
  | |- context [try_except ?m ?h b tr] =>
      destruct (returns_try_except m h recovery_returns b tr) as (u & tr' & ->)
  end.
  unfold ret. eauto.
Qed.

(** The signal of the executor on an action dictionary whose element, when
    present, is an integer: stop exactly for "done"; otherwise continue,
    unless the unguarded page call of "scroll" or "press_enter" raises. *)
Lemma execute_signal d elements b tr :
  (forall v, d !! "element" = Some v -> exists z, v = PInt z) ->
  match fst (_execute_action (PDict d) elements b tr) with
  | Returned false => kind_of d = PStr "done"
  | Returned true => kind_of d <> PStr "done"
  | Raised e =>
      e = PageError /\
      (kind_of d = PStr "scroll" /\ b (MouseWheel 0 400) = false
       \/ kind_of d = PStr "press_enter" /\ b (KeyboardPress "Enter") = false)
  end.
Proof.
  intros Hint.
  destruct (Py.eq_str (kind_of d) "done") eqn:K1.
  { apply eq_str_iff in K1. by rewrite execute_done. }
  destruct (Py.eq_str (kind_of d) "wait") eqn:K2.
  { apply eq_str_iff in K2. rewrite execute_wait by done. simpl. by rewrite K2. }
  destruct (Py.eq_str (kind_of d) "scroll") eqn:K3.
  { apply eq_str_iff in K3. rewrite execute_scroll by done.
    destruct (b (MouseWheel 0 400)) eqn:Hb; simpl; [by rewrite K3 | eauto]. }
  destruct (Py.eq_str (kind_of d) "press_enter") eqn:K4.
  { apply eq_str_iff in K4. rewrite execute_press_enter by done.
    destruct (b (KeyboardPress "Enter")) eqn:Hb; simpl; [by rewrite K4 | eauto]. }
  assert (simple_kind (kind_of d) = false) as Hk.
  { unfold simple_kind. by rewrite K1, K2, K3, K4. }
  assert (kind_of d <> PStr "done") as Hnd.
  { intros Hd. apply eq_str_iff in Hd. congruence. }
  assert (exists idx, element_of d = PInt idx) as [idx He].
  { unfold element_of. destruct (d !! "element") as [v|] eqn:Hv; simpl; [|eauto].
    destruct (Hint v eq_refl) as [z ->]. eauto. }
  destruct (decide (0 <= idx < Z.of_nat (length elements))) as [Hin|Hout].
  - destruct (execute_in_range d elements b tr idx Hk He Hin) as [tr' ->]. done.
  - rewrite (execute_out_of_range d elements b tr idx Hk He) by lia. done.
Qed.

End ExecFacts.

(** ** The control loop *)

Section LoopFacts.
Context `{Host} (goal : string) (worlds : nat -> world).

Lemma seq_snoc (a : nat) : seq 0 a ++ [a] = seq 0 (S a).
Proof. by rewrite (seq_S a 0). Qed.

Lemma state_at_S k s' :
  state_at goal worlds (S k) = Some s' <->
  exists s, state_at goal worlds k = Some s /\ loop_body goal (worlds k) k s = Continue s'.
Proof.
  simpl. split.
  - destruct (state_at goal worlds k) as [s|]; [|done].
    destruct (loop_body goal (worlds k) k s) as [s1|r s1] eqn:Hb; [|done].
    intros [= ->]. eauto.
  - intros (s & -> & ->). done.
Qed.

Lemma state_at_le k j s :
  state_at goal worlds k = Some s -> (j <= k)%nat -> is_Some (state_at goal worlds j).
Proof.
  intros Hk Hle. revert s Hk. induction Hle as [|k Hle IH]; intros s Hk; [eauto|].
  apply state_at_S in Hk as (s0 & Hk & _). eauto.
Qed.

(** The loop leaves at iteration [k] when it gets there and the body stops. *)
Lemma run_steps_stop n : forall a sa k s r s',
  state_at goal worlds a = Some sa -> (a <= k < a + n)%nat ->
  state_at goal worlds k = Some s -> loop_body goal (worlds k) k s = Stop r s' ->
  run_steps goal worlds (seq a n) (seq 0 a) sa
  = {| ended := r; visited := seq 0 (S k); final := s' |}.
Proof.
  induction n as [|n IH]; intros a sa k s r s' Ha Hk Hs Hstop; [lia|].
  cbn [seq run_steps]. destruct (decide (k = a)) as [->|Hne].
  - assert (s = sa) as -> by congruence. rewrite Hstop.
    by rewrite seq_snoc.
  - destruct (state_at_le k (S a) s Hs) as [s1 Hs1]; [lia|].
    apply state_at_S in Hs1 as Hs1'. destruct Hs1' as (s0 & Hs0 & Hcont).
    assert (s0 = sa) as -> by congruence. rewrite Hcont.
    rewrite seq_snoc. apply (IH (S a) s1 k s r s'); [done | lia | done | done].
Qed.

(** The loop runs out of steps when it gets to the end of the range. *)
Lemma run_steps_exhaust n : forall a sa s,
  state_at goal worlds a = Some sa -> state_at goal worlds (a + n) = Some s ->
  run_steps goal worlds (seq a n) (seq 0 a) sa
  = {| ended := step_budget_exhausted; visited := seq 0 (a + n); final := s |}.
Proof.
  induction n as [|n IH]; intros a sa s Ha Hs.
  - rewrite Nat.add_0_r in *. simpl. congruence.
  - cbn [seq run_steps]. destruct (state_at_le (a + S n) (S a) s Hs) as [s1 Hs1]; [lia|].
    apply state_at_S in Hs1 as Hs1'. destruct Hs1' as (s0 & Hs0 & Hcont).
    assert (s0 = sa) as -> by congruence. rewrite Hcont.
    rewrite seq_snoc. replace (a + S n)%nat with (S a + n)%nat in * by lia.
    by apply IH.
Qed.

Lemma control_loop_stop k s r s' :
  (k < MAX_LLM_STEPS)%nat -> state_at goal worlds k = Some s -> loop_body goal (worlds k) k s = Stop r s' ->
  control_loop goal worlds = {| ended := r; visited := seq 0 (S k); final := s' |}.
Proof.
  intros Hk Hs Hstop. unfold control_loop.
  apply (run_steps_stop MAX_LLM_STEPS 0 initial k s r s'); [done | lia | done | done].
Qed.

Lemma control_loop_exhaust s :
  state_at goal worlds MAX_LLM_STEPS = Some s ->
  control_loop goal worlds
  = {| ended := step_budget_exhausted; visited := seq 0 MAX_LLM_STEPS; final := s |}.
Proof.
  intros Hs. unfold control_loop.
  by apply (run_steps_exhaust MAX_LLM_STEPS 0 initial s).
Qed.

(** Either the loop_body goal (worlds stops) stops at some iteration the loop gets to, or the loop
    gets to the head of iteration [n]. *)
Lemma stops_or_reaches n :
  (exists k s r s', (k < n)%nat /\ state_at goal worlds k = Some s /\ loop_body goal (worlds k) k s = Stop r s')
  \/ is_Some (state_at goal worlds n).
Proof.
  induction n as [|n [(k & s & r & s' & Hk & Hs & Hstop)|[s Hs]]].
  - right. simpl. eauto.
  - left. exists k, s, r, s'. split; [lia | done].
  - destruct (loop_body goal (worlds n) n s) as [s1|r s1] eqn:Hb.
    + right. exists s1. apply state_at_S. eauto.
    + left. exists n, s, r, s1. split; [lia | done].
Qed.

(** The two ways a run ends. *)
Lemma control_loop_cases :
  (exists k s r s', (k < MAX_LLM_STEPS)%nat /\ state_at goal worlds k = Some s /\ loop_body goal (worlds k) k s = Stop r s'
      /\ control_loop goal worlds = {| ended := r; visited := seq 0 (S k); final := s' |})
  \/ (exists s, state_at goal worlds MAX_LLM_STEPS = Some s
      /\ control_loop goal worlds
         = {| ended := step_budget_exhausted; visited := seq 0 MAX_LLM_STEPS; final := s |}).
Proof.
  destruct (stops_or_reaches MAX_LLM_STEPS) as [(k & s & r & s' & Hk & Hs & Hstop)|[s Hs]].
  - left. exists k, s, r, s'. repeat split; try done. by apply control_loop_stop with s.
  - right. exists s. split; [done|]. by apply control_loop_exhaust.
Qed.

(** *** One iteration *)

Lemma body_skipped w k s : skipped w -> loop_body goal w k s = Continue s.
Proof.
  unfold skipped, loop_body. destruct (_get_page_elements (w_page w)) as [els txt].
  simpl. by intros ->.
Qed.

Lemma body_payment w k s : payment_seen w -> loop_body goal w k s = Stop payment_detected s.
Proof.
  unfold payment_seen, loop_body. destruct (_get_page_elements (w_page w)) as [els txt].
  simpl. intros [Htxt Hpay]. destruct txt; [done|]. simpl.
  destruct (default ("unknown", "unknown") (w_location w)) as [url title].
  by rewrite Hpay.
Qed.

(** When the engine is asked, the loop_body goal (worlds goes) goes on with its answer. *)
Lemma body_decided k s a :
  state_at goal worlds k = Some s -> decision_at goal worlds k = Some a ->
  loop_body goal (worlds k) k s = act (worlds k) k s (fst (_get_page_elements (w_page (worlds k)))) a
  /\ ~ skipped (worlds k) /\ ~ payment_seen (worlds k).
Proof.
  intros Hs. unfold decision_at. rewrite Hs.
  unfold loop_body, skipped, payment_seen.
  destruct (_get_page_elements (w_page (worlds k))) as [els txt]. simpl.
  destruct (Str.nonempty txt) eqn:Htxt; simpl; [|done].
  destruct (default ("unknown", "unknown") (w_location (worlds k))) as [url title].
  destruct (_is_payment_page url title) eqn:Hpay; [done|].
  destruct (_ask_llm_action _ _ _ _ _ _ _) as [a'|e]; [|done].
  intros [= ->]. split; [done|]. split.
  - intros ->. done.
  - intros [_ Hp]. congruence.
Qed.

(** When the engine gives no action, the step was skipped, a payment page
    was seen, or the engine was asked and raised, which ends the run. *)
Lemma body_undecided k s :
  state_at goal worlds k = Some s -> decision_at goal worlds k = None ->
  skipped (worlds k) \/ payment_seen (worlds k)
  \/ exists e, asked_at goal worlds k = Some (Raised e)
               /\ loop_body goal (worlds k) k s = Stop (automation_error e) s.
Proof.
  intros Hs. unfold decision_at, asked_at. rewrite Hs.
  unfold skipped, payment_seen, loop_body.
  destruct (_get_page_elements (w_page (worlds k))) as [els txt]. simpl.
  destruct (Str.nonempty txt) eqn:Htxt; simpl.
  2:{ intros _. left. by apply nonempty_false. }
  destruct (default ("unknown", "unknown") (w_location (worlds k))) as [url title].
  destruct (_is_payment_page url title) eqn:Hpay.
  { intros _. right. left. split; [|done]. intros ->. done. }
  destruct (_ask_llm_action _ _ _ _ _ _ _) as [a|e]; [done|].
  intros _. right. right. by exists e.
Qed.

(** An action is decided exactly when the engine is asked and returns
    it. *)
Lemma decision_at_asked_at k a :
  decision_at goal worlds k = Some a <-> asked_at goal worlds k = Some (Returned a).
Proof.
  unfold decision_at, asked_at. destruct (state_at goal worlds k) as [s|]; [|done].
  destruct (_get_page_elements (w_page (worlds k))) as [els txt].
  destruct (negb (Str.nonempty txt)); [done|].
  destruct (default ("unknown", "unknown") (w_location (worlds k))) as [url title].
  destruct (_is_payment_page url title); [done|].
  destruct (_ask_llm_action _ _ _ _ _ _ _) as [a'|e]; [|done].
  split; by intros [= ->].
Qed.

Lemma decision_at_state k a :
  decision_at goal worlds k = Some a -> is_Some (state_at goal worlds k).
Proof.
  unfold decision_at. destruct (state_at goal worlds k); [eauto | done].
Qed.

(** A decision is what the engine answered for the page of that step. *)
Lemma decision_at_asked k a :
  decision_at goal worlds k = Some a ->
  exists s, state_at goal worlds k = Some s
    /\ _ask_llm_action (w_groq (worlds k)) (w_ollama (worlds k))
         (snd (_get_page_elements (w_page (worlds k)))) goal
         (fst (default ("unknown", "unknown") (w_location (worlds k))))
         (snd (default ("unknown", "unknown") (w_location (worlds k))))
         (history s)
       = Returned a.
Proof.
  unfold decision_at. destruct (state_at goal worlds k) as [s|]; [|done].
  destruct (_get_page_elements (w_page (worlds k))) as [els txt]. simpl.
  destruct (Str.nonempty txt); simpl; [|done].
  destruct (default ("unknown", "unknown") (w_location (worlds k))) as [url title].
  destruct (_is_payment_page url title); [done|]. cbn [fst snd].
  destruct (_ask_llm_action _ _ _ _ _ _ _) as [a'|e] eqn:Hask; [|done].
  intros [= ->]. exists s. by rewrite Hask.
Qed.

(** What the engine was asked when it answered or raised. *)
Lemma asked_at_asked k r :
  asked_at goal worlds k = Some r ->
  exists s, state_at goal worlds k = Some s
    /\ _ask_llm_action (w_groq (worlds k)) (w_ollama (worlds k))
         (snd (_get_page_elements (w_page (worlds k)))) goal
         (fst (default ("unknown", "unknown") (w_location (worlds k))))
         (snd (default ("unknown", "unknown") (w_location (worlds k))))
         (history s)
       = r.
Proof.
  unfold asked_at. destruct (state_at goal worlds k) as [s|]; [|done].
  destruct (_get_page_elements (w_page (worlds k))) as [els txt]. simpl.
  destruct (Str.nonempty txt); simpl; [|done].
  destruct (default ("unknown", "unknown") (w_location (worlds k))) as [url title].
  destruct (_is_payment_page url title); [done|]. cbn [fst snd].
  intros [= <-]. by exists s.
Qed.

Lemma is_action_get (kind : string) (d : gmap string pyval) (dflt : pyval) :
  dflt <> PStr kind ->
  Py.eq_str (default dflt (d !! "action")) kind = true <-> is_action kind (PDict d).
Proof.
  intros Hd. rewrite eq_str_iff. unfold is_action. split.
  - destruct (d !! "action") as [v|] eqn:Hv; simpl; [|done]. intros ->. eauto.
  - intros (d' & [= <-] & ->). done.
Qed.

(** The second half of the body on a "wait": the counter goes up by one
    and the loop is left when it gets to three. *)
Lemma act_wait w k s els a :
  is_action "wait" a ->
  exists line,
    act w k s els a
    = (if Nat.leb 3 (S (waits s)) then Stop repeated_wait_abort else Continue)
        {| history := history s ++ [line]; waits := S (waits s) |}.
Proof.
  intros (d & -> & Hd). unfold act, history_line. simpl.
  rewrite execute_wait by (unfold Exec.kind_of; by rewrite Hd).
  rewrite Hd. simpl. destruct (waits s) as [|[|n]]; eexists; reflexivity.
Qed.

(** The second half of the body when the next iteration follows. *)
Lemma act_continue w k s els a s' :
  act w k s els a = Continue s' ->
  fst (Exec._execute_action a els (w_browser w) []) = Returned true
  /\ (is_action "wait" a /\ waits s' = S (waits s) /\ (waits s' < 3)%nat
      \/ ~ is_action "wait" a /\ waits s' = 0%nat).
Proof.
  unfold act. destruct (history_line k a) as [line|e]; [|done].
  destruct (fst (Exec._execute_action a els (w_browser w) [])) as [[|]|e]; [|done..].
  destruct a as [| | | | | |d]; try done. simpl.
  destruct (Py.eq_str (default PNone (d !! "action")) "wait") eqn:Hw.
  - apply is_action_get in Hw; [|done].
    destruct (waits s) as [|[|n]] eqn:Hws; [| |done];
      intros [= <-]; simpl; (split; [done|]); left; (split; [done|]); lia.
  - intros [= <-]. simpl. split; [done|]. right. split; [|done].
    intros Hwait. apply (is_action_get "wait" d PNone) in Hwait; [|done]. congruence.
Qed.

(** One iteration after which the loop goes on: a skipped step leaves the
    session as it is, an executed "wait" adds one to the counter, any
    other executed action sets it to zero. *)
Lemma body_continue k s s' :
  state_at goal worlds k = Some s -> loop_body goal (worlds k) k s = Continue s' ->
  skipped (worlds k) /\ s' = s
  \/ exists a, decision_at goal worlds k = Some a
       /\ executed_at worlds k a = Returned true
       /\ (is_action "wait" a /\ waits s' = S (waits s) /\ (waits s' < 3)%nat
           \/ ~ is_action "wait" a /\ waits s' = 0%nat).
Proof.
  intros Hs Hbody. destruct (decision_at goal worlds k) as [a|] eqn:Hdec.
  - right. exists a. split; [done|].
    destruct (body_decided k s a Hs Hdec) as (Hact & _). rewrite Hact in Hbody.
    by apply act_continue in Hbody.
  - left. destruct (body_undecided k s Hs Hdec) as [Hskip|[Hpay|(e & _ & Hraise)]].
    + rewrite body_skipped in Hbody by done. split; [done | congruence].
    + rewrite body_payment in Hbody by done. done.
    + congruence.
Qed.

(** A run of skipped steps leaves the session as it is. *)
Lemma skipped_range m n s :
  (m <= n)%nat -> state_at goal worlds m = Some s ->
  (forall x, (m <= x < n)%nat -> skipped (worlds x)) ->
  state_at goal worlds n = Some s.
Proof.
  intros Hle Hs. induction Hle as [|n Hle IH]; intros Hskip; [done|].
  apply state_at_S. exists s. split.
  - apply IH. intros x Hx. apply Hskip. lia.
  - apply body_skipped, Hskip. lia.
Qed.

(** At the head of an iteration the counter is at most two. *)
Lemma waits_at_most_two k s : state_at goal worlds k = Some s -> (waits s <= 2)%nat.
Proof.
  revert s. induction k as [|k IH]; intros s Hs.
  - injection Hs as <-. simpl. lia.
  - apply state_at_S in Hs as (s0 & Hs0 & Hbody).
    destruct (body_continue k s0 s Hs0 Hbody)
      as [[_ ->]|(a & _ & _ & [(_ & _ & Hlt)|(_ & ->)])]; [eauto | lia | lia].
Qed.

(** Where the counter comes from: a positive counter means a "wait" was
    executed and only skipped steps followed; a counter of two means the
    same of the executed action before it. *)
Lemma waits_history k s :
  state_at goal worlds k = Some s -> (1 <= waits s)%nat ->
  exists j, (j < k)%nat /\ wait_at goal worlds j
    /\ (forall m, (j < m < k)%nat -> skipped (worlds m))
    /\ ((2 <= waits s)%nat ->
        exists i, (i < j)%nat /\ wait_at goal worlds i
          /\ (forall m, (i < m < j)%nat -> skipped (worlds m))).
Proof.
  revert s. induction k as [|k IH]; intros s Hs Hpos.
  - injection Hs as <-. simpl in Hpos. lia.
  - apply state_at_S in Hs as (s0 & Hs0 & Hbody).
    destruct (body_continue k s0 s Hs0 Hbody)
      as [[Hskip ->]|(a & Hdec & _ & [(Hwait & Hw & _)|(_ & Hw)])].
    + destruct (IH s0 Hs0 Hpos) as (j & Hj & Hwj & Hbetween & Htwo).
      exists j. split; [lia|]. split; [done|]. split; [|done].
      intros m Hm. destruct (decide (m = k)) as [->|]; [done|]. apply Hbetween. lia.
    + exists k. split; [lia|]. split; [by exists a|]. split; [intros m Hm; lia|].
      intros Htwo. destruct (IH s0 Hs0) as (j & Hj & Hwj & Hbetween & _); [lia|].
      exists j. done.
    + lia.
Qed.

(** An executed "wait" after which the loop goes on adds one. *)
Lemma wait_counts k s a s' :
  state_at goal worlds k = Some s -> decision_at goal worlds k = Some a ->
  is_action "wait" a -> state_at goal worlds (S k) = Some s' ->
  waits s' = S (waits s).
Proof.
  intros Hs Hdec Hwait Hnext. apply state_at_S in Hnext as (s0 & Hs0 & Hbody).
  assert (s0 = s) as -> by congruence.
  destruct (body_decided k s a Hs Hdec) as (Hact & _). rewrite Hact in Hbody.
  apply act_continue in Hbody as (_ & [(_ & Hw & _)|(Hno & _)]); done.
Qed.

(** An executed "wait" with the counter at two leaves the loop. *)
Lemma wait_stops k s a :
  state_at goal worlds k = Some s -> decision_at goal worlds k = Some a ->
  is_action "wait" a -> (2 <= waits s)%nat ->
  exists s', loop_body goal (worlds k) k s = Stop repeated_wait_abort s'.
Proof.
  intros Hs Hdec Hwait Htwo.
  destruct (body_decided k s a Hs Hdec) as (-> & _).
  destruct (act_wait (worlds k) k s (fst (_get_page_elements (w_page (worlds k)))) a Hwait)
    as [line ->].
  destruct (waits s) as [|[|n]]; [lia | lia |]. simpl. eauto.
Qed.

(** A "stop" signal of the executor comes from a "done" action only. *)
Lemma act_not_done w k s els d :
  ~ is_action "done" (PDict d) ->
  (forall e, fst (Exec._execute_action (PDict d) els (w_browser w) []) <> Raised e) ->
  exists s', act w k s els (PDict d) = Continue s'
          \/ act w k s els (PDict d) = Stop repeated_wait_abort s'
             /\ (2 <= waits s)%nat /\ is_action "wait" (PDict d).
Proof.
  intros Hnd Hok. unfold act, history_line. simpl.
  destruct (fst (Exec._execute_action (PDict d) els (w_browser w) [])) as [[|]|e] eqn:Hex.
  - destruct (Py.eq_str (default PNone (d !! "action")) "wait") eqn:Hw.
    + apply is_action_get in Hw; [|done].
      destruct (waits s) as [|[|n]]; simpl; eexists; eauto.
      right. split; [done|]. split; [lia | done].
    + eauto.
  - exfalso. apply Hnd. exists d. split; [done|].
    unfold Exec._execute_action, Exec.bind, Exec.lift in Hex. simpl in Hex.
    destruct (d !! "action") as [v|] eqn:Hv; simpl in Hex.
    2:{ done. }
    destruct (Py.eq_str v "done") eqn:K1; [by apply eq_str_iff in K1 as ->|].
    exfalso. revert Hex. clear.
    destruct (Py.eq_str v "wait"); [done|].
    destruct (Py.eq_str v "scroll").
    { unfold Exec.perform. by destruct (w_browser w _). }
    destruct (Py.eq_str v "press_enter").
    { unfold Exec.perform. by destruct (w_browser w _). }
    destruct (Py.lt_int _ 0) as [[|]|]; simpl; [done | | done].
    destruct (Py.ge_int _ _) as [[|]|]; simpl; [done | | done].
    destruct (Py.index els _) as [el|]; [|done].
    match goal with
    | |- context [Exec.try_except ?m ?h ?b ?tr] =>
        destruct (returns_try_except m h recovery_returns b tr) as (u & tr' & ->)
    end.
    done.
  - by destruct (Hok e).
Qed.

End LoopFacts.

(** [_automate_with_llm] runs the loop on the routed site's goal. *)
Lemma automate_with_llm_loop `{Host} (intent destination pickup : string)
    (worlds : nat -> world) :
  _automate_with_llm intent destination pickup true worlds
  = (site_for intent destination,
     control_loop (_build_goal intent destination pickup) worlds).
Proof. reflexivity. Qed.

(** ** Termination on a payment page *)

Lemma payment_keyword_found `{Host} (url title kw : string) :
  kw ∈ payment_keywords ->
  Str.occurs_in kw (str_lower (url +:+ " " +:+ title)) ->
  _is_payment_page url title = true.
Proof.
  intros Hkw Hocc. unfold _is_payment_page. apply existsb_exists.
  exists kw. split; [by apply list_elem_of_In | by apply contains_spec].
Qed.

(** C1 (as amended). Whenever the loop gets to an iteration in which
    elements were extracted and the lower-cased [url + " " + title] read
    there contains one of the fourteen keywords of [payment_keywords] as a
    substring, the loop ends in that very iteration with reason
    payment-detected, whatever the step number below [MAX_LLM_STEPS]. *)
Theorem payment_page_stops_loop `{Host} (goal : string) (worlds : nat -> world)
    (k : nat) (s : session) (url title kw : string) :
  (k < MAX_LLM_STEPS)%nat ->
  state_at goal worlds k = Some s ->
  fst (_get_page_elements (w_page (worlds k))) <> [] ->
  w_location (worlds k) = Some (url, title) ->
  kw ∈ payment_keywords ->
  Str.occurs_in kw (str_lower (url +:+ " " +:+ title)) ->
  control_loop goal worlds
  = {| ended := payment_detected; visited := seq 0 (S k); final := s |}.
Proof.
  intros Hk Hs Hels Hloc Hkw Hocc.
  apply control_loop_stop with s; [done | done |].
  apply body_payment. split.
  - by rewrite elements_text_empty.
  - rewrite Hloc. simpl. by apply payment_keyword_found with kw.
Qed.

Lemma payment_page_stops_loop_witness :
  control_loop (H := Ref.host EmptyString) "Book a hotel"
    (fun step =>
       if bool_decide (step = 2%nat)
       then Demo.at_page "https://www.booking.com/book" "Checkout — Booking.com"
              (Demo.ollama_says (Demo.says "scroll"))
       else Demo.home (Demo.ollama_says (Demo.says "scroll")))
  = {| ended := payment_detected; visited := [0; 1; 2]%nat;
       final := {| history := ["Step 1: scroll - demo"; "Step 2: scroll - demo"];
                   waits := 0 |} |}.
Proof.
  apply (payment_page_stops_loop (H := Ref.host EmptyString) _ _ 2 _
           "https://www.booking.com/book" "Checkout — Booking.com" "checkout").
  - unfold MAX_LLM_STEPS. lia.
  - vm_compute. reflexivity.
  - vm_compute. discriminate.
  - reflexivity.
  - unfold payment_keywords. set_solver.
  - apply contains_spec. vm_compute. reflexivity.
Defined.

(** C1 (as stated) fails for "card": the code has no keyword "card", only
    "card details", "credit card" and "debit card". On a gift-card page the
    lower-cased text contains "card", yet the loop goes past step 0 and ends
    later for another reason. *)
Lemma card_alone_is_no_payment_keyword :
  let url := "https://www.zomato.com/giftcards" in
  let title := "Gift Cards" in
  let worlds := fun _ : nat => Demo.at_page url title Demo.down in
  fst (_get_page_elements (w_page (worlds 0%nat))) <> []
  /\ w_location (worlds 0%nat) = Some (url, title)
  /\ Str.contains "card" (str_lower (Host := Ref.host EmptyString) (url +:+ " " +:+ title))
     = true
  /\ _is_payment_page (H := Ref.host EmptyString) url title = false
  /\ is_Some (state_at (H := Ref.host EmptyString) "Order food" worlds 1)
  /\ ended (control_loop (H := Ref.host EmptyString) "Order food" worlds)
     = repeated_wait_abort
  /\ visited (control_loop (H := Ref.host EmptyString) "Order food" worlds) = [0; 1; 2]%nat.
Proof.
  repeat split; try (vm_compute; reflexivity); try (vm_compute; discriminate).
  vm_compute. eauto.
Qed.

(** ** The consecutive-wait counter *)

(** C4. When three "wait" actions are executed in iterations [i < j < k]
    with nothing but skipped steps between them, the loop ends in iteration
    [k] with reason repeated-wait-abort (not by exhausting its budget) and
    enters no further iteration. An executed action that is no "wait" sets
    the counter to zero, so a "wait" that follows it counts as the first. *)
Theorem consecutive_waits `{Host} (goal : string) (worlds : nat -> world) :
  (forall i j k,
      (i < j < k)%nat -> (k < MAX_LLM_STEPS)%nat ->
      wait_at goal worlds i -> wait_at goal worlds j -> wait_at goal worlds k ->
      (forall m, (i < m < k)%nat -> m <> j -> skipped (worlds m)) ->
      ended (control_loop goal worlds) = repeated_wait_abort
      /\ visited (control_loop goal worlds) = seq 0 (S k)
      /\ (iterations (control_loop goal worlds) <= MAX_LLM_STEPS)%nat)
  /\ (forall k a s',
        decision_at goal worlds k = Some a -> ~ is_action "wait" a ->
        state_at goal worlds (S k) = Some s' ->
        waits s' = 0%nat)
  /\ (forall k a s s',
        state_at goal worlds k = Some s -> waits s = 0%nat ->
        decision_at goal worlds k = Some a -> is_action "wait" a ->
        state_at goal worlds (S k) = Some s' ->
        waits s' = 1%nat).
Proof.
  split; [|split].
  - intros i j k [Hij Hjk] Hk (ai & Hdi & Hwi) (aj & Hdj & Hwj) (ak & Hdk & Hwk) Hskip.
    destruct (decision_at_state goal worlds i ai Hdi) as [si Hsi].
    destruct (decision_at_state goal worlds j aj Hdj) as [sj Hsj].
    destruct (decision_at_state goal worlds k ak Hdk) as [sk Hsk].
    destruct (state_at_le goal worlds j (S i) sj Hsj) as [si' Hsi']; [lia|].
    destruct (state_at_le goal worlds k (S j) sk Hsk) as [sj' Hsj']; [lia|].
    pose proof (wait_counts goal worlds i si ai si' Hsi Hdi Hwi Hsi') as Hci.
    pose proof (wait_counts goal worlds j sj aj sj' Hsj Hdj Hwj Hsj') as Hcj.
    assert (state_at goal worlds j = Some si') as Hj'.
    { apply skipped_range with (S i); [lia | done |].
      intros x Hx. apply Hskip; lia. }
    assert (state_at goal worlds k = Some sj') as Hk'.
    { apply skipped_range with (S j); [lia | done |].
      intros x Hx. apply Hskip; lia. }
    assert (sj = si') as -> by congruence. assert (sk = sj') as -> by congruence.
    destruct (wait_stops goal worlds k sj' ak Hsk Hdk Hwk) as [s' Hstop]; [lia|].
    rewrite (control_loop_stop goal worlds k sj' _ s' Hk Hsk Hstop).
    unfold iterations. simpl. rewrite length_seq. split; [done|]. split; [done | lia].
  - intros k a s' Hdec Hnw Hnext.
    apply state_at_S in Hnext as (s & Hs & Hbody).
    destruct (body_continue goal worlds k s s' Hs Hbody)
      as [[Hskip _]|(a' & Hdec' & _ & [(Hw & _)|(_ & Hz)])].
    + by destruct (body_decided goal worlds k s a Hs Hdec) as (_ & Hns & _).
    + congruence.
    + done.
  - intros k a s s' Hs Hzero Hdec Hw Hnext.
    rewrite (wait_counts goal worlds k s a s' Hs Hdec Hw Hnext). lia.
Qed.

Lemma consecutive_waits_witness :
  ended (control_loop (H := Ref.host EmptyString) "Book a cab"
           (Demo.script ["scroll"; "wait"; "wait"; "wait"] "scroll"))
  = repeated_wait_abort
  /\ visited (control_loop (H := Ref.host EmptyString) "Book a cab"
                (Demo.script ["scroll"; "wait"; "wait"; "wait"] "scroll"))
     = [0; 1; 2; 3]%nat
  /\ (iterations (control_loop (H := Ref.host EmptyString) "Book a cab"
                    (Demo.script ["scroll"; "wait"; "wait"; "wait"] "scroll"))
      <= MAX_LLM_STEPS)%nat.
Proof.
  destruct (consecutive_waits (H := Ref.host EmptyString) "Book a cab"
              (Demo.script ["scroll"; "wait"; "wait"; "wait"] "scroll")) as [Habort _].
  apply (Habort 1 2 3)%nat.
  - lia.
  - unfold MAX_LLM_STEPS. lia.
  - eexists. split; [vm_compute; reflexivity|]. eexists. split; reflexivity.
  - eexists. split; [vm_compute; reflexivity|]. eexists. split; reflexivity.
  - eexists. split; [vm_compute; reflexivity|]. eexists. split; reflexivity.
  - intros m Hm Hne. lia.
Defined.

(** A dictionary without an "action" key is carried out by the executor as
    a "wait" (its default), but the loop reads the key without that default:
    the counter is set to zero, not raised. *)
Remark keyless_action_resets_counter `{Host} (w : world) (k : nat) (s : session)
    (els : list page_element) (d : gmap string pyval) :
  d !! "action" = None ->
  Exec._execute_action (PDict d) els (w_browser w) [] = (Returned true, [Exec.Sleep 2000])
  /\ exists line,
       act w k s els (PDict d) = Continue {| history := history s ++ [line]; waits := 0 |}.
Proof.
  intros Hd. split.
  - apply execute_wait. unfold Exec.kind_of. by rewrite Hd.
  - unfold act, history_line. simpl.
    rewrite execute_wait by (unfold Exec.kind_of; by rewrite Hd).
    rewrite Hd. simpl. eauto.
Qed.

(** C5 (as stated) fails for the consecutive-wait counter: a "wait" brings
    it to one and the "scroll" executed next brings it back to zero, in the
    middle of a run. *)
Lemma wait_counter_is_reset_within_a_run :
  ~ (forall (H : Host) (goal : string) (worlds : nat -> world) (k : nat) (s s' : session),
        state_at goal worlds k = Some s -> state_at goal worlds (S k) = Some s' ->
        (waits s <= waits s')%nat).
Proof.
  intros Hmono.
  specialize (Hmono (Ref.host EmptyString) "Book a bus"
                (Demo.script ["wait"; "scroll"] "done") 1%nat
                Demo.after_wait Demo.after_scroll).
  assert (waits Demo.after_wait <= waits Demo.after_scroll)%nat as Hle.
  { apply Hmono; vm_compute; reflexivity. }
  simpl in Hle. lia.
Qed.

(** C5 (as amended). The iterations of a run use the step values
    0, 1, 2, ... in order, each once, and at most [MAX_LLM_STEPS] of them:
    the step counter goes up by one per iteration and is never reset. The
    consecutive-wait counter is zero when the session is created; from one
    iteration to the next it is unchanged by a skipped step, goes up by one
    with an executed "wait", and is set to zero by any other executed
    action. *)
Theorem counters_evolution `{Host} (goal : string) (worlds : nat -> world) :
  visited (control_loop goal worlds) = seq 0 (iterations (control_loop goal worlds))
  /\ (iterations (control_loop goal worlds) <= MAX_LLM_STEPS)%nat
  /\ state_at goal worlds 0 = Some initial
  /\ waits initial = 0%nat
  /\ (forall k s s',
        state_at goal worlds k = Some s -> state_at goal worlds (S k) = Some s' ->
        skipped (worlds k) /\ waits s' = waits s
        \/ wait_at goal worlds k /\ waits s' = S (waits s)
        \/ (exists a, decision_at goal worlds k = Some a /\ ~ is_action "wait" a)
           /\ waits s' = 0%nat).
Proof.
  split; [|split; [|split; [done|split; [done|]]]].
  - destruct (control_loop_cases goal worlds)
      as [(k & s & r & s' & _ & _ & _ & ->)|(s & _ & ->)];
      unfold iterations; cbn [visited]; by rewrite length_seq.
  - destruct (control_loop_cases goal worlds)
      as [(k & s & r & s' & Hk & _ & _ & ->)|(s & _ & ->)];
      unfold iterations; cbn [visited]; rewrite length_seq; lia.
  - intros k s s' Hs Hnext.
    apply state_at_S in Hnext as (s0 & Hs0 & Hbody).
    assert (s0 = s) as -> by congruence.
    destruct (body_continue goal worlds k s s' Hs Hbody)
      as [[Hskip ->]|(a & Hdec & _ & [(Hw & Hc & _)|(Hnw & Hz)])].
    + left. done.
    + right. left. split; [by exists a | done].
    + right. right. split; [by exists a | done].
Qed.

Lemma counters_evolution_witness :
  skipped (Demo.script ["wait"; "scroll"] "done" 1%nat)
    /\ waits Demo.after_scroll = waits Demo.after_wait
  \/ wait_at (H := Ref.host EmptyString) "Book a bus"
       (Demo.script ["wait"; "scroll"] "done") 1
     /\ waits Demo.after_scroll = S (waits Demo.after_wait)
  \/ (exists a, decision_at (H := Ref.host EmptyString) "Book a bus"
                  (Demo.script ["wait"; "scroll"] "done") 1 = Some a
                /\ ~ is_action "wait" a)
     /\ waits Demo.after_scroll = 0%nat.
Proof.
  destruct (counters_evolution (H := Ref.host EmptyString) "Book a bus"
              (Demo.script ["wait"; "scroll"] "done")) as (_ & _ & _ & _ & Hstep).
  apply (Hstep 1%nat Demo.after_wait Demo.after_scroll); vm_compute; reflexivity.
Defined.

(** ** Exhausting the step budget *)

(** C6 (as stated) fails in two ways. When the engine keeps answering
    "wait", no answer is "done" and no payment page is seen, yet the loop
    ends after three iterations with reason repeated-wait-abort. When the
    engine answers "scroll" and the browser window is closed, the page call
    of the executor raises and the loop ends in its first iteration. *)
Lemma non_done_answers_do_not_exhaust_budget :
  let waiting := Demo.script [] "wait" in
  let closed := fun k : nat => Demo.window_closed (Demo.script [] "scroll" k) in
  ((forall k a, decision_at (H := Ref.host EmptyString) "Book a cab" waiting k = Some a ->
                ~ is_action "done" a)
   /\ (forall k, ~ payment_seen (H := Ref.host EmptyString) (waiting k))
   /\ ended (control_loop (H := Ref.host EmptyString) "Book a cab" waiting)
      = repeated_wait_abort
   /\ iterations (control_loop (H := Ref.host EmptyString) "Book a cab" waiting) = 3%nat)
  /\ ((forall k a, decision_at (H := Ref.host EmptyString) "Book a cab" closed k = Some a ->
                   ~ is_action "done" a)
      /\ (forall k, ~ payment_seen (H := Ref.host EmptyString) (closed k))
      /\ ended (control_loop (H := Ref.host EmptyString) "Book a cab" closed)
         = automation_error PageError
      /\ iterations (control_loop (H := Ref.host EmptyString) "Book a cab" closed) = 1%nat).
Proof.
  intros waiting closed. split; (split; [|split; [|split]]).
  - intros k a Hdec (d & -> & Hd).
    apply decision_at_asked in Hdec as (s & _ & Hask).
    vm_compute in Hask. injection Hask as <-. vm_compute in Hd. discriminate.
  - intros k [_ Hpay]. vm_compute in Hpay. discriminate.
  - vm_compute. reflexivity.
  - vm_compute. reflexivity.
  - intros k a Hdec (d & -> & Hd).
    apply decision_at_asked in Hdec as (s & _ & Hask).
    vm_compute in Hask. injection Hask as <-. vm_compute in Hd. discriminate.
  - intros k [_ Hpay]. vm_compute in Hpay. discriminate.
  - vm_compute. reflexivity.
  - vm_compute. reflexivity.
Qed.

(** C6 (as amended). If in every iteration the engine is asked it returns
    an action dictionary that is not "done" and that the executor carries
    out without an exception, no payment page is seen, and no three "wait"
    actions are executed in a row, then the loop enters exactly the
    [MAX_LLM_STEPS] = 20 iterations with step 0 to 19 and ends by exhausting
    its budget. *)
Theorem budget_exhaustion `{Host} (goal : string) (worlds : nat -> world) :
  (forall k r, (k < MAX_LLM_STEPS)%nat -> asked_at goal worlds k = Some r ->
     exists a, r = Returned a
       /\ (exists d, a = PDict d) /\ ~ is_action "done" a
       /\ forall e, executed_at worlds k a <> Raised e) ->
  (forall k, (k < MAX_LLM_STEPS)%nat -> ~ payment_seen (worlds k)) ->
  (forall i j k, (i < j < k)%nat -> (k < MAX_LLM_STEPS)%nat ->
     wait_at goal worlds i -> wait_at goal worlds j -> wait_at goal worlds k ->
     (forall m, (i < m < k)%nat -> m <> j -> skipped (worlds m)) -> False) ->
  ended (control_loop goal worlds) = step_budget_exhausted
  /\ visited (control_loop goal worlds) = seq 0 MAX_LLM_STEPS
  /\ iterations (control_loop goal worlds) = 20%nat.
Proof.
  intros Hact Hnopay Hnowaits.
  assert (forall n, (n <= MAX_LLM_STEPS)%nat -> is_Some (state_at goal worlds n)) as Hreach.
  { induction n as [|n IH]; intros Hn; [simpl; eauto|].
    destruct IH as [s Hs]; [lia|].
    assert (exists s', loop_body goal (worlds n) n s = Continue s') as [s' Hs'].
    { destruct (decision_at goal worlds n) as [a|] eqn:Hdec.
      - destruct (Hact n (Returned a)) as (a' & [= <-] & (d & ->) & Hnd & Hok);
          [lia | by apply decision_at_asked_at |].
        destruct (body_decided goal worlds n s (PDict d) Hs Hdec) as (-> & _).
        destruct (act_not_done (worlds n) n s
                    (fst (_get_page_elements (w_page (worlds n)))) d Hnd Hok)
          as [s' [Hc|(Hstop & Htwo & Hw)]]; [eauto|].
        exfalso.
        destruct (waits_history goal worlds n s Hs) as (j & Hj & Hwj & Hbj & Hmore); [lia|].
        destruct (Hmore Htwo) as (i & Hi & Hwi & Hbi).
        assert (wait_at goal worlds n) as Hwn by (by exists (PDict d)).
        apply (Hnowaits i j n); [lia | lia | done | done | done |].
        intros m Hm Hne. destruct (decide (m < j)%nat); [apply Hbi | apply Hbj]; lia.
      - destruct (body_undecided goal worlds n s Hs Hdec) as [Hskip|[Hpay|(e & Hask & _)]].
        + exists s. by apply body_skipped.
        + destruct (Hnopay n); [lia | done].
        + destruct (Hact n (Raised e)) as (a & [=] & _); [lia | done]. }
    exists s'. apply state_at_S. eauto. }
  destruct (Hreach MAX_LLM_STEPS) as [s Hs]; [lia|].
  rewrite (control_loop_exhaust goal worlds s Hs). done.
Qed.

Lemma budget_exhaustion_witness :
  ended (control_loop (H := Ref.host EmptyString) "Book a cab" (Demo.script [] "scroll"))
  = step_budget_exhausted
  /\ visited (control_loop (H := Ref.host EmptyString) "Book a cab" (Demo.script [] "scroll"))
     = seq 0 MAX_LLM_STEPS
  /\ iterations (control_loop (H := Ref.host EmptyString) "Book a cab"
                   (Demo.script [] "scroll")) = 20%nat.
Proof.
  apply (budget_exhaustion (H := Ref.host EmptyString) "Book a cab" (Demo.script [] "scroll")).
  - intros k r Hk Hasked. apply asked_at_asked in Hasked as (s & _ & Hask).
    vm_compute in Hask. subst r. eexists. split; [reflexivity|].
    split; [eexists; reflexivity|].
    split; [ intros (d & [= <-] & Hd); vm_compute in Hd; discriminate
           | intros e He; vm_compute in He; discriminate ].
  - intros k _ [_ Hpay]. vm_compute in Hpay. discriminate.
  - intros i j k Hijk Hk (a & Hdec & (d & -> & Hd)) _ _ _.
    apply decision_at_asked in Hdec as (s & _ & Hask).
    vm_compute in Hask. injection Hask as <-. vm_compute in Hd. discriminate.
Defined.

(** ** Page element extractor *)

Section ExtractFacts.
Context (doc : document).

Lemma visit_scanning sel cand st :
  sel ∈ Extract.selectors -> cand ∈ querySelectorAll doc sel ->
  Extract.scanning doc (Extract.cap - 1) st ->
  match Extract.visit cand st with
  | Extract.Next st' => Extract.scanning doc (Extract.cap - 1) st'
  | Extract.Break st' => Extract.scanning doc Extract.cap st'
  | Extract.Throw => True
  end.
Proof.
  intros Hsel Hcand [Hlen Hall]. unfold Extract.visit.
  destruct (Extract.zero_area cand) eqn:Hzero; [done|].
  destruct (Extract.hidden cand) eqn:Hhid; [done|].
  destruct (bool_decide _); [done|].
  destruct (Extract.value_of cand) as [value|]; [|done].
  assert (Extract.from_visible_box doc
            (Extract.describe (length (Extract.results st)) cand value)) as Hnew.
  { exists sel, cand, value. unfold Extract.zero_area in Hzero.
    apply orb_false_elim in Hzero as [Hw Hh].
    repeat split; try done.
    - intros Heq. apply Qeq_bool_iff in Heq. congruence.
    - intros Heq. apply Qeq_bool_iff in Heq. congruence. }
  cbn [Extract.results]. rewrite length_app. cbn [length].
  destruct (Nat.leb Extract.cap (length (Extract.results st) + 1)) eqn:Hcap.
  - split; cbn [Extract.results].
    + rewrite length_app. simpl. unfold Extract.cap in *. lia.
    + apply Forall_app. split; [done|]. by apply Forall_singleton.
  - apply Nat.leb_gt in Hcap. split; cbn [Extract.results].
    + rewrite length_app. simpl. unfold Extract.cap in *. lia.
    + apply Forall_app. split; [done|]. by apply Forall_singleton.
Qed.

Lemma scan_elements_scanning sel cands st :
  sel ∈ Extract.selectors -> (forall cand, cand ∈ cands -> cand ∈ querySelectorAll doc sel) ->
  Extract.scanning doc (Extract.cap - 1) st ->
  match Extract.scan_elements cands st with
  | Extract.Next st' => Extract.scanning doc (Extract.cap - 1) st'
  | Extract.Break st' => Extract.scanning doc Extract.cap st'
  | Extract.Throw => True
  end.
Proof.
  intros Hsel. revert st. induction cands as [|cand cands IH]; intros st Hin Hst; [done|].
  simpl. pose proof (visit_scanning sel cand st Hsel) as Hvisit.
  destruct (Extract.visit cand st) as [st'|st'|].
  - apply IH; [|apply Hvisit; [|done]].
    + intros c Hc. apply Hin. by right.
    + apply Hin. by left.
  - apply Hvisit; [|done]. apply Hin. by left.
  - done.
Qed.

Lemma scan_selectors_scanning sels st found :
  (forall sel, sel ∈ sels -> sel ∈ Extract.selectors) ->
  Extract.scanning doc (Extract.cap - 1) st ->
  Extract.scan_selectors doc sels st = Some found ->
  (length found <= Extract.cap)%nat /\ Forall (Extract.from_visible_box doc) found.
Proof.
  revert st. induction sels as [|sel sels IH]; intros st Hsels [Hlen Hall];
    cbn [Extract.scan_selectors].
  - intros [= <-]. split; [lia | done].
  - pose proof (scan_elements_scanning sel (querySelectorAll doc sel) st) as Hscan.
    destruct (Extract.scan_elements (querySelectorAll doc sel) st) as [st'|st'|]; [| |done].
    + destruct Hscan as [Hlen' Hall']; [apply Hsels; by left | done | done |].
      destruct (Nat.leb Extract.cap (length (Extract.results st'))).
      * intros [= <-]. split; [lia | done].
      * apply IH; [|done]. intros s Hs. apply Hsels. by right.
    + destruct Hscan as [Hlen' Hall']; [apply Hsels; by left | done | done |].
      destruct (Nat.leb Extract.cap (length (Extract.results st'))) eqn:Hcap.
      * intros [= <-]. done.
      * apply Nat.leb_gt in Hcap. apply IH; [|split; [lia | done]].
        intros s Hs. apply Hsels. by right.
Qed.

Lemma page_script_scanning found :
  Extract.page_script doc = Some found ->
  (length found <= Extract.cap)%nat /\ Forall (Extract.from_visible_box doc) found.
Proof.
  apply scan_selectors_scanning; [done|]. split; simpl; [lia | done].
Qed.

End ExtractFacts.

(** C7. Whatever the page, the extractor returns at most 35 elements, and
    every element it returns describes a candidate of the document whose
    bounding box has a non-zero width and a non-zero height (and whose
    style does not hide it). When the script or [page.evaluate] raises, it
    returns no element at all. *)
Theorem extractor_bounded (page : option document) :
  (length (fst (_get_page_elements page)) <= 35)%nat
  /\ (forall e, e ∈ fst (_get_page_elements page) ->
        exists doc sel cand value,
          page = Some doc /\ sel ∈ Extract.selectors /\ cand ∈ querySelectorAll doc sel
          /\ ~ (rect_width cand == 0)%Q /\ ~ (rect_height cand == 0)%Q
          /\ e = Extract.describe (el_index e) cand value)
  /\ (page ≫= Extract.page_script = None -> _get_page_elements page = ([], EmptyString)).
Proof.
  unfold _get_page_elements. destruct page as [doc|]; simpl.
  2:{ split; [lia|]. split; [|done]. intros e He. by apply elem_of_nil in He. }
  destruct (Extract.page_script doc) as [found|] eqn:Hscript; simpl.
  - destruct (page_script_scanning doc found Hscript) as [Hlen Hall].
    split; [done|]. split; [|done]. intros e He.
    rewrite Forall_forall in Hall.
    destruct (Hall e He) as (sel & cand & value & Hsel & Hcand & Hw & Hh & _ & Hdesc).
    exists doc, sel, cand, value. done.
  - split; [lia|]. split; [|done]. intros e He. by apply elem_of_nil in He.
Qed.

Lemma extractor_bounded_witness :
  exists doc sel cand value,
    Some Demo.doc = Some doc /\ sel ∈ Extract.selectors /\ cand ∈ querySelectorAll doc sel
    /\ ~ (rect_width cand == 0)%Q /\ ~ (rect_height cand == 0)%Q
    /\ Extract.describe 0 Demo.button EmptyString
       = Extract.describe (el_index (Extract.describe 0 Demo.button EmptyString)) cand value.
Proof.
  destruct (extractor_bounded (Some Demo.doc)) as (_ & Hfrom & _).
  apply (Hfrom (Extract.describe 0 Demo.button EmptyString)).
  vm_compute. left.
Defined.

(** ** Signals of the action executor *)

(** C8. For a "click" or "type" action whose element index is an integer
    below zero or not below the number of extracted elements (a missing
    element counts as -1), the executor returns the continue signal, raises
    nothing, and does nothing to the page: its only effect is one sleep of
    a second. *)
Theorem out_of_range_index_continues (d : gmap string pyval)
    (elements : list page_element) (b : Exec.browser) (tr : list Exec.effect)
    (kind : string) (idx : Z) :
  d !! "action" = Some (PStr kind) ->
  kind = "click" \/ kind = "type" ->
  Exec.element_of d = PInt idx ->
  idx < 0 \/ Z.of_nat (length elements) <= idx ->
  Exec._execute_action (PDict d) elements b tr = (Returned true, tr ++ [Exec.Sleep 1000]).
Proof.
  intros Hd Hkind He Hrange.
  apply execute_out_of_range with idx; [|done|done].
  unfold Exec.kind_of, Exec.simple_kind. rewrite Hd. simpl.
  by destruct Hkind as [-> | ->].
Qed.

Lemma out_of_range_index_continues_witness :
  Exec._execute_action
    (PDict (list_to_map [("action", PStr "click"); ("element", PInt 7)]))
    (fst (_get_page_elements (Some Demo.doc))) Demo.closed []
  = (Returned true, [Exec.Sleep 1000]).
Proof.
  apply (out_of_range_index_continues
           (list_to_map [("action", PStr "click"); ("element", PInt 7)])
           (fst (_get_page_elements (Some Demo.doc))) Demo.closed [] "click" 7).
  - reflexivity.
  - by left.
  - reflexivity.
  - right. vm_compute. discriminate.
Defined.

Lemma kind_of_is (d : gmap string pyval) (kind : string) :
  kind <> "wait" ->
  Exec.kind_of d = PStr kind <-> d !! "action" = Some (PStr kind).
Proof.
  intros Hk. unfold Exec.kind_of. destruct (d !! "action") as [v|]; simpl.
  - split; [by intros -> | by intros [= ->]].
  - split; [intros [= Heq]; by symmetry in Heq | done].
Qed.

(** C10 (as stated) fails for "scroll" and for "press_enter" when the page
    call raises: the action is not "done" and has no element, yet the
    executor does not return the continue signal, it raises. *)
Lemma scroll_on_closed_page_raises :
  let scroll : gmap string pyval := {[ "action" := PStr "scroll" ]} in
  let enter : gmap string pyval := {[ "action" := PStr "press_enter" ]} in
  ((forall v, scroll !! "element" = Some v -> exists z, v = PInt z)
   /\ scroll !! "action" <> Some (PStr "done")
   /\ fst (Exec._execute_action (PDict scroll) [] Demo.closed []) = Raised PageError
   /\ fst (Exec._execute_action (PDict scroll) [] Demo.closed []) <> Returned true)
  /\ ((forall v, enter !! "element" = Some v -> exists z, v = PInt z)
      /\ enter !! "action" <> Some (PStr "done")
      /\ fst (Exec._execute_action (PDict enter) [] Demo.closed []) = Raised PageError
      /\ fst (Exec._execute_action (PDict enter) [] Demo.closed []) <> Returned true).
Proof.
  intros scroll enter. split; (split; [|split; [|split]]).
  - intros v Hv. vm_compute in Hv. discriminate.
  - vm_compute. discriminate.
  - vm_compute. reflexivity.
  - vm_compute. discriminate.
  - intros v Hv. vm_compute in Hv. discriminate.
  - vm_compute. discriminate.
  - vm_compute. reflexivity.
  - vm_compute. discriminate.
Qed.

(** C10 (as amended). For every action dictionary whose "element" field,
    when present, is an integer: the executor returns the stop signal if and
    only if the "action" field is "done"; for every other action (also an
    unknown kind, also a dictionary without "action") it returns the
    continue signal, provided the page call of a "scroll" or "press_enter"
    returns; the only exception it lets through is the one raised by that
    page call. Exceptions while acting on an element are caught. *)
Theorem executor_stops_only_on_done (d : gmap string pyval)
    (elements : list page_element) (b : Exec.browser) (tr : list Exec.effect) :
  (forall v, d !! "element" = Some v -> exists z, v = PInt z) ->
  (fst (Exec._execute_action (PDict d) elements b tr) = Returned false
   <-> d !! "action" = Some (PStr "done"))
  /\ (d !! "action" <> Some (PStr "done") ->
      (d !! "action" = Some (PStr "scroll") -> b (Exec.MouseWheel 0 400) = true) ->
      (d !! "action" = Some (PStr "press_enter") -> b (Exec.KeyboardPress "Enter") = true) ->
      fst (Exec._execute_action (PDict d) elements b tr) = Returned true)
  /\ (forall e, fst (Exec._execute_action (PDict d) elements b tr) = Raised e ->
      e = PageError
      /\ (d !! "action" = Some (PStr "scroll") /\ b (Exec.MouseWheel 0 400) = false
          \/ d !! "action" = Some (PStr "press_enter")
             /\ b (Exec.KeyboardPress "Enter") = false)).
Proof.
  intros Hint. pose proof (execute_signal d elements b tr Hint) as Hsig.
  destruct (fst (Exec._execute_action (PDict d) elements b tr)) as [[|]|e].
  - rewrite kind_of_is in Hsig by done. split; [|split].
    + split; [done | by intros Hd].
    + done.
    + by intros e [=].
  - rewrite kind_of_is in Hsig by done. split; [|split].
    + done.
    + by intros Hd.
    + by intros e [=].
  - rewrite !kind_of_is in Hsig by done. destruct Hsig as [-> Hwhy]. split; [|split].
    + split; [done|]. intros Hd. destruct Hwhy as [[Hs _]|[Hs _]]; congruence.
    + intros _ Hscroll Henter.
      destruct Hwhy as [[Hs Hb]|[Hs Hb]];
        [rewrite Hscroll in Hb by done | rewrite Henter in Hb by done]; done.
    + by intros e' [= <-].
Qed.

Lemma executor_stops_only_on_done_witness :
  fst (Exec._execute_action
         (PDict (list_to_map [("action", PStr "hover"); ("element", PInt 0)]))
         (fst (_get_page_elements (Some Demo.doc))) Demo.closed [])
  = Returned true.
Proof.
  destruct (executor_stops_only_on_done
              (list_to_map [("action", PStr "hover"); ("element", PInt 0)])
              (fst (_get_page_elements (Some Demo.doc))) Demo.closed [])
    as (_ & Hcontinue & _).
  - intros v Hv. vm_compute in Hv. injection Hv as <-. by exists 0.
  - apply Hcontinue.
    + vm_compute. discriminate.
    + intros Hs. vm_compute in Hs. discriminate.
    + intros Hs. vm_compute in Hs. discriminate.
Defined.

(** ** The provider chain *)

Section ProviderFacts.
Context `{Host}.

Lemma failed_groq_answer r : provider_failed r -> otry (groq_answer r) (Returned None) = Returned None.
Proof.
  intros [->|(status & body & -> & Hs)]; simpl; [done|].
  destruct (status =? 200) eqn:Heq; [|done]. apply Z.eqb_eq in Heq. done.
Qed.

Lemma failed_ollama_answer r :
  provider_failed r -> otry (ollama_answer r) (Returned None) = Returned None.
Proof.
  intros [->|(status & body & -> & Hs)]; simpl; [done|].
  destruct (status =? 200) eqn:Heq; [|done]. apply Z.eqb_eq in Heq. done.
Qed.

Lemma call_llm_unavailable groq ollama prompt :
  (Str.nonempty GROQ_API_KEY = true -> provider_failed (groq prompt)) ->
  provider_failed (ollama prompt) ->
  _call_llm groq ollama prompt = Returned unavailable_reply.
Proof.
  intros Hgroq Hollama. unfold _call_llm.
  destruct (Str.nonempty GROQ_API_KEY).
  - rewrite failed_groq_answer by auto. simpl. by rewrite failed_ollama_answer.
  - simpl. by rewrite failed_ollama_answer.
Qed.

End ProviderFacts.

(** C2. For every prompt: when every provider of the chain fails (Groq,
    asked only if a key is configured, and Ollama: the request raises or
    the status is not 200), the completion call raises nothing and returns
    exactly the text of the action "wait" with reason "LLM unavailable";
    the decision engine then returns that action, as soon as [json.loads]
    reads the text as what it spells. *)
Theorem all_providers_fail `{Host} (groq ollama : string -> http_result) (prompt : string) :
  (Str.nonempty GROQ_API_KEY = true -> provider_failed (groq prompt)) ->
  provider_failed (ollama prompt) ->
  _call_llm groq ollama prompt = Returned unavailable_reply
  /\ unavailable_reply
     = "{" +:+ Str.quoted "action" +:+ ": " +:+ Str.quoted "wait" +:+ ", "
           +:+ Str.quoted "reason" +:+ ": " +:+ Str.quoted "LLM unavailable" +:+ "}"
  /\ (json_loads unavailable_reply = Returned unavailable_action ->
      forall elements_text goal page_url page_title history,
        prompt = Prompt.render elements_text goal page_url page_title history ->
        _ask_llm_action groq ollama elements_text goal page_url page_title history
        = Returned unavailable_action).
Proof.
  intros Hgroq Hollama. split; [by apply call_llm_unavailable|]. split; [done|].
  intros Hloads elements_text goal page_url page_title history ->.
  unfold _ask_llm_action. rewrite call_llm_unavailable by done. simpl.
  unfold parse_reply, loads. by rewrite Hloads.
Qed.

Lemma all_providers_fail_witness :
  _ask_llm_action (H := Ref.host "gsk_demo") Demo.overloaded Demo.down
    "[0] BUTTON" "Book a cab" "https://m.uber.com/go/pickup" "Uber" []
  = Returned unavailable_action.
Proof.
  destruct (all_providers_fail (H := Ref.host "gsk_demo") Demo.overloaded Demo.down
              (Prompt.render "[0] BUTTON" "Book a cab" "https://m.uber.com/go/pickup" "Uber" []))
    as (_ & _ & Hask).
  - intros _. right. exists 503, "Service Unavailable". split; [reflexivity | discriminate].
  - by left.
  - apply Hask; [vm_compute; reflexivity | reflexivity].
Defined.

(** ** The pattern of the fallback parse *)

Section RegexFacts.

Lemma closing_not_in_empty : ~ Str.occurs_in "}" EmptyString.
Proof. intros (pre & post & Heq). by destruct pre. Qed.

Lemma closing_not_in_cons c body :
  c <> Regex.close -> ~ Str.occurs_in "}" body ->
  ~ Str.occurs_in "}" (String c body).
Proof.
  intros Hc Hbody (pre & post & Heq). destruct pre as [|p pre].
  - rewrite app_empty_l, app_cons in Heq. by injection Heq.
  - rewrite app_cons in Heq. injection Heq as _ Heq. apply Hbody. by exists pre, post.
Qed.

Lemma closing_not_in_tail c body :
  ~ Str.occurs_in "}" (String c body) ->
  c <> Regex.close /\ ~ Str.occurs_in "}" body.
Proof.
  intros Hno. split.
  - intros ->. apply Hno. by exists EmptyString, body.
  - intros (pre & post & ->). apply Hno. by exists (String c pre), post.
Qed.

Lemma until_close_intro body post :
  ~ Str.occurs_in "}" body ->
  Regex.until_close (body +:+ String Regex.close post) = Some (body +:+ "}").
Proof.
  induction body as [|c body IH]; intros Hno.
  - reflexivity.
  - apply closing_not_in_tail in Hno as [Hc Hno]. rewrite !app_cons. simpl.
    destruct (Ascii.eqb_spec c Regex.close) as [|_]; [done|].
    by rewrite IH.
Qed.

Lemma until_close_elim s m :
  Regex.until_close s = Some m ->
  exists body post,
    s = body +:+ String Regex.close post /\ ~ Str.occurs_in "}" body
    /\ m = body +:+ "}".
Proof.
  revert m. induction s as [|c s IH]; intros m; simpl; [done|].
  destruct (Ascii.eqb_spec c Regex.close) as [->|Hc].
  - intros [= <-]. exists EmptyString, s. split; [done|]. split; [|done].
    apply closing_not_in_empty.
  - destruct (Regex.until_close s) as [m'|]; [|done]. simpl. intros [= <-].
    destruct (IH m' eq_refl) as (body & post & -> & Hno & ->).
    exists (String c body), post. split; [done|]. split; [|done].
    by apply closing_not_in_cons.
Qed.

(** The anchored match succeeds exactly on a text that starts with a
    brace group, and answers that group. *)
Lemma match_here_intro m post :
  Regex.brace_group m -> Regex.match_here (m +:+ post) = Some m.
Proof.
  intros (body & -> & Hne & Hno). destruct body as [|c body]; [done|].
  apply closing_not_in_tail in Hno as [Hc Hno].
  rewrite !app_cons, app_assoc_str, app_cons, app_empty_l. simpl.
  destruct (Ascii.eqb_spec c Regex.close) as [|_]; [done|]. simpl.
  by rewrite until_close_intro.
Qed.

Lemma match_here_elim s m :
  Regex.match_here s = Some m -> exists post, s = m +:+ post /\ Regex.brace_group m.
Proof.
  unfold Regex.match_here. destruct s as [|o [|c rest]]; [done..|].
  destruct (Ascii.eqb_spec o Regex.open) as [->|]; [|done].
  destruct (Ascii.eqb_spec c Regex.close) as [|Hc]; [done|]. simpl.
  destruct (Regex.until_close rest) as [m'|] eqn:Hrest; [|done]. simpl. intros [= <-].
  apply until_close_elim in Hrest as (body & post & -> & Hno & ->).
  exists post. split.
  - rewrite !app_cons, app_assoc_str. done.
  - exists (String c body). split; [done|]. split; [done|].
    by apply closing_not_in_cons.
Qed.

Lemma same_prefix pre pre' rest rest' :
  pre +:+ rest = pre' +:+ rest' -> String.length pre = String.length pre' ->
  pre = pre' /\ rest = rest'.
Proof.
  revert pre'. induction pre as [|c pre IH]; intros [|c' pre']; simpl; try done.
  rewrite !app_cons. intros [= -> Heq] [= Hlen].
  destruct (IH pre' Heq Hlen) as [-> ->]. done.
Qed.

Lemma search_unfold s :
  Regex.search s
  = match Regex.match_here s with
    | Some m => Some m
    | None => match s with
              | EmptyString => None
              | String _ s' => Regex.search s'
              end
    end.
Proof. by destruct s. Qed.

(** A brace group anywhere makes the search succeed. *)
Lemma search_finds pre m post :
  Regex.brace_group m -> is_Some (Regex.search (pre +:+ m +:+ post)).
Proof.
  intros Hm. induction pre as [|c pre IH].
  - rewrite app_empty_l, search_unfold, match_here_intro by done. eauto.
  - rewrite app_cons, search_unfold. destruct (Regex.match_here _); eauto.
Qed.

(** The search answers the first brace group. *)
Lemma search_first r m : Regex.search r = Some m -> Regex.first_brace_group r m.
Proof.
  revert m. induction r as [|c r IH]; intros m.
  - simpl. done.
  - rewrite search_unfold. destruct (Regex.match_here (String c r)) as [m0|] eqn:Hhere.
    + intros [= <-]. apply match_here_elim in Hhere as (post & Heq & Hgroup).
      exists EmptyString, post. split; [by rewrite app_empty_l|]. split; [done|].
      intros pre' m' post' _ _. simpl. lia.
    + intros Hsearch. destruct (IH m Hsearch) as (pre & post & -> & Hgroup & Hfirst).
      exists (String c pre), post. split; [done|]. split; [done|].
      intros pre' m' post' Heq Hgroup'. destruct pre' as [|c' pre'].
      * rewrite app_empty_l in Heq. rewrite Heq in Hhere.
        by rewrite match_here_intro in Hhere.
      * rewrite !app_cons in Heq. injection Heq as _ Heq. simpl.
        apply le_n_S. by apply (Hfirst pre' m' post').
Qed.

(** The first brace group is what the search answers. *)
Lemma first_is_searched r m : Regex.first_brace_group r m -> Regex.search r = Some m.
Proof.
  intros (pre & post & Hr & Hgroup & Hfirst).
  destruct (search_finds pre m post Hgroup) as [m0 Hsearch]. rewrite <- Hr in Hsearch.
  rewrite Hsearch. f_equal.
  destruct (search_first r m0 Hsearch) as (pre0 & post0 & Hr0 & Hgroup0 & Hfirst0).
  assert (String.length pre = String.length pre0) as Hlen.
  { apply Nat.le_antisymm; [by apply (Hfirst pre0 m0 post0) | by apply (Hfirst0 pre m post)]. }
  rewrite Hr in Hr0. apply same_prefix in Hr0 as [_ Hrest]; [|done].
  pose proof (match_here_intro m post Hgroup) as H1.
  pose proof (match_here_intro m0 post0 Hgroup0) as H2.
  rewrite Hrest in H1. congruence.
Qed.

End RegexFacts.

(** ** Parsing the reply *)




(** * Further properties of the agent's code *)

(** ** Locator resolution *)

Lemma first_visible_spec (candidates : list Exec.locator) (fallback : Exec.locator)
    (b : Exec.browser) (tr : list Exec.effect) :
  (exists failed loc rest,
      candidates = failed ++ loc :: rest
      /\ Forall (fun l => b (Exec.WaitForVisible l) = false) failed
      /\ b (Exec.WaitForVisible loc) = true
      /\ Exec.first_visible candidates fallback b tr
         = (Returned loc,
            tr ++ ((fun l => Exec.Op (Exec.WaitForVisible l)) <$> (failed ++ [loc]))))
  \/ (Forall (fun l => b (Exec.WaitForVisible l) = false) candidates
      /\ Exec.first_visible candidates fallback b tr
         = (Returned fallback,
            tr ++ ((fun l => Exec.Op (Exec.WaitForVisible l)) <$> candidates))).
Proof.
  revert tr. induction candidates as [|c cs IH]; intros tr.
  - right. simpl. by rewrite app_nil_r.
  - simpl. unfold Exec.try_except, Exec.bind, Exec.perform, Exec.ret.
    destruct (b (Exec.WaitForVisible c)) eqn:Hc.
    + left. exists [], c, cs. done.
    + destruct (IH (tr ++ [Exec.Op (Exec.WaitForVisible c)]))
        as [(failed & loc & rest & -> & Hf & Hloc & ->)|[Hf ->]].
      * left. exists (c :: failed), loc, rest. split; [done|]. split; [by constructor|].
        split; [done|]. by rewrite <- app_assoc.
      * right. split; [by constructor|]. by rewrite <- app_assoc.
Qed.

(** X1. Whatever the browser does, [_build_locator] raises nothing and makes
    no call but [wait_for]: it answers the first strategy, in the order id,
    aria-label, placeholder, text, name, whose locator becomes visible,
    having waited in vain for each strategy before it; when none becomes
    visible it answers the locator by tag name. *)
Theorem build_locator_first_visible (el_info : page_element) (b : Exec.browser)
    (tr : list Exec.effect) :
  (exists failed loc rest,
      Exec.strategies el_info = failed ++ loc :: rest
      /\ Forall (fun l => b (Exec.WaitForVisible l) = false) failed
      /\ b (Exec.WaitForVisible loc) = true
      /\ Exec._build_locator el_info b tr
         = (Returned loc,
            tr ++ ((fun l => Exec.Op (Exec.WaitForVisible l)) <$> (failed ++ [loc]))))
  \/ (Forall (fun l => b (Exec.WaitForVisible l) = false) (Exec.strategies el_info)
      /\ Exec._build_locator el_info b tr
         = (Returned (Exec.Css (el_tag el_info)),
            tr ++ ((fun l => Exec.Op (Exec.WaitForVisible l)) <$> Exec.strategies el_info))).
Proof. apply first_visible_spec. Qed.

(** ** More on the page element extractor *)

(** A property of the script's state that every visit keeps holds of what
    the script returns. *)
Lemma scan_selectors_keeps (Inv : Extract.scan_state -> Prop) (doc : document) :
  (forall cand st, Inv st ->
     match Extract.visit cand st with
     | Extract.Next st' | Extract.Break st' => Inv st'
     | Extract.Throw => True
     end) ->
  forall sels st found,
    Inv st -> Extract.scan_selectors doc sels st = Some found ->
    exists st', Inv st' /\ Extract.results st' = found.
Proof.
  intros Hvisit.
  assert (forall cands st, Inv st ->
            match Extract.scan_elements cands st with
            | Extract.Next st' | Extract.Break st' => Inv st'
            | Extract.Throw => True
            end) as Hscan.
  { induction cands as [|cand cands IH]; intros st Hst; [done|].
    cbn [Extract.scan_elements]. pose proof (Hvisit cand st Hst) as Hv.
    destruct (Extract.visit cand st) as [st'|st'|]; [by apply IH | done | done]. }
  induction sels as [|sel sels IH]; intros st found Hst; cbn [Extract.scan_selectors].
  - intros [= <-]. eauto.
  - pose proof (Hscan (querySelectorAll doc sel) st Hst) as Hs.
    destruct (Extract.scan_elements (querySelectorAll doc sel) st) as [st'|st'|]; [| |done];
      (destruct (Nat.leb Extract.cap (length (Extract.results st')));
         [intros [= <-]; eauto | by apply IH]).
Qed.

Lemma elements_from_script (page : option document) (e : page_element) :
  e ∈ fst (_get_page_elements page) ->
  exists doc found, page = Some doc /\ Extract.page_script doc = Some found
                    /\ fst (_get_page_elements page) = found.
Proof.
  unfold _get_page_elements. destruct page as [doc|]; simpl.
  - destruct (Extract.page_script doc) as [found|] eqn:Hs; simpl.
    + intros _. by exists doc, found.
    + intros He. by apply elem_of_nil in He.
  - intros He. by apply elem_of_nil in He.
Qed.

Lemma take_length_le (n : nat) (s : string) : (String.length (Str.take n s) <= n)%nat.
Proof.
  revert s. induction n as [|n IH]; intros [|c s]; simpl; try lia.
  specialize (IH s). lia.
Qed.

Lemma take_take (n : nat) (s : string) : Str.take n (Str.take n s) = Str.take n s.
Proof. revert s. induction n as [|n IH]; intros [|c s]; simpl; [done..|]. by rewrite IH. Qed.

Lemma element_key_describe (i : nat) (cand : dom_element) (value : string) :
  element_key (Extract.describe i cand value) = Extract.key_of cand.
Proof.
  unfold element_key, Extract.describe, Extract.key_of. cbn [el_tag el_id el_text el_placeholder].
  unfold Extract.text_of. by rewrite take_take.
Qed.

(** X2. The elements the extractor returns are numbered by their position:
    the element at position [i] of the list carries the index [i], so the
    index the model sends back addresses that very element. *)
Theorem extracted_indices_dense (page : option document) (i : nat) (e : page_element) :
  fst (_get_page_elements page) !! i = Some e -> el_index e = i.
Proof.
  intros Hi. assert (e ∈ fst (_get_page_elements page)) as He.
  { apply list_elem_of_lookup. eauto. }
  destruct (elements_from_script page e He) as (doc & found & -> & Hscript & Hfound).
  rewrite Hfound in Hi. clear He Hfound.
  destruct (scan_selectors_keeps
              (fun st => forall j x, Extract.results st !! j = Some x -> el_index x = j) doc)
    with (sels := Extract.selectors) (st := {| Extract.results := []; Extract.seen := ∅ |})
         (found := found) as (st' & Hinv & <-); [| |done|by apply Hinv].
  - intros cand st Hst. unfold Extract.visit.
    destruct (Extract.zero_area cand); [done|]. destruct (Extract.hidden cand); [done|].
    destruct (bool_decide _); [done|].
    destruct (Extract.value_of cand) as [value|]; [|done].
    assert (forall j x,
              (Extract.results st
                 ++ [Extract.describe (length (Extract.results st)) cand value]) !! j = Some x ->
              el_index x = j) as Hnew.
    { intros j x Hj. apply lookup_app_Some in Hj as [Hj|[Hge Hj]]; [by apply Hst|].
      apply list_lookup_singleton_Some in Hj as [Hz <-]. simpl. lia. }
    destruct (Nat.leb _ _); exact Hnew.
  - intros j x Hj. done.
Qed.

Lemma extracted_indices_dense_witness :
  el_index (Extract.describe 0 Demo.button EmptyString) = 0%nat.
Proof.
  apply (extracted_indices_dense (Some Demo.doc) 0 (Extract.describe 0 Demo.button EmptyString)).
  vm_compute. reflexivity.
Defined.

(** X3. The extractor returns no two elements with the same tag, id,
    (truncated) visible text and placeholder: of candidates that agree on
    these four only the first found is kept. *)
Theorem extracted_keys_distinct (page : option document) :
  NoDup (element_key <$> fst (_get_page_elements page)).
Proof.
  unfold _get_page_elements. destruct page as [doc|]; simpl; [|constructor].
  destruct (Extract.page_script doc) as [found|] eqn:Hscript; simpl; [|constructor].
  destruct (scan_selectors_keeps
              (fun st => NoDup (element_key <$> Extract.results st)
                         /\ forall x, x ∈ Extract.results st -> element_key x ∈ Extract.seen st)
              doc)
    with (sels := Extract.selectors) (st := {| Extract.results := []; Extract.seen := ∅ |})
         (found := found) as (st' & [Hnodup _] & <-); [| |done|done].
  - intros cand st [Hnodup Hseen]. unfold Extract.visit.
    destruct (Extract.zero_area cand); [done|]. destruct (Extract.hidden cand); [done|].
    destruct (bool_decide (Extract.key_of cand ∈ Extract.seen st)) eqn:Hkey; [done|].
    apply bool_decide_eq_false in Hkey.
    destruct (Extract.value_of cand) as [value|]; [|done].
    assert (NoDup (element_key <$> Extract.results st
                     ++ [Extract.describe (length (Extract.results st)) cand value])
            /\ forall x, x ∈ Extract.results st
                           ++ [Extract.describe (length (Extract.results st)) cand value] ->
                         element_key x ∈ {[Extract.key_of cand]} ∪ Extract.seen st) as Hnew.
    { split.
      - rewrite fmap_app. apply NoDup_app. split; [done|]. split; [|apply NoDup_singleton].
        intros k Hk Hk'. simpl in Hk'. apply list_elem_of_singleton in Hk'.
        rewrite element_key_describe in Hk'. subst k.
        apply list_elem_of_fmap in Hk as (x & Hx & Hin). apply Hkey. rewrite Hx. by apply Hseen.
      - intros x Hx. apply elem_of_app in Hx as [Hx|Hx].
        + apply elem_of_union_r. by apply Hseen.
        + apply list_elem_of_singleton in Hx as ->. rewrite element_key_describe.
          apply elem_of_union_l. by apply elem_of_singleton. }
    destruct (Nat.leb _ _); exact Hnew.
  - split; [constructor|]. intros x Hx. by apply elem_of_nil in Hx.
Qed.

(** X4. No element the extractor returns comes from a candidate that the
    computed style hides (display none, visibility hidden or opacity 0), and
    the text, the value and the label it carries are cut to 50, 30 and 60
    characters. *)
Theorem extracted_visible_and_truncated (page : option document) (e : page_element) :
  e ∈ fst (_get_page_elements page) ->
  (exists doc sel cand value,
      page = Some doc /\ sel ∈ Extract.selectors /\ cand ∈ querySelectorAll doc sel
      /\ e = Extract.describe (el_index e) cand value
      /\ style_display cand <> "none"
      /\ style_visibility cand <> "hidden"
      /\ style_opacity cand <> "0")
  /\ (String.length (el_text e) <= 50)%nat
  /\ (String.length (el_value e) <= 30)%nat
  /\ (String.length (el_label e) <= 60)%nat.
Proof.
  intros He.
  destruct (elements_from_script page e He) as (doc & found & -> & Hscript & Hfound).
  rewrite Hfound in He. clear Hfound.
  destruct (page_script_scanning doc found Hscript) as [_ Hall].
  rewrite Forall_forall in Hall.
  destruct (Hall e He) as (sel & cand & value & Hsel & Hcand & _ & _ & Hhid & Hdesc).
  unfold Extract.hidden in Hhid.
  apply orb_false_elim in Hhid as [Hhid Hop]. apply orb_false_elim in Hhid as [Hdis Hvis].
  apply bool_decide_eq_false in Hdis, Hvis, Hop.
  split.
  - exists doc, sel, cand, value. done.
  - rewrite Hdesc. cbn [Extract.describe el_text el_value el_label].
    split; [|split]; apply take_length_le.
Qed.

Lemma extracted_visible_and_truncated_witness :
  (String.length (el_text (Extract.describe 0 Demo.button EmptyString)) <= 50)%nat.
Proof.
  destruct (extracted_visible_and_truncated (Some Demo.doc)
              (Extract.describe 0 Demo.button EmptyString)) as (_ & Htext & _).
  - vm_compute. left.
  - exact Htext.
Defined.





(** ** More on the provider chain *)

(** The content of a Groq answer: [resp.json()["choices"][0]["message"]["content"]]. *)
Lemma groq_answer_content `{Host} (body : string) (j : pyval) (content : string) :
  json_loads body = Returned j ->
  (choices ← Py.getitem j "choices"; first ← Py.getitem0 choices;
   message ← Py.getitem first "message"; Py.getitem message "content")
  = Returned (PStr content) ->
  groq_answer (Response 200 body) = Returned (Some (Str.py_strip content)).
Proof.
  intros Hj Hpath. unfold groq_answer, loads. rewrite Hj. simpl.
  destruct (Py.getitem j "choices") as [choices|]; [|done]. simpl in *.
  destruct (Py.getitem0 choices) as [first|]; [|done]. simpl in *.
  destruct (Py.getitem first "message") as [message|]; [|done]. simpl in *.
  by rewrite Hpath.
Qed.

(** X6. The providers are asked in a fixed order. With a key configured and
    a Groq answer of status 200 whose first choice carries a text content,
    the completion is that content stripped, whatever Ollama would answer.
    Without a key the completion does not depend on Groq at all, and when
    Groq fails it is what Ollama alone determines. *)
Theorem provider_priority `{Host} (groq ollama : string -> http_result) (prompt : string) :
  (forall body j content,
      Str.nonempty GROQ_API_KEY = true ->
      groq prompt = Response 200 body ->
      json_loads body = Returned j ->
      (choices ← Py.getitem j "choices"; first ← Py.getitem0 choices;
       message ← Py.getitem first "message"; Py.getitem message "content")
      = Returned (PStr content) ->
      forall ollama', _call_llm groq ollama' prompt = Returned (Str.py_strip content))
  /\ (Str.nonempty GROQ_API_KEY = false ->
      forall groq', _call_llm groq' ollama prompt = _call_llm groq ollama prompt)
  /\ (provider_failed (groq prompt) ->
      forall groq', provider_failed (groq' prompt) ->
                    _call_llm groq' ollama prompt = _call_llm groq ollama prompt).
Proof.
  split; [|split].
  - intros body j content Hkey Hgroq Hj Hpath ollama'. unfold _call_llm.
    rewrite Hkey, Hgroq, (groq_answer_content body j content Hj Hpath). done.
  - intros Hkey groq'. unfold _call_llm. by rewrite Hkey.
  - intros Hf groq' Hf'. unfold _call_llm.
    destruct (Str.nonempty GROQ_API_KEY); [|done].
    by rewrite !failed_groq_answer.
Qed.

Lemma provider_priority_witness :
  _call_llm (H := Ref.host "gsk_demo") (Samples.groq_says (" " +:+ Demo.says "scroll" +:+ " "))
    Demo.down "What next?"
  = Returned (Demo.says "scroll").
Proof.
  destruct (provider_priority (H := Ref.host "gsk_demo")
              (Samples.groq_says (" " +:+ Demo.says "scroll" +:+ " ")) Demo.down "What next?")
    as (Hgroq & _ & _).
  apply (Hgroq (Samples.groq_body (" " +:+ Demo.says "scroll" +:+ " "))
           (PDict {[ "choices" := PList [PDict {[ "message" :=
              PDict {[ "content" := PStr (" " +:+ Demo.says "scroll" +:+ " ") ]} ]}] ]})
           (" " +:+ Demo.says "scroll" +:+ " ")); vm_compute; reflexivity.
Defined.

(** X7. An Ollama answer of status 200 that is a JSON object without a
    "response" field does not count as a failure: with Groq out of the way
    the completion is the empty text, not the "LLM unavailable" reply, and
    the decision engine, for which the empty text is no JSON, answers the
    action "wait" with reason "Parse error". *)
Theorem ollama_without_response `{Host} (groq ollama : string -> http_result)
    (elements_text goal page_url page_title : string) (history : list string)
    (body : string) (d : gmap string pyval) :
  (Str.nonempty GROQ_API_KEY = true ->
   provider_failed (groq (Prompt.render elements_text goal page_url page_title history))) ->
  ollama (Prompt.render elements_text goal page_url page_title history) = Response 200 body ->
  json_loads body = Returned (PDict d) ->
  d !! "response" = None ->
  _call_llm groq ollama (Prompt.render elements_text goal page_url page_title history)
  = Returned EmptyString
  /\ (json_loads EmptyString = Raised DecodeError ->
      _ask_llm_action groq ollama elements_text goal page_url page_title history
      = Returned parse_error_action).
Proof.
  intros Hgroq Hollama Hbody Hd.
  assert (_call_llm groq ollama (Prompt.render elements_text goal page_url page_title history)
          = Returned EmptyString) as Hcall.
  { unfold _call_llm. rewrite Hollama. unfold ollama_answer, loads. rewrite Hbody. simpl.
    rewrite Hd. simpl.
    destruct (Str.nonempty GROQ_API_KEY); [|done].
    by rewrite failed_groq_answer by auto. }
  split; [done|]. intros Hempty. unfold _ask_llm_action. rewrite Hcall. simpl.
  unfold parse_reply, loads. by rewrite Hempty.
Qed.

Lemma ollama_without_response_witness :
  _call_llm (H := Ref.host EmptyString) Demo.down Samples.ollama_done_only
    (Prompt.render "[0] BUTTON" "Book a cab" "https://m.uber.com/go/pickup" "Uber" [])
  = Returned EmptyString
  /\ (json_loads (Host := Ref.host EmptyString) EmptyString = Raised DecodeError ->
      _ask_llm_action (H := Ref.host EmptyString) Demo.down Samples.ollama_done_only
        "[0] BUTTON" "Book a cab" "https://m.uber.com/go/pickup" "Uber" []
      = Returned parse_error_action).
Proof.
  apply (ollama_without_response (H := Ref.host EmptyString) Demo.down Samples.ollama_done_only
           "[0] BUTTON" "Book a cab" "https://m.uber.com/go/pickup" "Uber" []
           ("{" +:+ Str.quoted "done" +:+ ":true}") {[ "done" := PBool true ]}).
  - intros Hkey. vm_compute in Hkey. discriminate.
  - reflexivity.
  - vm_compute. reflexivity.
  - vm_compute. reflexivity.
Defined.

(** ** The fallback pattern and the prompt *)

(** X8. The search of the fallback parse, written as a scan of the reply,
    is the regular expression it stands for: it answers [m] exactly when [m]
    is the leftmost part of the reply made of an opening brace, one or more
    characters other than a closing brace, and a closing brace; and it
    answers nothing exactly when the reply has no such part. *)
Theorem search_is_first_brace_group (r : string) :
  (forall m, Regex.search r = Some m <-> Regex.first_brace_group r m)
  /\ (Regex.search r = None <->
      forall pre m post, r = pre +:+ m +:+ post -> ~ Regex.brace_group m).
Proof.
  split.
  - intros m. split; [apply search_first | apply first_is_searched].
  - split.
    + intros Hnone pre m post -> Hgroup.
      destruct (search_finds pre m post Hgroup) as [m0 Hm0]. congruence.
    + intros Hno. destruct (Regex.search r) as [m|] eqn:Hsearch; [|done].
      destruct (search_first r m Hsearch) as (pre & post & Hr & Hgroup & _).
      by destruct (Hno pre m post Hr).
Qed.

Lemma last5_app (old recent : list string) :
  length recent = 5%nat -> Prompt.last5 (old ++ recent) = recent.
Proof.
  intros Hlen. unfold Prompt.last5. rewrite length_app, Hlen.
  replace (length old + 5 - 5)%nat with (length old) by lia.
  apply drop_app_length.
Qed.

Lemma last5_short (history : list string) :
  (length history <= 5)%nat -> Prompt.last5 history = history.
Proof.
  intros Hlen. unfold Prompt.last5.
  by replace (length history - 5)%nat with 0%nat by lia.
Qed.

(** X9. The prompt shows the last five lines of the history, each of
    them and in their order, as the text after "Previous actions: ", and
    nothing of what came before them: two histories that end with the same
    five lines give the same prompt. *)
Theorem prompt_shows_last_five (elements_text goal page_url page_title : string)
    (old recent : list string) :
  length recent = 5%nat ->
  Str.occurs_in ("Previous actions: " +:+ Str.join Str.nl recent)
    (Prompt.render elements_text goal page_url page_title (old ++ recent))
  /\ (forall line, line ∈ recent ->
      Str.occurs_in line (Prompt.render elements_text goal page_url page_title (old ++ recent)))
  /\ Prompt.render elements_text goal page_url page_title (old ++ recent)
     = Prompt.render elements_text goal page_url page_title recent.
Proof.
  intros Hlen.
  assert (Prompt.history_text (old ++ recent) = Str.join Str.nl recent) as Htext.
  { unfold Prompt.history_text. rewrite last5_app by done.
    destruct recent as [|l recent]; [done|]. by destruct old. }
  assert (Prompt.history_text recent = Str.join Str.nl recent) as Htext'.
  { unfold Prompt.history_text. rewrite last5_short by lia. by destruct recent. }
  assert (Str.occurs_in ("Previous actions: " +:+ Str.join Str.nl recent)
            (Prompt.render elements_text goal page_url page_title (old ++ recent))) as Hshown.
  { unfold Prompt.render. apply join_occurs. rewrite Htext. set_solver. }
  split; [done|]. split.
  - intros line Hline. apply occurs_trans with ("Previous actions: " +:+ Str.join Str.nl recent);
      [|done]. apply occurs_app_r. by apply join_occurs.
  - unfold Prompt.render. by rewrite Htext, Htext'.
Qed.

Lemma prompt_shows_last_five_witness :
  Str.occurs_in
    ("Previous actions: "
       +:+ Str.join Str.nl ["Step 3: click - a"; "Step 4: click - b"; "Step 5: type - c";
                            "Step 6: wait - d"; "Step 7: scroll - e"])
    (Prompt.render "[0] BUTTON" "Book a cab" "https://m.uber.com/go/pickup" "Uber"
       (["Step 1: scroll - look"; "Step 2: wait - loading"]
          ++ ["Step 3: click - a"; "Step 4: click - b"; "Step 5: type - c"; "Step 6: wait - d";
              "Step 7: scroll - e"]))
  /\ Prompt.render "[0] BUTTON" "Book a cab" "https://m.uber.com/go/pickup" "Uber"
       (["Step 1: scroll - look"; "Step 2: wait - loading"]
          ++ ["Step 3: click - a"; "Step 4: click - b"; "Step 5: type - c"; "Step 6: wait - d";
              "Step 7: scroll - e"])
     = Prompt.render "[0] BUTTON" "Book a cab" "https://m.uber.com/go/pickup" "Uber"
         ["Step 3: click - a"; "Step 4: click - b"; "Step 5: type - c"; "Step 6: wait - d";
          "Step 7: scroll - e"].
Proof.
  destruct (prompt_shows_last_five "[0] BUTTON" "Book a cab" "https://m.uber.com/go/pickup"
              "Uber" ["Step 1: scroll - look"; "Step 2: wait - loading"]
              ["Step 3: click - a"; "Step 4: click - b"; "Step 5: type - c"; "Step 6: wait - d";
               "Step 7: scroll - e"]) as (Hshown & _ & Hsame); [reflexivity|].
  split; [exact Hshown | exact Hsame].
Defined.

(** ** The executor on an element *)

Section ExecElement.
Import Exec.

(** The executor past its range check, for an integer element in range. *)
Lemma execute_on_element d elements b tr (idx : Z) (el_info : page_element) :
  simple_kind (kind_of d) = false ->
  element_of d = PInt idx ->
  0 <= idx ->
  elements !! Z.to_nat idx = Some el_info ->
  _execute_action (PDict d) elements b tr
  = bind
      (try_except
         (bind (_build_locator el_info) (fun locator =>
            if Py.eq_str (kind_of d) "click" then
              bind (perform (Click locator)) (fun _ => sleep 2000)
            else if Py.eq_str (kind_of d) "type" then
              bind (lift (Py.get (PDict d) "text" (PStr EmptyString))) (fun text =>
              bind (perform (Click locator)) (fun _ =>
              bind (sleep 300) (fun _ =>
              bind (perform (Fill locator EmptyString)) (fun _ =>
              bind (sleep 200) (fun _ =>
              bind (perform (KeyboardType text)) (fun _ => sleep 2000))))))
            else ret tt))
         recovery)
      (fun _ => ret true) b tr.
Proof.
  intros Hk He Hpos Hel. unfold simple_kind in Hk.
  apply orb_false_elim in Hk as [Hk Hk4]. apply orb_false_elim in Hk as [Hk Hk3].
  apply orb_false_elim in Hk as [Hk1 Hk2].
  pose proof (lookup_lt_Some _ _ _ Hel) as Hlt.
  unfold _execute_action at 1. unfold bind at 1, lift at 1.
  cbn [Py.get]. fold (kind_of d). rewrite Hk1, Hk2, Hk3, Hk4.
  unfold bind at 1, lift at 1. fold (element_of d). rewrite He.
  unfold bind at 1, lift at 1. cbn [Py.lt_int].
  assert ((idx <? 0) = false) as -> by lia.
  unfold bind at 1, lift at 1. cbn [Py.ge_int].
  assert ((Z.of_nat (length elements) <=? idx) = false) as -> by lia.
  unfold bind at 1, lift at 1. unfold Py.index.
  assert ((idx <? 0) = false) as -> by lia.
  assert ((idx <? 0) = false) as -> by lia.
  rewrite Hel. reflexivity.
Qed.

Lemma click_is_not_simple d : kind_of d = PStr "click" -> simple_kind (kind_of d) = false.
Proof. by intros ->. Qed.

Lemma type_is_not_simple d : kind_of d = PStr "type" -> simple_kind (kind_of d) = false.
Proof. by intros ->. Qed.

(** X10. A "click" on an element in range: the locator is resolved, then
    clicked once. When the click returns the executor sleeps two seconds;
    when it raises, the executor presses Tab once (sleeping half a second if
    that key press returns) and does nothing else. Either way it answers
    the continue signal. *)
Theorem click_action_effects d elements b tr (idx : Z) (el_info : page_element)
    (loc : locator) (tr1 : list effect) :
  kind_of d = PStr "click" ->
  element_of d = PInt idx ->
  0 <= idx ->
  elements !! Z.to_nat idx = Some el_info ->
  _build_locator el_info b tr = (Returned loc, tr1) ->
  _execute_action (PDict d) elements b tr
  = (Returned true,
     if b (Click loc) then tr1 ++ [Op (Click loc); Sleep 2000]
     else tr1 ++ Op (Click loc) :: Op (KeyboardPress "Tab")
              :: (if b (KeyboardPress "Tab") then [Sleep 500] else [])).
Proof.
  intros Hk He Hpos Hel Hloc.
  rewrite (execute_on_element d elements b tr idx el_info) by auto using click_is_not_simple.
  rewrite Hk. unfold bind, try_except, recovery, try_except, bind, perform, sleep, ret.
  rewrite Hloc. cbn [Py.eq_str]. rewrite bool_decide_eq_true_2 by done.
  destruct (b (Click loc)).
  - by rewrite <- app_assoc.
  - destruct (b (KeyboardPress "Tab")); by rewrite <- !app_assoc.
Qed.

Lemma click_action_effects_witness :
  _execute_action
    (PDict (list_to_map [("action", PStr "click"); ("element", PInt 0)]))
    [Samples.city_input] Samples.click_fails []
  = (Returned true,
     [Op (WaitForVisible (Css "#dest")); Op (Click (Css "#dest"));
      Op (KeyboardPress "Tab"); Sleep 500]).
Proof.
  apply (click_action_effects
           (list_to_map [("action", PStr "click"); ("element", PInt 0)])
           [Samples.city_input] Samples.click_fails [] 0 Samples.city_input
           (Css "#dest") [Op (WaitForVisible (Css "#dest"))]).
  - vm_compute. reflexivity.
  - vm_compute. reflexivity.
  - lia.
  - reflexivity.
  - vm_compute. reflexivity.
Defined.

(** X11. A "type" on an element in range: the locator is resolved and
    clicked, the field is cleared, and the text of the action (the empty
    text when the action has none) is typed, in that order with sleeps of
    0.3, 0.2 and 2 seconds after them. Nothing is cleared unless the click
    returned and nothing is typed unless the clearing returned; after the
    first call that raises, the executor presses Tab once and does nothing
    else. In every case it answers the continue signal. *)
Theorem type_action_effects d elements b tr (idx : Z) (el_info : page_element)
    (loc : locator) (tr1 : list effect) :
  kind_of d = PStr "type" ->
  element_of d = PInt idx ->
  0 <= idx ->
  elements !! Z.to_nat idx = Some el_info ->
  _build_locator el_info b tr = (Returned loc, tr1) ->
  let text := default (PStr EmptyString) (d !! "text") in
  let tab := Op (KeyboardPress "Tab")
             :: (if b (KeyboardPress "Tab") then [Sleep 500] else []) in
  _execute_action (PDict d) elements b tr
  = (Returned true,
     if b (Click loc) then
       if b (Fill loc EmptyString) then
         if b (KeyboardType text) then
           tr1 ++ [Op (Click loc); Sleep 300; Op (Fill loc EmptyString); Sleep 200;
                   Op (KeyboardType text); Sleep 2000]
         else
           tr1 ++ [Op (Click loc); Sleep 300; Op (Fill loc EmptyString); Sleep 200;
                   Op (KeyboardType text)] ++ tab
       else tr1 ++ [Op (Click loc); Sleep 300; Op (Fill loc EmptyString)] ++ tab
     else tr1 ++ [Op (Click loc)] ++ tab).
Proof.
  intros Hk He Hpos Hel Hloc text tab. subst text tab.
  rewrite (execute_on_element d elements b tr idx el_info) by auto using type_is_not_simple.
  rewrite Hk. unfold bind, try_except, recovery, try_except, bind, perform, sleep, ret, lift.
  rewrite Hloc. cbn [Py.eq_str Py.get].
  rewrite bool_decide_eq_false_2 by done. rewrite bool_decide_eq_true_2 by done.
  destruct (b (Click loc)); [destruct (b (Fill loc EmptyString));
    [destruct (b (KeyboardType _))|]|];
    destruct (b (KeyboardPress "Tab")); by rewrite <- ?app_assoc.
Qed.

Lemma type_action_effects_witness :
  _execute_action
    (PDict (list_to_map [("action", PStr "type"); ("element", PInt 0); ("text", PStr "Goa")]))
    [Samples.city_input] (fun _ => true) []
  = (Returned true,
     [Op (WaitForVisible (Css "#dest")); Op (Click (Css "#dest")); Sleep 300;
      Op (Fill (Css "#dest") EmptyString); Sleep 200; Op (KeyboardType (PStr "Goa"));
      Sleep 2000]).
Proof.
  etransitivity.
  - apply (type_action_effects
             (list_to_map [("action", PStr "type"); ("element", PInt 0); ("text", PStr "Goa")])
             [Samples.city_input] (fun _ => true) [] 0 Samples.city_input
             (Css "#dest") [Op (WaitForVisible (Css "#dest"))]).
    + vm_compute. reflexivity.
    + vm_compute. reflexivity.
    + lia.
    + reflexivity.
    + vm_compute. reflexivity.
  - vm_compute. reflexivity.
Defined.

(** X12. An action of a kind the executor does not know (neither "done",
    "wait", "scroll", "press_enter", "click" nor "type"; also an "action"
    that is no string) on an element in range: the executor resolves the
    locator and does nothing with it, so that its only calls are waits for
    visibility, and answers the continue signal. *)
Theorem unknown_kind_only_resolves d elements b tr (idx : Z) (el_info : page_element) :
  simple_kind (kind_of d) = false ->
  kind_of d <> PStr "click" ->
  kind_of d <> PStr "type" ->
  element_of d = PInt idx ->
  0 <= idx ->
  elements !! Z.to_nat idx = Some el_info ->
  _execute_action (PDict d) elements b tr = (Returned true, snd (_build_locator el_info b tr))
  /\ exists waited,
       snd (_build_locator el_info b tr) = tr ++ ((fun l => Op (WaitForVisible l)) <$> waited).
Proof.
  intros Hk Hclick Htype He Hpos Hel.
  assert (exists loc waited,
            _build_locator el_info b tr
            = (Returned loc, tr ++ ((fun l => Op (WaitForVisible l)) <$> waited)))
    as (loc & waited & Hloc).
  { destruct (first_visible_spec (strategies el_info) (Css (el_tag el_info)) b tr)
      as [(failed & l & rest & _ & _ & _ & Heq)|[_ Heq]]; eauto. }
  split; [|rewrite Hloc; eauto].
  rewrite (execute_on_element d elements b tr idx el_info) by auto.
  assert (Py.eq_str (kind_of d) "click" = false) as ->.
  { apply not_true_iff_false. by rewrite eq_str_iff. }
  assert (Py.eq_str (kind_of d) "type" = false) as ->.
  { apply not_true_iff_false. by rewrite eq_str_iff. }
  unfold bind, try_except, ret. by rewrite Hloc.
Qed.

Lemma unknown_kind_only_resolves_witness :
  _execute_action
    (PDict (list_to_map [("action", PStr "hover"); ("element", PInt 0)]))
    [Samples.city_input] (fun _ => true) []
  = (Returned true, snd (_build_locator Samples.city_input (fun _ => true) []))
  /\ exists waited,
       snd (_build_locator Samples.city_input (fun _ => true) [])
       = [] ++ ((fun l => Op (WaitForVisible l)) <$> waited).
Proof.
  apply (unknown_kind_only_resolves
           (list_to_map [("action", PStr "hover"); ("element", PInt 0)])
           [Samples.city_input] (fun _ => true) [] 0 Samples.city_input).
  - vm_compute. reflexivity.
  - vm_compute. discriminate.
  - vm_compute. discriminate.
  - vm_compute. reflexivity.
  - lia.
  - reflexivity.
Defined.

(** X13. The range check and the indexing are outside the [try]: an
    "element" that is no number (null, a string, a list, an object) makes
    the comparison raise [TypeError], and so does a fractional or
    not-a-number "element" that passes the range check when the list is
    indexed with it. The executor then raises without having touched the
    page. *)
Theorem non_integer_element_raises d elements b tr :
  simple_kind (kind_of d) = false ->
  match element_of d with
  | PNone | PStr _ | PList _ | PDict _ => True
  | PFloat f =>
      Py.float_lt_int f 0 = false
      /\ Py.float_ge_int f (Z.of_nat (length elements)) = false
  | PInt _ | PBool _ => False
  end ->
  _execute_action (PDict d) elements b tr = (Raised TypeError, tr).
Proof.
  intros Hk He. unfold simple_kind in Hk.
  apply orb_false_elim in Hk as [Hk Hk4]. apply orb_false_elim in Hk as [Hk Hk3].
  apply orb_false_elim in Hk as [Hk1 Hk2].
  unfold _execute_action. unfold bind at 1, lift at 1.
  cbn [Py.get]. fold (kind_of d). rewrite Hk1, Hk2, Hk3, Hk4.
  unfold bind at 1, lift at 1. fold (element_of d).
  destruct (element_of d) as [| | |f| | |]; try done.
  destruct He as [Hlt Hge].
  unfold bind, lift. cbn [Py.lt_int Py.ge_int Py.index]. by rewrite Hlt, Hge.
Qed.

Lemma non_integer_element_raises_witness :
  _execute_action
    (PDict (list_to_map [("action", PStr "click"); ("element", PStr "0")]))
    [Samples.city_input] (fun _ => true) []
  = (Raised TypeError, []).
Proof.
  apply (non_integer_element_raises
           (list_to_map [("action", PStr "click"); ("element", PStr "0")])
           [Samples.city_input] (fun _ => true) []).
  - vm_compute. reflexivity.
  - vm_compute. exact I.
Defined.

End ExecElement.

(** ** How a run ends, and what it records *)

Section LoopEnds.
Context `{Host} (goal : string) (worlds : nat -> world).

Lemma decided_state k a :
  decision_at goal worlds k = Some a -> exists s, state_at goal worlds k = Some s.
Proof. unfold decision_at. destruct (state_at goal worlds k); [eauto | done]. Qed.

(** X14. When the engine answers a "done" action in an iteration, the run
    ends there with the done signal: the line of that action is the last
    of the history, the wait counter is left as it was, and no later step
    is entered. *)
Theorem done_decision_ends_run (k : nat) (a : pyval) :
  (k < MAX_LLM_STEPS)%nat ->
  decision_at goal worlds k = Some a ->
  is_action "done" a ->
  exists s line,
    state_at goal worlds k = Some s
    /\ history_line k a = Returned line
    /\ control_loop goal worlds
       = {| ended := done_signal; visited := seq 0 (S k);
            final := {| history := history s ++ [line]; waits := waits s |} |}.
Proof.
  intros Hk Hdec (d & -> & Hd).
  destruct (decided_state k _ Hdec) as [s Hs].
  destruct (body_decided goal worlds k s _ Hs Hdec) as (Hbody & _).
  exists s. eexists. split; [done|]. split; [reflexivity|].
  apply (control_loop_stop goal worlds k s); [done..|].
  rewrite Hbody. unfold act. cbn [history_line Py.get mbind outcome_bind].
  rewrite execute_done by (unfold Exec.kind_of; by rewrite Hd). done.
Qed.

(** X15. A decision the loop cannot carry out ends the whole run with the
    exception, at that step. A decision that is no dict (a reply that is
    valid JSON but not an object) raises [AttributeError] before anything is
    recorded. For a dict, an exception of the executor ends the run after
    the line of the action was appended to the history. *)
Theorem failing_decision_aborts_run (k : nat) (a : pyval) :
  (k < MAX_LLM_STEPS)%nat ->
  decision_at goal worlds k = Some a ->
  exists s,
    state_at goal worlds k = Some s
    /\ ((forall d, a <> PDict d) ->
        control_loop goal worlds
        = {| ended := automation_error AttributeError; visited := seq 0 (S k); final := s |})
    /\ (forall d e, a = PDict d -> executed_at worlds k a = Raised e ->
        exists line,
          history_line k a = Returned line
          /\ control_loop goal worlds
             = {| ended := automation_error e; visited := seq 0 (S k);
                  final := {| history := history s ++ [line]; waits := waits s |} |}).
Proof.
  intros Hk Hdec.
  destruct (decided_state k _ Hdec) as [s Hs].
  destruct (body_decided goal worlds k s _ Hs Hdec) as (Hbody & _).
  exists s. split; [done|]. split.
  - intros Hnd. apply (control_loop_stop goal worlds k s); [done..|].
    rewrite Hbody. unfold act, history_line. by destruct a as [| | | | | |d]; [..|destruct (Hnd d)].
  - intros d e -> Hex. eexists. split; [reflexivity|].
    apply (control_loop_stop goal worlds k s); [done..|].
    rewrite Hbody. unfold act. cbn [history_line Py.get mbind outcome_bind].
    unfold executed_at in Hex. by rewrite Hex.
Qed.

(** The history after one iteration, however it ends. *)
Lemma body_history k s s' :
  state_at goal worlds k = Some s ->
  (loop_body goal (worlds k) k s = Continue s'
   \/ exists r, loop_body goal (worlds k) k s = Stop r s') ->
  length (history s')
  = (length (history s) + (if recorded_at goal worlds k then 1 else 0))%nat.
Proof.
  intros Hs. unfold recorded_at. destruct (decision_at goal worlds k) as [a|] eqn:Hdec.
  - destruct (body_decided goal worlds k s a Hs Hdec) as (-> & _).
    unfold act. destruct a as [| | | | | |d];
      try (cbn [history_line Py.get mbind outcome_bind];
           intros [|[r]]; [done | injection H0 as _ <-; lia]).
    cbn [history_line Py.get mbind outcome_bind].
    destruct (fst (Exec._execute_action _ _ _ _)) as [[|]|e].
    + destruct (Py.eq_str _ "wait").
      * destruct (waits s) as [|[|n]]; simpl;
          (intros [[= <-]|[r [= _ <-]]]; simpl; rewrite length_app; simpl; lia).
      * intros [[= <-]|[r [= _ <-]]]; simpl; rewrite length_app; simpl; lia.
    + intros [[= <-]|[r [= _ <-]]]; simpl; rewrite length_app; simpl; lia.
    + intros [[= <-]|[r [= _ <-]]]; simpl; rewrite length_app; simpl; lia.
  - destruct (body_undecided goal worlds k s Hs Hdec) as [Hskip|[Hpay|(e & _ & Hraise)]].
    + rewrite body_skipped by done. intros [[= <-]|[r [=]]]. lia.
    + rewrite body_payment by done. intros [[=]|[r [= _ <-]]]. lia.
    + rewrite Hraise. intros [[=]|[r [= _ <-]]]. lia.
Qed.

Lemma state_history k s :
  state_at goal worlds k = Some s ->
  length (history s) = length (List.filter (recorded_at goal worlds) (seq 0 k)).
Proof.
  revert s. induction k as [|k IH]; intros s.
  - intros [= <-]. done.
  - intros (s0 & Hs0 & Hbody)%state_at_S.
    rewrite <- seq_snoc, List.filter_app, length_app, <- (IH s0 Hs0).
    rewrite (body_history k s0 s Hs0) by eauto.
    cbn [List.filter]. by destruct (recorded_at goal worlds k).
Qed.

(** X16. The history of a run has one line for each iteration in which the
    engine was asked and answered a dict, and no other line: skipped steps,
    a step that sees the payment page and a step whose answer is no dict
    leave no line. So the history is never longer than the number of
    iterations entered. *)
Theorem history_counts_decisions :
  length (history (final (control_loop goal worlds)))
  = length (List.filter (recorded_at goal worlds) (visited (control_loop goal worlds)))
  /\ (length (history (final (control_loop goal worlds)))
      <= iterations (control_loop goal worlds))%nat.
Proof.
  assert (length (history (final (control_loop goal worlds)))
          = length (List.filter (recorded_at goal worlds)
                      (visited (control_loop goal worlds)))) as Heq.
  { destruct (control_loop_cases goal worlds)
      as [(k & s & r & s' & Hk & Hs & Hbody & ->)|(s & Hs & ->)]; cbn [final visited].
    - rewrite <- seq_snoc, List.filter_app, length_app, <- (state_history k s Hs).
      rewrite (body_history k s s' Hs) by eauto.
      cbn [List.filter]. by destruct (recorded_at goal worlds k).
    - by apply state_history. }
  split; [done|]. rewrite Heq. unfold iterations. apply List.filter_length_le.
Qed.

End LoopEnds.

Lemma done_decision_ends_run_witness :
  exists s line,
    state_at (H := Ref.host EmptyString) "Book a hotel" (Demo.script ["scroll"] "done") 1 = Some s
    /\ history_line (H := Ref.host EmptyString) 1
         (PDict (list_to_map [("action", PStr "done"); ("reason", PStr "demo")]))
       = Returned line
    /\ control_loop (H := Ref.host EmptyString) "Book a hotel" (Demo.script ["scroll"] "done")
       = {| ended := done_signal; visited := seq 0 2;
            final := {| history := history s ++ [line]; waits := waits s |} |}.
Proof.
  apply (done_decision_ends_run (H := Ref.host EmptyString) "Book a hotel"
           (Demo.script ["scroll"] "done") 1
           (PDict (list_to_map [("action", PStr "done"); ("reason", PStr "demo")]))).
  - unfold MAX_LLM_STEPS. lia.
  - vm_compute. reflexivity.
  - eexists. split; [reflexivity|]. vm_compute. reflexivity.
Defined.

Lemma failing_decision_aborts_run_witness :
  exists s,
    state_at (H := Ref.host EmptyString) "Book a hotel" Samples.answers_number 0 = Some s
    /\ ((forall d, PInt 7 <> PDict d) ->
        control_loop (H := Ref.host EmptyString) "Book a hotel" Samples.answers_number
        = {| ended := automation_error AttributeError; visited := seq 0 1; final := s |})
    /\ (forall d e, PInt 7 = PDict d ->
        executed_at Samples.answers_number 0 (PInt 7) = Raised e ->
        exists line,
          history_line (H := Ref.host EmptyString) 0 (PInt 7) = Returned line
          /\ control_loop (H := Ref.host EmptyString) "Book a hotel" Samples.answers_number
             = {| ended := automation_error e; visited := seq 0 1;
                  final := {| history := history s ++ [line]; waits := waits s |} |}).
Proof.
  apply (failing_decision_aborts_run (H := Ref.host EmptyString) "Book a hotel"
           Samples.answers_number 0 (PInt 7)).
  - unfold MAX_LLM_STEPS. lia.
  - vm_compute. reflexivity.
Defined.

(** ** The goal and the payment heuristic *)

Lemma pickup_or_default_nonempty (pickup : option string) :
  Str.nonempty (pickup_or_default pickup) = true.
Proof. by destruct pickup as [[|c p]|]. Qed.

(** X17. The goal handed to the engine names the destination, whatever the
    intent. The goals of a hotel, a restaurant and a tour booking do not
    depend on the pickup; the goal of every other intent (also of an intent
    without an entry) names the pickup, which [trigger_automation] has made
    non-empty: it is "my current location" when the caller gave none or an
    empty one, and the caller's otherwise. *)
Theorem goal_names_destination_and_pickup (intent destination : string) :
  (forall pickup, Str.occurs_in destination (_build_goal intent destination pickup))
  /\ (intent = "hotel_booking" \/ intent = "restaurant_booking" \/ intent = "tour_booking" ->
      forall pickup pickup',
        _build_goal intent destination pickup = _build_goal intent destination pickup')
  /\ (intent <> "hotel_booking" -> intent <> "restaurant_booking" ->
      intent <> "tour_booking" ->
      forall given : option string,
        Str.occurs_in (pickup_or_default given)
          (_build_goal intent destination (pickup_or_default given))
        /\ Str.nonempty (pickup_or_default given) = true
        /\ (given = None \/ given = Some EmptyString ->
            pickup_or_default given = "my current location")
        /\ (forall p, given = Some p -> p <> EmptyString -> pickup_or_default given = p)).
Proof.
  split; [|split].
  - intros pickup. unfold _build_goal. cbv zeta.
    match goal with |- context [default _ (?m !! intent)] =>
      destruct (m !! intent) as [g|] eqn:Hg end; simpl.
    + apply elem_of_list_to_map_2 in Hg.
      repeat (apply elem_of_cons in Hg as [[= _ ->]|Hg]);
        [repeat first [apply occurs_head | apply occurs_app_r]..|].
      by apply elem_of_nil in Hg.
    + repeat first [apply occurs_head | apply occurs_app_r].
  - intros [->|[->| ->]] pickup pickup'; vm_compute; reflexivity.
  - intros Hh Hr Ht given. split; [|split; [|split]].
    + generalize (pickup_or_default given). intros pickup.
      unfold _build_goal. cbv zeta.
      match goal with |- context [default _ (?m !! intent)] =>
        destruct (m !! intent) as [g|] eqn:Hg end; simpl.
      * apply elem_of_list_to_map_2 in Hg.
        repeat (apply elem_of_cons in Hg as [[= Hi ->]|Hg]); try done;
          [repeat first [apply occurs_head | apply occurs_app_r]..|].
        by apply elem_of_nil in Hg.
      * repeat first [apply occurs_head | apply occurs_app_r].
    + apply pickup_or_default_nonempty.
    + by intros [->| ->].
    + intros p -> Hp. by destruct p.
Qed.

Lemma lower_app (s t : string) : Str.lower (s +:+ t) = Str.lower s +:+ Str.lower t.
Proof.
  unfold Str.lower. induction s as [|c s IH]; [done|].
  rewrite app_cons. cbn [Str.map]. by rewrite IH, app_cons.
Qed.

Lemma lower_upper_char (c : ascii) : Str.lower_char (Str.upper_char c) = Str.lower_char c.
Proof. destruct c as [[] [] [] [] [] [] [] []]; reflexivity. Qed.

Lemma lower_upper (s : string) : Str.lower (Str.upper s) = Str.lower s.
Proof.
  unfold Str.lower, Str.upper. induction s as [|c s IH]; [done|].
  cbn [Str.map]. by rewrite lower_upper_char, IH.
Qed.

Lemma lower_lower_char (c : ascii) : Str.lower_char (Str.lower_char c) = Str.lower_char c.
Proof. destruct c as [[] [] [] [] [] [] [] []]; reflexivity. Qed.

Lemma lower_lower (s : string) : Str.lower (Str.lower s) = Str.lower s.
Proof.
  unfold Str.lower. induction s as [|c s IH]; [done|].
  cbn [Str.map]. by rewrite lower_lower_char, IH.
Qed.

Lemma is_ascii_app (s t : string) :
  Str.is_ascii (s +:+ t) = (Str.is_ascii s && Str.is_ascii t)%bool.
Proof.
  induction s as [|c s IH]; [done|].
  rewrite app_cons. cbn [Str.is_ascii]. by rewrite IH, andb_assoc.
Qed.

Lemma is_ascii_upper_char (c : ascii) :
  Nat.ltb (nat_of_ascii c) 128 = true -> Nat.ltb (nat_of_ascii (Str.upper_char c)) 128 = true.
Proof.
  destruct c as [[] [] [] [] [] [] [] []]; vm_compute; intros; first [reflexivity | discriminate].
Qed.

Lemma is_ascii_lower_char (c : ascii) :
  Nat.ltb (nat_of_ascii c) 128 = true -> Nat.ltb (nat_of_ascii (Str.lower_char c)) 128 = true.
Proof.
  destruct c as [[] [] [] [] [] [] [] []]; vm_compute; intros; first [reflexivity | discriminate].
Qed.

Lemma is_ascii_upper (s : string) : Str.is_ascii s = true -> Str.is_ascii (Str.upper s) = true.
Proof.
  unfold Str.upper. induction s as [|c s IH]; [done|]. cbn [Str.is_ascii Str.map].
  intros [Hc Hs]%andb_true_iff. by rewrite is_ascii_upper_char, IH.
Qed.

Lemma is_ascii_lower (s : string) : Str.is_ascii s = true -> Str.is_ascii (Str.lower s) = true.
Proof.
  unfold Str.lower. induction s as [|c s IH]; [done|]. cbn [Str.is_ascii Str.map].
  intros [Hc Hs]%andb_true_iff. by rewrite is_ascii_lower_char, IH.
Qed.

(** X18. On ASCII text, where [str.lower()] is the mapping of the ASCII
    letters, the verdict of the payment heuristic does not depend on the
    case of the letters of the URL and the title: two pages whose URLs and
    titles are equal up to case get the same verdict, and so does a page
    with both put in capitals or in small letters. *)
Theorem payment_verdict_ignores_case `{Host} (url title : string) :
  (forall s, Str.is_ascii s = true -> str_lower s = Str.lower s) ->
  Str.is_ascii url = true ->
  Str.is_ascii title = true ->
  (forall url' title',
      Str.is_ascii url' = true -> Str.is_ascii title' = true ->
      Str.lower url' = Str.lower url -> Str.lower title' = Str.lower title ->
      _is_payment_page url' title' = _is_payment_page url title)
  /\ _is_payment_page (Str.upper url) (Str.upper title) = _is_payment_page url title
  /\ _is_payment_page (Str.lower url) (Str.lower title) = _is_payment_page url title.
Proof.
  intros Hhost Hurl Htitle.
  assert (forall u t, Str.is_ascii u = true -> Str.is_ascii t = true ->
            str_lower (u +:+ " " +:+ t) = Str.lower u +:+ " " +:+ Str.lower t) as Hcombined.
  { intros u t Hu Ht. rewrite Hhost.
    - by rewrite !lower_app.
    - rewrite !is_ascii_app, Hu, Ht. reflexivity. }
  assert (forall url' title',
            Str.is_ascii url' = true -> Str.is_ascii title' = true ->
            Str.lower url' = Str.lower url -> Str.lower title' = Str.lower title ->
            _is_payment_page url' title' = _is_payment_page url title) as Hcase.
  { intros url' title' Hau Hat Hu Ht. unfold _is_payment_page. cbv zeta.
    rewrite !Hcombined by done. by rewrite Hu, Ht. }
  split; [done|].
  split; apply Hcase; auto using lower_upper, lower_lower, is_ascii_upper, is_ascii_lower.
Qed.

Lemma payment_verdict_ignores_case_witness :
  _is_payment_page (H := Ref.host EmptyString)
    (Str.upper "https://shop.example/CheckOut") (Str.upper "Your cart")
  = _is_payment_page (H := Ref.host EmptyString) "https://shop.example/CheckOut" "Your cart".
Proof.
  destruct (payment_verdict_ignores_case (H := Ref.host EmptyString)
              "https://shop.example/CheckOut" "Your cart") as (_ & Hupper & _).
  - intros s _. reflexivity.
  - reflexivity.
  - reflexivity.
  - exact Hupper.
Defined.

(** ** Popups and the keep-alive loop *)

Section PopupFacts.
Import Popups.

Lemma attempt_spec (p : page) (selector : string) (tr : list call) :
  exists calls,
    attempt p selector tr = (Returned tt, tr ++ IsVisible selector :: calls)
    /\ probes calls = []
    /\ (forall s, Click s ∈ calls -> s = selector /\ is_visible p selector = Returned true)
    /\ (is_visible p selector = Returned true -> Click selector ∈ calls).
Proof.
  unfold attempt, guarded, bind, emit, ret.
  destruct (is_visible p selector) as [[|]|e] eqn:Hv.
  - destruct (click p selector) as [[]|e].
    + exists [Click selector; Sleep 300]. rewrite <- !app_assoc. split; [done|].
      split; [done|]. split; [|intros _; set_solver].
      intros s [[= ->]|Hs%list_elem_of_singleton]%elem_of_cons; done.
    + exists [Click selector]. rewrite <- !app_assoc. split; [done|].
      split; [done|]. split; [|intros _; set_solver].
      intros s [= ->]%list_elem_of_singleton. done.
  - exists []. split; [done|]. split; [done|]. split; [|done].
    intros s Hs. by apply elem_of_nil in Hs.
  - exists []. split; [done|]. split; [done|]. split; [|done].
    intros s Hs. by apply elem_of_nil in Hs.
Qed.

Lemma probes_app (tr1 tr2 : list call) : probes (tr1 ++ tr2) = probes tr1 ++ probes tr2.
Proof. apply omap_app. Qed.

Lemma each_spec (p : page) (sels : list string) (tr : list call) :
  exists calls,
    each p sels tr = (Returned tt, tr ++ calls)
    /\ probes calls = sels
    /\ (forall s, Click s ∈ calls -> s ∈ sels /\ is_visible p s = Returned true)
    /\ (forall s, s ∈ sels -> is_visible p s = Returned true -> Click s ∈ calls).
Proof.
  revert tr. induction sels as [|sel sels IH]; intros tr.
  - exists []. simpl. unfold ret. rewrite app_nil_r. split; [done|]. split; [done|].
    split; intros s Hs; by apply elem_of_nil in Hs.
  - cbn [each]. unfold bind at 1.
    destruct (attempt_spec p sel tr) as (calls1 & -> & Hp1 & Hc1 & Hv1).
    destruct (IH (tr ++ IsVisible sel :: calls1)) as (calls2 & -> & Hp2 & Hc2 & Hv2).
    exists ((IsVisible sel :: calls1) ++ calls2). rewrite <- app_assoc. split; [done|].
    split; [|split].
    + rewrite probes_app. change (probes (IsVisible sel :: calls1)) with (sel :: probes calls1).
      by rewrite Hp1, Hp2.
    + intros s [Hs|Hs]%elem_of_app.
      * apply elem_of_cons in Hs as [[=]|Hs]. destruct (Hc1 s Hs) as [-> Hv].
        split; [left | done].
      * destruct (Hc2 s Hs) as [Hin Hv]. split; [by right | done].
    + intros s [->|Hs]%elem_of_cons Hv.
      * apply elem_of_app. left. right. by apply Hv1.
      * apply elem_of_app. right. by apply Hv2.
Qed.

(** X19. Whatever the page answers, [_dismiss_popups] returns and raises
    nothing. It asks for the visibility of each of its nine selectors, once
    and in the order of its list, also after a call for an earlier selector
    raised; and it clicks a selector exactly when the page answered that
    its element is visible. *)
Theorem dismiss_popups_probes_every_selector (p : page) (tr : list call) :
  exists calls,
    _dismiss_popups p tr = (Returned tt, tr ++ calls)
    /\ probes calls = selectors
    /\ length (probes calls) = 9%nat
    /\ forall s, Click s ∈ calls <-> s ∈ selectors /\ is_visible p s = Returned true.
Proof.
  destruct (each_spec p selectors tr) as (calls & Heq & Hp & Hc & Hv).
  exists calls. split; [done|]. split; [done|]. split; [by rewrite Hp|].
  intros s. split; [apply Hc | intros [Hin Hs]; by apply Hv].
Qed.

End PopupFacts.

Section KeepAliveFacts.
Import KeepAlive.

Lemma watch_rounds (e : env) (n : nat) : forall (start fuel : nat) (tr : list call),
  (forall m, (start <= m < start + n)%nat -> within e m = true /\ title_ok e m = true) ->
  watch e (n + fuel) start tr = watch e fuel (start + n) (tr ++ rounds n).
Proof.
  induction n as [|n IH]; intros start fuel tr Hok.
  - simpl. by rewrite Nat.add_0_r, app_nil_r.
  - cbn [Nat.add watch]. destruct (Hok start) as [-> ->]; [lia|].
    rewrite IH by (intros m Hm; apply Hok; lia).
    replace (S start + n)%nat with (start + S n)%nat by lia.
    cbn [rounds]. by rewrite <- app_assoc.
Qed.

(** X20. The keep-alive loop polls the title every two seconds for as long
    as the time limit is not reached and the page answers. In the first
    round [n] in which the limit is reached or the title call raises, the
    loop is left, and the browser is closed: once, as the last call, and
    whether or not closing raises the function returns. *)
Theorem keep_alive_closes_once (e : env) (n fuel : nat) :
  (forall m, (m < n)%nat -> within e m = true /\ title_ok e m = true) ->
  within e n = false \/ title_ok e n = false ->
  (n < fuel)%nat ->
  _keep_alive e fuel
  = Some (Returned tt, rounds n ++ (if within e n then [Title] else []) ++ [Close]).
Proof.
  intros Hok Hend Hfuel. unfold _keep_alive.
  replace fuel with (n + S (fuel - S n))%nat by lia.
  rewrite (watch_rounds e n 0) by (intros m Hm; apply Hok; lia).
  cbn [Nat.add watch app]. destruct (within e n) eqn:Hw.
  - destruct Hend as [|Ht]; [done|]. rewrite Ht. simpl. by rewrite <- ?app_assoc.
  - simpl. by rewrite ?app_nil_r.
Qed.

Lemma keep_alive_closes_once_witness :
  _keep_alive {| within := fun m => Nat.ltb m 300; title_ok := fun m => Nat.ltb m 2;
                 close_ok := false |} 5
  = Some (Returned tt, rounds 2 ++ [Title] ++ [Close]).
Proof.
  apply (keep_alive_closes_once
           {| within := fun m => Nat.ltb m 300; title_ok := fun m => Nat.ltb m 2;
              close_ok := false |} 2 5).
  - intros m Hm. destruct m as [|[|m]]; [by split | by split | lia].
  - right. reflexivity.
  - lia.
Defined.

End KeepAliveFacts.

(** ** Intent detection *)

Section IntentFacts.
Import Intent.
Context `{Host}.

Lemma any_keyword_spec (text_lower : string) (kws : list string) :
  any_keyword text_lower kws = true <-> exists kw, kw ∈ kws /\ Str.occurs_in kw text_lower.
Proof.
  induction kws as [|kw kws IH]; simpl.
  - split; [done|]. intros (kw & Hin & _). by apply elem_of_nil in Hin.
  - destruct (Str.contains kw text_lower) eqn:Hc.
    + split; [|done]. intros _. exists kw. split; [left | by apply contains_spec].
    + rewrite IH. split; intros (kw' & Hin & Hocc).
      * exists kw'. split; [by right | done].
      * exists kw'. split; [|done]. apply elem_of_cons in Hin as [->|Hin]; [|done].
        apply contains_spec in Hocc. congruence.
Qed.

Lemma scan_rules_spec (text_lower : string) (rules : list rule) (found : list matched) :
  scan_rules text_lower rules found
  = found ++ (entry <$> filter (fun r => any_keyword text_lower (keywords r) = true) rules).
Proof.
  revert found. induction rules as [|r rules IH]; intros found.
  - simpl. by rewrite app_nil_r.
  - cbn [scan_rules]. rewrite IH, filter_cons.
    destruct (any_keyword text_lower (keywords r)) eqn:Hr.
    + rewrite decide_True by done. by rewrite <- app_assoc.
    + rewrite decide_False by done. done.
Qed.

Lemma detect_intent_spec (text : string) :
  detect_intent text
  = match entry <$> filter (fun r => any_keyword (str_lower text) (keywords r) = true)
                      INTENT_RULES with
    | [] => [general_help]
    | found => found
    end.
Proof. unfold detect_intent. by rewrite scan_rules_spec. Qed.

(** Membership in the answer of [detect_intent]. *)
Lemma detect_intent_mem (text : string) (m : matched) :
  m ∈ detect_intent text <->
  (exists r kw, r ∈ INTENT_RULES /\ m = entry r /\ kw ∈ keywords r
                /\ Str.occurs_in kw (str_lower text))
  \/ (m = general_help
      /\ forall r kw, r ∈ INTENT_RULES -> kw ∈ keywords r ->
                      ~ Str.occurs_in kw (str_lower text)).
Proof.
  rewrite detect_intent_spec.
  set (hits := filter (fun r => any_keyword (str_lower text) (keywords r) = true) INTENT_RULES).
  assert (forall r, r ∈ hits <->
            r ∈ INTENT_RULES /\ exists kw, kw ∈ keywords r /\ Str.occurs_in kw (str_lower text))
    as Hhits.
  { intros r. unfold hits. rewrite list_elem_of_filter, any_keyword_spec. tauto. }
  destruct hits as [|r0 hits'] eqn:Hh; cbn [fmap list_fmap].
  - rewrite list_elem_of_singleton. split.
    + intros ->. right. split; [done|]. intros r kw Hr Hkw Hocc.
      assert (r ∈ []) as Hin by (apply Hhits; eauto). by apply elem_of_nil in Hin.
    + intros [(r & kw & Hr & _ & Hkw & Hocc)|[-> _]]; [|done].
      assert (r ∈ []) as Hin by (apply Hhits; eauto). by apply elem_of_nil in Hin.
  - change (entry r0 :: (entry <$> hits')) with (entry <$> (r0 :: hits')).
    rewrite list_elem_of_fmap. split.
    + intros (r & -> & Hr). apply Hhits in Hr as (Hr & kw & Hkw & Hocc). left. eauto 10.
    + intros [(r & kw & Hr & -> & Hkw & Hocc)|[_ Hnone]].
      * exists r. split; [done|]. apply Hhits. eauto.
      * assert (r0 ∈ r0 :: hits') as Hin by left.
        apply Hhits in Hin as (Hr & kw & Hkw & Hocc). by destruct (Hnone r0 kw).
Qed.

(** X21. An intent is detected for a text exactly when one of the keywords
    of its rule occurs, as a piece of text, in the lower-cased text; the
    fallback "general_help" is answered exactly when no keyword of any rule
    occurs. *)
Theorem detect_intent_characterised (text : string) (m : matched) :
  m ∈ detect_intent text <->
  (exists r kw, r ∈ INTENT_RULES /\ m = entry r /\ kw ∈ keywords r
                /\ Str.occurs_in kw (str_lower text))
  \/ (m = general_help
      /\ forall r kw, r ∈ INTENT_RULES -> kw ∈ keywords r ->
                      ~ Str.occurs_in kw (str_lower text)).
Proof. apply detect_intent_mem. Qed.

(** X22. The answer of [detect_intent] is never empty, and it names no
    intent twice: it is either the fallback alone, or entries of the rules
    in the order of the rules, each rule at most once. *)
Theorem detect_intent_shape (text : string) :
  detect_intent text <> []
  /\ NoDup (m_intent <$> detect_intent text)
  /\ (detect_intent text = [general_help]
      \/ detect_intent text `sublist_of` (entry <$> INTENT_RULES)).
Proof.
  rewrite detect_intent_spec.
  set (hits := filter (fun r => any_keyword (str_lower text) (keywords r) = true) INTENT_RULES).
  assert (hits `sublist_of` INTENT_RULES) as Hsub by apply sublist_filter.
  destruct hits as [|r0 hits'] eqn:Hh; cbn [fmap list_fmap].
  - split; [done|]. split; [|by left]. apply NoDup_singleton.
  - change (entry r0 :: (entry <$> hits')) with (entry <$> (r0 :: hits')).
    split; [done|]. split.
    + change (NoDup (m_intent <$> (entry <$> r0 :: hits'))).
      apply (sublist_NoDup _ (m_intent <$> (entry <$> INTENT_RULES))).
      * apply (bool_decide_unpack _). vm_compute. exact I.
      * by do 2 apply fmap_sublist.
    + right. by apply fmap_sublist.
Qed.

(** X23. Keywords are matched as pieces of text, not as words: a word that
    merely contains a keyword of a rule makes the intent of that rule
    detected. A text with the word "dinner" is detected as a hotel booking
    because "inn" occurs in it. *)
Theorem keyword_inside_a_word_matches (text word kw : string) (r : rule) (i j : nat) :
  INTENT_RULES !! i = Some r ->
  keywords r !! j = Some kw ->
  Str.occurs_in kw word ->
  Str.occurs_in word (str_lower text) ->
  entry r ∈ detect_intent text.
Proof.
  intros Hr Hkw Hword Htext. apply detect_intent_mem. left.
  exists r, kw. split; [by apply list_elem_of_lookup_2 in Hr|]. split; [done|].
  split; [by apply list_elem_of_lookup_2 in Hkw|]. by apply occurs_trans with word.
Qed.

End IntentFacts.

Lemma keyword_inside_a_word_matches_witness :
  {| Intent.m_intent := "hotel_booking"; Intent.m_label := "Hotel Booking" |}
  ∈ Intent.detect_intent (H := Ref.host EmptyString) "Book a table for dinner".
Proof.
  apply (keyword_inside_a_word_matches (H := Ref.host EmptyString)
           "Book a table for dinner" "dinner" "inn"
           {| Intent.intent := "hotel_booking";
              Intent.keywords := ["hotel"; "room"; "stay"; "check-in"; "accommodation"; "suite";
                           "lodge"; "resort"; "inn"];
              Intent.label := "Hotel Booking" |} 3 8).
  - reflexivity.
  - reflexivity.
  - by exists "d", "er".
  - apply contains_spec. vm_compute. reflexivity.
Defined.


(** ** The trigger of the text route *)

Section RouteFacts.
Import Route.

Lemma truthy_default (d : gmap string pyval) (key : string) :
  truthy (default PNone (d !! key)) = true -> d !! key = Some (default PNone (d !! key)).
Proof. by destruct (d !! key). Qed.

Lemma replace_go_skip (old new : string) (n : nat) (s : string) :
  String.length s = n -> replace_go old new n s = EmptyString.
Proof.
  revert n. induction s as [|c s IH]; intros n; simpl; [done|].
  destruct n as [|n]; [done|]. intros [= Hn]. by apply IH.
Qed.

Lemma replace_empty (old new : string) : str_replace old new EmptyString = EmptyString.
Proof. reflexivity. Qed.

Lemma occurs_tail (x : string) (c : ascii) (s : string) :
  Str.occurs_in x s -> Str.occurs_in x (String c s).
Proof. intros (pre & post & ->). by exists (String c pre), post. Qed.

(** No occurrence of " Tour" starts inside a text that has none and runs
    into a " Tour" appended to it. *)
Lemma no_straddle (s : string) :
  ~ Str.occurs_in " Tour" s -> s <> EmptyString ->
  Str.startswith " Tour" (s +:+ " Tour") = false.
Proof.
  intros Hno Hne. apply not_true_iff_false. intros [post Hpost]%startswith_spec.
  destruct s as [|c1 [|c2 [|c3 [|c4 [|c5 s]]]]]; [done|..];
    rewrite ?app_cons, ?app_empty_l in Hpost.
  1-4: congruence.
  injection Hpost as -> -> -> -> -> _. apply Hno. by exists EmptyString, s.
Qed.

(** Taking " Tour" out of a place name followed by " Tour" gives the
    place name back. *)
Lemma replace_tour_suffix (place : string) :
  ~ Str.occurs_in " Tour" place ->
  str_replace " Tour" EmptyString (place +:+ " Tour") = place.
Proof.
  unfold str_replace. induction place as [|c place IH]; intros Hno; [reflexivity|].
  rewrite app_cons. cbn [replace_go].
  change (String c (place +:+ " Tour")) with (String c place +:+ " Tour").
  rewrite no_straddle by done.
  rewrite IH; [done|]. intros Hocc. by apply Hno, occurs_tail.
Qed.

Lemma destination_of_cases (details v : pyval) :
  destination_of details = Returned v ->
  exists d, details = PDict d
    /\ (truthy v = true
        /\ (d !! "destination" = Some v \/ d !! "restaurant" = Some v \/ d !! "hotel" = Some v
            \/ exists s, d !! "tour_name" = Some (PStr s)
                         /\ v = PStr (str_replace " Tour" EmptyString s))
        \/ truthy v = false /\ v = PStr EmptyString).
Proof.
  destruct details as [| | | | | |d]; try done. intros Hv. exists d. split; [done|].
  revert Hv. unfold destination_of, por. cbn [Py.get mbind outcome_bind].
  destruct (truthy (default PNone (d !! "destination"))) eqn:H1; cbv iota.
  { intros [= Hv]; subst v. left. split; [done|]. left. by apply truthy_default. }
  destruct (truthy (default PNone (d !! "restaurant"))) eqn:H2; cbv iota.
  { intros [= Hv]; subst v. left. split; [done|]. right. left. by apply truthy_default. }
  destruct (truthy (default PNone (d !! "hotel"))) eqn:H3; cbv iota.
  { intros [= Hv]; subst v. left. split; [done|]. do 2 right. left. by apply truthy_default. }
  destruct (d !! "tour_name") as [t|] eqn:Ht; cbn [default from_option id].
  - destruct t as [| | | |s| |]; try done. cbn [without_tour mbind outcome_bind].
    destruct (truthy (PStr (str_replace " Tour" EmptyString s))) eqn:H4; cbv iota.
    + intros [= Hv]; subst v. left. split; [done|]. do 3 right. eauto.
    + intros [= Hv]; subst v. by right.
  - cbn [without_tour mbind outcome_bind]. rewrite replace_empty. simpl. intros [= Hv]; subst v. by right.
Qed.

(** X24. The text route launches the browser automation for a response
    only with a destination that is not empty and an intent other than
    "general_help" and "hotel_booking". The destination it hands over is
    the first non-empty one of the details "destination", "restaurant" and
    "hotel" or, failing these, the "tour_name" without " Tour". The only
    exception the step can raise is [AttributeError], for a response or
    details that are no dict or a tour name that is no text. *)
Theorem automation_target_guard (resp : pyval) :
  (forall intent_tag destination,
      automation_target resp = Returned (Some (intent_tag, destination)) ->
      truthy destination = true
      /\ intent_tag <> PStr "general_help" /\ intent_tag <> PStr "hotel_booking"
      /\ Py.get resp "intent" (PStr EmptyString) = Returned intent_tag
      /\ exists d,
           Py.get resp "details" (PDict ∅) = Returned (PDict d)
           /\ (d !! "destination" = Some destination \/ d !! "restaurant" = Some destination
               \/ d !! "hotel" = Some destination
               \/ exists s, d !! "tour_name" = Some (PStr s)
                            /\ destination = PStr (str_replace " Tour" EmptyString s)))
  /\ (forall e, automation_target resp = Raised e -> e = AttributeError).
Proof.
  split.
  - intros intent_tag destination. unfold automation_target.
    destruct (Py.get resp "intent" (PStr EmptyString)) as [i|e] eqn:Hi; [|done].
    destruct (Py.get resp "details" (PDict ∅)) as [details|e] eqn:Hd; [|done].
    cbn [mbind outcome_bind].
    destruct (destination_of details) as [dst|e] eqn:Hdst; [|done].
    cbn [mbind outcome_bind].
    destruct (truthy dst) eqn:Htruthy; cbn [andb]; [|done].
    destruct (Py.eq_str i "general_help") eqn:Hg; cbn [orb negb]; [done|].
    destruct (Py.eq_str i "hotel_booking") eqn:Hh; cbn [orb negb]; [done|].
    intros [= <- <-]. split; [done|].
    split; [intros Heq; apply eq_str_iff in Heq; congruence|].
    split; [intros Heq; apply eq_str_iff in Heq; congruence|].
    split; [done|].
    apply destination_of_cases in Hdst as (d & -> & [[_ Hfrom]|[Hf _]]); [eauto | congruence].
  - intros e. unfold automation_target.
    destruct resp as [| | | | | |r]; try by intros [= <-].
    cbn [Py.get mbind outcome_bind].
    destruct (default (PDict ∅) (r !! "details")) as [| | | | | |d] eqn:Hd;
      try by intros [= <-].
    unfold destination_of, por. cbn [Py.get mbind outcome_bind].
    destruct (truthy (default PNone (d !! "destination"))); cbv iota.
    { cbn [mbind outcome_bind]. by destruct (_ && _)%bool. }
    destruct (truthy (default PNone (d !! "restaurant"))); cbv iota.
    { cbn [mbind outcome_bind]. by destruct (_ && _)%bool. }
    destruct (truthy (default PNone (d !! "hotel"))); cbv iota.
    { cbn [mbind outcome_bind]. by destruct (_ && _)%bool. }
    destruct (default (PStr EmptyString) (d !! "tour_name")) as [| | | |s| |];
      try by intros [= <-].
    cbn [without_tour mbind outcome_bind].
    destruct (truthy (PStr _)); cbv iota; cbn [mbind outcome_bind]; by destruct (_ && _)%bool.
Qed.

Lemma automation_target_guard_witness :
  Route.truthy (PStr "Airport") = true
  /\ PStr "taxi_booking" <> PStr "general_help" /\ PStr "taxi_booking" <> PStr "hotel_booking"
  /\ Py.get (PDict (list_to_map [("intent", PStr "taxi_booking");
                                 ("details", PDict (list_to_map [("destination", PStr "Airport")]))]))
       "intent" (PStr EmptyString) = Returned (PStr "taxi_booking")
  /\ exists d,
       Py.get (PDict (list_to_map [("intent", PStr "taxi_booking");
                                   ("details", PDict (list_to_map [("destination", PStr "Airport")]))]))
         "details" (PDict ∅) = Returned (PDict d)
       /\ (d !! "destination" = Some (PStr "Airport") \/ d !! "restaurant" = Some (PStr "Airport")
           \/ d !! "hotel" = Some (PStr "Airport")
           \/ exists s, d !! "tour_name" = Some (PStr s)
                        /\ PStr "Airport" = PStr (str_replace " Tour" EmptyString s)).
Proof.
  apply (automation_target_guard
           (PDict (list_to_map [("intent", PStr "taxi_booking");
                                ("details", PDict (list_to_map [("destination", PStr "Airport")]))]))).
  vm_compute. reflexivity.
Defined.

(** X25. A tour booking carries its place as the tour name [place Tour].
    When the details name no destination, restaurant or hotel, the text
    route hands the place itself to the automation, for every place that is
    not empty and does not itself contain " Tour"; the automation then
    opens Google Maps with the goal to search for tours in that place. *)
Theorem tour_name_round_trip (r d : gmap string pyval) (place : string) :
  r !! "intent" = Some (PStr "tour_booking") ->
  r !! "details" = Some (PDict d) ->
  truthy (default PNone (d !! "destination")) = false ->
  truthy (default PNone (d !! "restaurant")) = false ->
  truthy (default PNone (d !! "hotel")) = false ->
  d !! "tour_name" = Some (PStr (place +:+ " Tour")) ->
  place <> EmptyString ->
  ~ Str.occurs_in " Tour" place ->
  automation_target (PDict r) = Returned (Some (PStr "tour_booking", PStr place))
  /\ site_name (site_for "tour_booking" place) = "Google Maps"
  /\ forall pickup,
       _build_goal "tour_booking" place pickup = "Search for tours in '" +:+ place +:+ "'.".
Proof.
  intros Hi Hd H1 H2 H3 Ht Hne Hno. split; [|split; [reflexivity | by intros pickup]].
  unfold automation_target, destination_of, por. cbn [Py.get mbind outcome_bind].
  rewrite Hi, Hd. cbn [default from_option id Py.get mbind outcome_bind].
  rewrite H1, H2, H3, Ht. cbn [default from_option id without_tour mbind outcome_bind].
  rewrite replace_tour_suffix by done.
  destruct place as [|c place]; [done|]. reflexivity.
Qed.

Lemma tour_name_round_trip_witness :
  automation_target
    (PDict (list_to_map [("intent", PStr "tour_booking");
                         ("details", PDict (list_to_map [("tour_name", PStr "Old Goa Tour")]))]))
  = Returned (Some (PStr "tour_booking", PStr "Old Goa"))
  /\ site_name (site_for "tour_booking" "Old Goa") = "Google Maps"
  /\ forall pickup,
       _build_goal "tour_booking" "Old Goa" pickup
       = "Search for tours in '" +:+ "Old Goa" +:+ "'.".
Proof.
  apply (tour_name_round_trip
           (list_to_map [("intent", PStr "tour_booking");
                         ("details", PDict (list_to_map [("tour_name", PStr "Old Goa Tour")]))])
           (list_to_map [("tour_name", PStr "Old Goa Tour")]) "Old Goa").
  - vm_compute. reflexivity.
  - vm_compute. reflexivity.
  - vm_compute. reflexivity.
  - vm_compute. reflexivity.
  - vm_compute. reflexivity.
  - vm_compute. reflexivity.
  - discriminate.
  - intros Hocc. apply contains_spec in Hocc. vm_compute in Hocc. discriminate.
Defined.

End RouteFacts.
